(** * hr-system: the employee model of [employee.py]

    A shallow embedding of the validated employee hierarchy
    (Employee -> Salaried / Hourly -> Executive / Manager / Permanent /
    Temporary) and of the Python operations its setters rely on.

    Python integers are [Z], floats are IEEE 754 binary64 values
    ([spec_float], NaN and infinities included), strings are [string], a
    character standing for a code point below 256.  Instances live in a
    heap; methods are computations over the heap and the class attribute
    [Employee.CURRENT_ID] that may raise. *)

From Stdlib Require Import ZArith Lia Bool List Ascii String Sorted.
From Stdlib Require Import Floats.SpecFloat.
From stdpp Require Import base option list gmap strings pretty.

Local Open Scope string_scope.
Local Open Scope Z_scope.

(** ** Python floats: IEEE 754 binary64 *)

Module PyFloat.

Definition prec : Z := 53.
Definition emax : Z := 1024.

Definition of_Z (n : Z) : spec_float := binary_normalize prec emax n 0 false.
Definition div : spec_float -> spec_float -> spec_float := SFdiv prec emax.
Definition mul : spec_float -> spec_float -> spec_float := SFmul prec emax.

(** A decimal literal [n / 10^k] of the source: the binary64 nearest to the
    rational, which the correctly rounded quotient of two exactly
    representable integers is. *)
Definition literal (n : Z) (k : nat) : spec_float :=
  div (of_Z n) (of_Z (10 ^ Z.of_nat k)).

Definition nan : spec_float := S754_nan.

Definition is_zero (f : spec_float) : bool :=
  match f with S754_zero _ => true | _ => false end.

Definition is_finite (f : spec_float) : bool :=
  match f with S754_zero _ | S754_finite _ _ _ => true | _ => false end.

(** Exact comparison of a float with an integer, as [float_richcompare]
    does for a float against a Python [int]: no rounding of the integer. *)
Definition compare_Z (f : spec_float) (n : Z) : option comparison :=
  match f with
  | S754_nan => None
  | S754_infinity s => Some (if s then Lt else Gt)
  | S754_zero _ => Some (Z.compare 0 n)
  | S754_finite s m e =>
      let v := cond_Zopp s (Zpos m) in
      Some (if 0 <=? e then Z.compare (v * 2 ^ e) n
            else Z.compare v (n * 2 ^ (- e)))
  end.

End PyFloat.

(** ** Python values *)

Inductive Role := CEO | CFO | CIO.

Inductive Department := ACCOUNTING | FINANCE | HR | R_AND_D | MACHINING.

#[global] Instance Role_eq_dec : EqDecision Role.
Proof. solve_decision. Defined.

#[global] Instance Department_eq_dec : EqDecision Department.
Proof. solve_decision. Defined.

Definition Role_value (r : Role) : Z :=
  match r with CEO => 0 | CFO => 1 | CIO => 2 end.

Definition Department_value (d : Department) : Z :=
  match d with
  | ACCOUNTING => 0 | FINANCE => 1 | HR => 2 | R_AND_D => 3 | MACHINING => 4
  end.

Definition Role_name (r : Role) : string :=
  match r with CEO => "CEO" | CFO => "CFO" | CIO => "CIO" end.

Definition Department_name (d : Department) : string :=
  match d with
  | ACCOUNTING => "ACCOUNTING" | FINANCE => "FINANCE" | HR => "HR"
  | R_AND_D => "R_AND_D" | MACHINING => "MACHINING"
  end.

Definition Role_members : list Role := [CEO; CFO; CIO].

Definition Department_members : list Department :=
  [ACCOUNTING; FINANCE; HR; R_AND_D; MACHINING].

(** [datetime.datetime] without fractional seconds. *)
Record datetime := mk_datetime {
  dt_year : Z; dt_month : Z; dt_day : Z;
  dt_hour : Z; dt_minute : Z; dt_second : Z
}.

#[global] Instance datetime_eq_dec : EqDecision datetime.
Proof. solve_decision. Defined.

(** The values a caller can hand to a constructor or a setter. *)
Inductive value :=
| VNone
| VBool (b : bool)
| VInt (n : Z)
| VFloat (f : spec_float)
| VStr (s : string)
| VRole (r : Role)
| VDepartment (d : Department)
| VDatetime (d : datetime).

Inductive number := Int (n : Z) | Float (f : spec_float).

(** [bool] is a subclass of [int]: [True] counts as 1 and [False] as 0. *)
Definition as_number (v : value) : option number :=
  match v with
  | VBool b => Some (Int (Z.b2z b))
  | VInt n => Some (Int n)
  | VFloat f => Some (Float f)
  | _ => None
  end.

(** Numeric comparison; [None] when a NaN makes the operands unordered. *)
Definition num_compare (a b : number) : option comparison :=
  match a, b with
  | Int x, Int y => Some (Z.compare x y)
  | Float f, Int y => PyFloat.compare_Z f y
  | Int x, Float g => option_map CompOpp (PyFloat.compare_Z g x)
  | Float f, Float g => SFcompare f g
  end.

(** ** Exceptions and results *)

Inductive exc_class :=
| ValueError
| TypeError
| InvalidRoleException
| InvalidDepartmentException
| AttributeError
| OverflowError
| ZeroDivisionError.

#[global] Instance exc_class_eq_dec : EqDecision exc_class.
Proof. solve_decision. Defined.

(** An exception: its class and its message.  The message is recorded for
    the exceptions [employee.py] raises itself; the interpreter's own
    exceptions (a failed comparison, a failed [strptime]) carry [None]. *)
Record exn := Exception { exc_type : exc_class; exc_message : option string }.

Inductive outcome (A : Type) :=
| Ok (a : A)
| Raise (e : exn).
Arguments Ok {A} a.
Arguments Raise {A} e.

#[global] Instance outcome_ret : MRet outcome := λ A a, Ok a.
#[global] Instance outcome_bind : MBind outcome := λ A B f m,
  match m with Ok a => f a | Raise e => Raise e end.

Definition builtin_error {A} (c : exc_class) : outcome A :=
  Raise (Exception c None).

Definition is_ok {A} (o : outcome A) : bool :=
  match o with Ok _ => true | Raise _ => false end.

(** ** Operators of the language, as the setters use them *)

(** [a == b]. *)
Definition py_eq (a b : value) : bool :=
  match as_number a, as_number b with
  | Some x, Some y =>
      match num_compare x y with Some Eq => true | _ => false end
  | _, _ =>
      match a, b with
      | VNone, VNone => true
      | VStr s, VStr t => String.eqb s t
      | VRole r, VRole r' => bool_decide (r = r')
      | VDepartment d, VDepartment d' => bool_decide (d = d')
      | VDatetime d, VDatetime d' => bool_decide (d = d')
      | _, _ => false
      end
  end.

(** [a < k] and [a > k] against a numeric literal [k]: ordering is defined
    for numbers only, every other left operand is a [TypeError]. *)
Definition py_lt (a : value) (k : number) : outcome bool :=
  match as_number a with
  | Some x => Ok (match num_compare x k with Some Lt => true | _ => false end)
  | None => builtin_error TypeError
  end.

Definition py_gt (a : value) (k : number) : outcome bool :=
  match as_number a with
  | Some x => Ok (match num_compare x k with Some Gt => true | _ => false end)
  | None => builtin_error TypeError
  end.

(** [a or b] on two tests, the second evaluated only when the first is false. *)
Definition py_or (a : outcome bool) (b : outcome bool) : outcome bool :=
  x ← a; if (x : bool) then Ok true else b.

Inductive pytype := t_str | t_int | t_float.

Definition isinstance (v : value) (t : pytype) : bool :=
  match t, v with
  | t_str, VStr _ => true
  | t_int, (VInt _ | VBool _) => true
  | t_float, VFloat _ => true
  | _, _ => false
  end.

(** [sub in s] on strings. *)
Fixpoint contains (sub s : string) : bool :=
  String.prefix sub s ||
  match s with
  | EmptyString => false
  | String _ s' => contains sub s'
  end.

(** [sub in v]: none of the other values is a container. *)
Definition py_in_str (sub : string) (v : value) : outcome bool :=
  match v with
  | VStr s => Ok (contains sub s)
  | _ => builtin_error TypeError
  end.

Definition to_float (x : number) : outcome spec_float :=
  match x with
  | Float f => Ok f
  | Int n =>
      let f := PyFloat.of_Z n in
      if PyFloat.is_finite f then Ok f else builtin_error OverflowError
  end.

(** [a / d] for a float literal [d]. *)
Definition py_truediv (a : value) (d : spec_float) : outcome value :=
  match as_number a with
  | Some x =>
      f ← to_float x;
      if PyFloat.is_zero d then builtin_error ZeroDivisionError
      else Ok (VFloat (PyFloat.div f d))
  | None => builtin_error TypeError
  end.

Fixpoint str_repeat (n : nat) (s : string) : string :=
  match n with
  | O => ""
  | S n' => s +:+ str_repeat n' s
  end.

(** [a * k] for an int literal [k]. *)
Definition py_mul (a : value) (k : Z) : outcome value :=
  match a with
  | VInt n => Ok (VInt (n * k))
  | VBool b => Ok (VInt (Z.b2z b * k))
  | VFloat f => Ok (VFloat (PyFloat.mul f (PyFloat.of_Z k)))
  | VStr s => Ok (VStr (str_repeat (Z.to_nat k) s))
  | _ => builtin_error TypeError
  end.

(** [s + v] with a string on the left. *)
Definition py_add_str (s : string) (v : value) : outcome string :=
  match v with
  | VStr t => Ok (s +:+ t)
  | _ => builtin_error TypeError
  end.

(** ** String conversions: [str] and [repr] *)

Definition dquote : ascii := ascii_of_nat 34.
Definition backslash : ascii := ascii_of_nat 92.

Definition str_of_char (c : ascii) : string := String c "".

Fixpoint zeros (n : nat) : string :=
  match n with O => "" | S n' => String "0" (zeros n') end.

(** ["%0<w>d"] for a non-negative number. *)
Definition zero_pad (w : nat) (n : Z) : string :=
  let s : string := pretty n in
  zeros (w - String.length s) +:+ s.

Module Repr.

(** Positive rationals as numerator and positive denominator. *)
Definition rat : Type := Z * Z.

Definition rat_compare (a b : rat) : comparison :=
  Z.compare (fst a * snd b) (fst b * snd a).

Definition pow2 (z e : Z) : rat :=
  if 0 <=? e then (z * 2 ^ e, 1) else (z, 2 ^ (- e)).

Definition scale10 (a : rat) (k : Z) : rat :=
  if 0 <=? k then (fst a * 10 ^ k, snd a) else (fst a, snd a * 10 ^ (- k)).

Definition rat_floor (a : rat) : Z := fst a / snd a.

(** Largest [L] with [10^L <= x], searched downwards from an upper
    estimate. *)
Fixpoint log10_from (fuel : nat) (x : rat) (L : Z) : Z :=
  match fuel with
  | O => L
  | S fuel' =>
      match rat_compare (scale10 (1, 1) L) x with
      | Gt => log10_from fuel' x (L - 1)
      | _ => L
      end
  end.

Definition floor_log10 (m : positive) (e : Z) : Z :=
  let q := Zpos (digits2_pos m) + e in
  log10_from 8 (pow2 (Zpos m) e) ((q * 30103) / 100000 + 1).

(** The reals that round to [m * 2^e]: between the midpoints to its two
    neighbours, the midpoints included when [m] is even. *)
Definition low (m : positive) (e : Z) : rat :=
  if (Zpos m =? 2 ^ (PyFloat.prec - 1)) && (emin PyFloat.prec PyFloat.emax <? e)
  then pow2 (4 * Zpos m - 1) (e - 2)
  else pow2 (2 * Zpos m - 1) (e - 1).

Definition high (m : positive) (e : Z) : rat := pow2 (2 * Zpos m + 1) (e - 1).

Definition rounds_to (m : positive) (e : Z) (c : rat) : bool :=
  let above := rat_compare (low m e) c in
  let below := rat_compare c (high m e) in
  match above, below with
  | Lt, Lt => true
  | Eq, (Lt | Eq) | Lt, Eq => Z.even (Zpos m)
  | _, _ => false
  end.

(** The decimal [d * 10^k] with [n] digits that rounds to [m * 2^e] and is
    nearest to it, when there is one. *)
Definition candidate (m : positive) (e : Z) (L : Z) (n : Z) : option (Z * Z) :=
  let k := L - n + 1 in
  let x := pow2 (Zpos m) e in
  let d := rat_floor (scale10 x (- k)) in
  let ok1 := rounds_to m e (scale10 (d, 1) k) in
  let ok2 := rounds_to m e (scale10 (d + 1, 1) k) in
  match ok1, ok2 with
  | true, true =>
      match rat_compare (scale10 (2 * fst x, snd x) (- k)) (2 * d + 1, 1) with
      | Lt => Some (d, k)
      | Gt => Some (d + 1, k)
      | Eq => Some (if Z.even d then d else d + 1, k)
      end
  | true, false => Some (d, k)
  | false, true => Some (d + 1, k)
  | false, false => None
  end.

Fixpoint shortest_from (fuel : nat) (m : positive) (e : Z) (L : Z) (n : Z)
  : Z * Z :=
  match fuel with
  | O => (rat_floor (scale10 (pow2 (Zpos m) e) (- (L - n + 1))), L - n + 1)
  | S fuel' =>
      match candidate m e L n with
      | Some dk => dk
      | None => shortest_from fuel' m e L (n + 1)
      end
  end.

Fixpoint strip_zeros (fuel : nat) (d k : Z) : Z * Z :=
  match fuel with
  | O => (d, k)
  | S fuel' =>
      if (0 <? d) && (d mod 10 =? 0) then strip_zeros fuel' (d / 10) (k + 1)
      else (d, k)
  end.

(** Shortest digit string that reads back as the float, and the position
    of the decimal point relative to its first digit. *)
Definition shortest (m : positive) (e : Z) : string * Z :=
  let '(d, k) := shortest_from 17 m e (floor_log10 m e) 1 in
  let '(d, k) := strip_zeros 20 d k in
  let digits : string := pretty d in
  (digits, Z.of_nat (String.length digits) + k).

Definition str_head (s : string) : string :=
  match s with EmptyString => "" | String c _ => str_of_char c end.

Definition str_tail (s : string) : string :=
  match s with EmptyString => "" | String _ t => t end.

Definition format_short (digits : string) (decpt : Z) : string :=
  let n := Z.of_nat (String.length digits) in
  if (decpt <=? -4) || (16 <? decpt) then
    let ex := decpt - 1 in
    str_head digits
    +:+ (if 1 <? n then "." +:+ str_tail digits else "")
    +:+ "e" +:+ (if ex <? 0 then "-" else "+") +:+ zero_pad 2 (Z.abs ex)
  else if decpt <=? 0 then
    "0." +:+ zeros (Z.to_nat (- decpt)) +:+ digits
  else if n <=? decpt then
    digits +:+ zeros (Z.to_nat (decpt - n)) +:+ ".0"
  else
    String.substring 0 (Z.to_nat decpt) digits +:+ "."
    +:+ String.substring (Z.to_nat decpt) (Z.to_nat (n - decpt)) digits.

(** [repr] of a float, which is also its [str]. *)
Definition float_repr (f : spec_float) : string :=
  match f with
  | S754_nan => "nan"
  | S754_infinity s => if s then "-inf" else "inf"
  | S754_zero s => if s then "-0.0" else "0.0"
  | S754_finite s m e =>
      let '(digits, decpt) := shortest m e in
      (if s then "-" else "") +:+ format_short digits decpt
  end.

Definition hex_digit (n : nat) : string :=
  String.substring n 1 "0123456789abcdef".

Definition printable (n : nat) : bool :=
  negb ((n <? 32) || ((127 <=? n) && (n <=? 160)) || (n =? 173))%nat.

Definition escape (quote : ascii) (c : ascii) : string :=
  let n := nat_of_ascii c in
  if bool_decide (c = quote) || bool_decide (c = backslash)
  then String backslash (str_of_char c)
  else if (n =? 9)%nat then String backslash "t"
  else if (n =? 10)%nat then String backslash "n"
  else if (n =? 13)%nat then String backslash "r"
  else if printable n then str_of_char c
  else String backslash "x" +:+ hex_digit (n / 16) +:+ hex_digit (n mod 16).

Fixpoint escape_all (quote : ascii) (s : string) : string :=
  match s with
  | EmptyString => ""
  | String c t => escape quote c +:+ escape_all quote t
  end.

(** [repr] of a string: single quotes, unless the text holds a single
    quote and no double quote. *)
Definition str_repr (s : string) : string :=
  let quote :=
    if contains "'" s && negb (contains (str_of_char dquote) s)
    then dquote else "'"%char in
  String quote (escape_all quote s) +:+ str_of_char quote.

End Repr.

Definition datetime_str (d : datetime) : string :=
  zero_pad 4 (dt_year d) +:+ "-" +:+ zero_pad 2 (dt_month d) +:+ "-"
  +:+ zero_pad 2 (dt_day d) +:+ " " +:+ zero_pad 2 (dt_hour d) +:+ ":"
  +:+ zero_pad 2 (dt_minute d) +:+ ":" +:+ zero_pad 2 (dt_second d).

Definition datetime_repr (d : datetime) : string :=
  "datetime.datetime(" +:+ pretty (dt_year d) +:+ ", " +:+ pretty (dt_month d)
  +:+ ", " +:+ pretty (dt_day d) +:+ ", " +:+ pretty (dt_hour d) +:+ ", "
  +:+ pretty (dt_minute d)
  +:+ (if dt_second d =? 0 then "" else ", " +:+ pretty (dt_second d))
  +:+ ")".

(** [str(v)]. *)
Definition py_str (v : value) : string :=
  match v with
  | VNone => "None"
  | VBool b => if b then "True" else "False"
  | VInt n => pretty n
  | VFloat f => Repr.float_repr f
  | VStr s => s
  | VRole r => "Role." +:+ Role_name r
  | VDepartment d => "Department." +:+ Department_name d
  | VDatetime d => datetime_str d
  end.

(** [repr(v)]. *)
Definition py_repr (v : value) : string :=
  match v with
  | VStr s => Repr.str_repr s
  | VRole r => "<Role." +:+ Role_name r +:+ ": " +:+ pretty (Role_value r) +:+ ">"
  | VDepartment d =>
      "<Department." +:+ Department_name d +:+ ": "
      +:+ pretty (Department_value d) +:+ ">"
  | VDatetime d => datetime_repr d
  | _ => py_str v
  end.

(** [str] of a 3-tuple. *)
Definition tuple3_str (t : value * value * value) : string :=
  let '(a, b, c) := t in
  "(" +:+ py_repr a +:+ ", " +:+ py_repr b +:+ ", " +:+ py_repr c +:+ ")".

(** ** [datetime.datetime.strptime(data, '%Y-%m-%d')]

    [_strptime] compiles the format to a regular expression, matches it at
    the start of the text, refuses text left over, converts the groups with
    [int] and builds the date, which refuses year 0 and days the month does
    not have.  [\d] is a digit 0-9 on the code points modelled. *)

Module Strptime.

(** The fragment of regular expressions the format compiles to.
    Alternatives are tried in order, with backtracking. *)
Inductive regex :=
| Chr (c : ascii)
| Range (lo hi : ascii)
| Cat (r1 r2 : regex)
| Alt (r1 r2 : regex)
| Group (name : string) (r : regex).

Definition in_range (lo hi c : ascii) : bool :=
  ((nat_of_ascii lo <=? nat_of_ascii c) && (nat_of_ascii c <=? nat_of_ascii hi))%nat.

Abbreviation groups := (gmap string string).

Fixpoint rmatch {A} (r : regex) (s : string) (g : groups)
    (k : string → groups → option A) : option A :=
  match r with
  | Chr c =>
      match s with
      | String c' s' => if bool_decide (c = c') then k s' g else None
      | EmptyString => None
      end
  | Range lo hi =>
      match s with
      | String c' s' => if in_range lo hi c' then k s' g else None
      | EmptyString => None
      end
  | Cat r1 r2 => rmatch r1 s g (λ s' g', rmatch r2 s' g' k)
  | Alt r1 r2 =>
      match rmatch r1 s g k with
      | Some x => Some x
      | None => rmatch r2 s g k
      end
  | Group name r1 =>
      rmatch r1 s g (λ s' g',
        k s' (<[name := String.substring 0 (String.length s - String.length s') s]> g'))
  end.

(** [re.match]: the first match anchored at the start; the text left
    over and the named groups. *)
Definition re_match (r : regex) (s : string) : option (string * groups) :=
  rmatch r s ∅ (λ rest g, Some (rest, g)).

Definition digit : regex := Range "0" "9".

(** [%Y]: [\d\d\d\d]. *)
Definition directive_Y : regex :=
  Group "Y" (Cat digit (Cat digit (Cat digit digit))).

(** [%m]: [1[0-2]|0[1-9]|[1-9]]. *)
Definition directive_m : regex :=
  Group "m" (Alt (Cat (Chr "1") (Range "0" "2"))
            (Alt (Cat (Chr "0") (Range "1" "9"))
                 (Range "1" "9"))).

(** [%d]: [3[0-1]|[1-2]\d|0[1-9]|[1-9]| [1-9]]. *)
Definition directive_d : regex :=
  Group "d" (Alt (Cat (Chr "3") (Range "0" "1"))
            (Alt (Cat (Range "1" "2") digit)
            (Alt (Cat (Chr "0") (Range "1" "9"))
            (Alt (Range "1" "9")
                 (Cat (Chr " ") (Range "1" "9")))))).

(** The pattern of ['%Y-%m-%d']. *)
Definition format_regex : regex :=
  Cat directive_Y (Cat (Chr "-") (Cat directive_m (Cat (Chr "-") directive_d))).

Fixpoint digits_value (acc : Z) (s : string) : option Z :=
  match s with
  | EmptyString => Some acc
  | String c t =>
      if in_range "0" "9" c
      then digits_value (10 * acc + Z.of_nat (nat_of_ascii c - 48)) t
      else None
  end.

Fixpoint lstrip (s : string) : string :=
  match s with
  | String " " t => lstrip t
  | _ => s
  end.

(** [int(s)] on the text of a group. *)
Definition py_int (s : string) : option Z :=
  match lstrip s with
  | EmptyString => None
  | t => digits_value 0 t
  end.

Definition is_leap (y : Z) : bool :=
  (y mod 4 =? 0) && (negb (y mod 100 =? 0) || (y mod 400 =? 0)).

Definition days_in_month (y m : Z) : Z :=
  if m =? 2 then (if is_leap y then 29 else 28)
  else if (m =? 4) || (m =? 6) || (m =? 9) || (m =? 11) then 30
  else 31.

(** The dates [datetime.date] accepts: years 1 to 9999. *)
Definition valid_date (y m d : Z) : bool :=
  (1 <=? y) && (y <=? 9999) && (1 <=? m) && (m <=? 12)
  && (1 <=? d) && (d <=? days_in_month y m).

Definition strptime (data : string) : outcome datetime :=
  match re_match format_regex data with
  | None => builtin_error ValueError
  | Some (rest, g) =>
      if negb (String.eqb rest "") then builtin_error ValueError
      else
        match g !! "Y" ≫= py_int, g !! "m" ≫= py_int, g !! "d" ≫= py_int with
        | Some y, Some m, Some d =>
            if valid_date y m d then Ok (mk_datetime y m d 0 0 0)
            else builtin_error ValueError
        | _, _, _ => builtin_error ValueError
        end
  end.

End Strptime.

(** ** Containment in an enumeration class

    [v in Role] is decided by [EnumMeta.__contains__], whose behaviour on an
    operand that is no enumeration member depends on the interpreter:
    up to 3.7 the answer is [False]; from 3.8 to 3.11 it is a [TypeError];
    from 3.12 on the operand is also looked up among the members' values. *)

Inductive py_version := Py3_7 | Py3_11 | Py3_12.

Class Interpreter := version : py_version.

Definition is_enum_member (v : value) : bool :=
  match v with VRole _ | VDepartment _ => true | _ => false end.

Definition is_Role (v : value) : bool :=
  match v with VRole _ => true | _ => false end.

Definition is_Department (v : value) : bool :=
  match v with VDepartment _ => true | _ => false end.

Definition enum_contains `{Interpreter} (is_member : value → bool)
    (member_values : list Z) (v : value) : outcome bool :=
  match version with
  | Py3_7 => Ok (is_member v)
  | Py3_11 =>
      if is_enum_member v then Ok (is_member v) else builtin_error TypeError
  | Py3_12 =>
      Ok (is_member v || existsb (λ k, py_eq v (VInt k)) member_values)
  end.

Definition in_Role `{Interpreter} (v : value) : outcome bool :=
  enum_contains is_Role (map Role_value Role_members) v.

Definition in_Department `{Interpreter} (v : value) : outcome bool :=
  enum_contains is_Department (map Department_value Department_members) v.

(** ** Objects, the class attribute [CURRENT_ID] and the instances *)

Inductive cls :=
| Employee | Salaried | Hourly | Executive | Manager | Permanent | Temporary.

#[global] Instance cls_eq_dec : EqDecision cls.
Proof. solve_decision. Defined.

(** [class C(B)]: the base class of each class. *)
Definition base (c : cls) : option cls :=
  match c with
  | Employee => None
  | Salaried | Hourly => Some Employee
  | Executive | Manager => Some Salaried
  | Permanent | Temporary => Some Hourly
  end.

Fixpoint mro_from (fuel : nat) (c : cls) : list cls :=
  match fuel with
  | O => []
  | S fuel' =>
      c :: match base c with Some b => mro_from fuel' b | None => [] end
  end.

(** Method resolution order: the class, then its ancestors. *)
Definition mro (c : cls) : list cls := mro_from 3 c.

(** The first definition found along the method resolution order. *)
Definition resolve {T} (own : cls → option T) (c : cls) : option T :=
  head (omap own (mro c)).

(** An instance: its class and its attribute dictionary. *)
Record object := Object { ob_class : cls; ob_dict : gmap string value }.

(** Addresses of instances. *)
Abbreviation addr := nat.

(** The state of the process: the class attribute [Employee.CURRENT_ID] and
    the instances allocated so far, an address being an index. *)
Record world := World { CURRENT_ID : Z; heap : list object }.

Definition initial_world : world := World 1 [].

Definition IMAGE_PLACEHOLDER : string := "./images/placeholder.png".

(** Computations that read and write the world and may raise. *)
Definition M (A : Type) : Type := world → outcome A * world.

#[global] Instance M_ret : MRet M := λ A a w, (Ok a, w).
#[global] Instance M_bind : MBind M := λ A B f m w,
  match m w with
  | (Ok a, w') => f a w'
  | (Raise e, w') => (Raise e, w')
  end.

Definition lift {A} (o : outcome A) : M A := λ w, (o, w).

Definition raise {A} (c : exc_class) (msg : string) : M A :=
  lift (Raise (Exception c (Some msg))).

Definition store (self : addr) (a : string) (v : value) (w : world) : world :=
  World (CURRENT_ID w)
        (alter (λ o, Object (ob_class o) (<[a := v]> (ob_dict o))) self (heap w)).

(** [self.a = v] on a plain attribute. *)
Definition setattr (self : addr) (a : string) (v : value) : M unit :=
  λ w, (Ok tt, store self a v w).

(** [self.a] on a plain attribute. *)
Definition getattr (self : addr) (a : string) : M value :=
  λ w, match heap w !! self ≫= λ o, ob_dict o !! a with
       | Some v => (Ok v, w)
       | None => (builtin_error AttributeError, w)
       end.

Definition class_of (self : addr) : M cls :=
  λ w, match heap w !! self with
       | Some o => (Ok (ob_class o), w)
       | None => (builtin_error AttributeError, w)
       end.

Definition get_CURRENT_ID : M Z := λ w, (Ok (CURRENT_ID w), w).

Definition put_CURRENT_ID (n : Z) : M unit := λ w, (Ok tt, World n (heap w)).

(** [object.__new__(c)]: a fresh instance with no attribute. *)
Definition alloc (c : cls) : M addr :=
  λ w, (Ok (length (heap w)), World (CURRENT_ID w) (heap w ++ [Object c ∅])).

(** [c(args)]: allocate, run [__init__], hand the instance back. *)
Definition new (c : cls) (init : addr → M unit) : M addr :=
  self ← alloc c; init self;; mret self.

(** What [__repr__] returns: [Employee]'s is a tuple, the others' a string. *)
Inductive repr_result :=
| ReprTuple (t : value * value * value)
| ReprStr (s : string).

Definition repr_str (r : repr_result) : string :=
  match r with
  | ReprTuple t => tuple3_str t
  | ReprStr s => s
  end.

Module Employee.

Definition name (self : addr) : M value := getattr self "_name".

Definition set_name (self : addr) (name : value) : M unit :=
  if py_eq name (VStr "") then raise ValueError "Name cannot be blank."
  else if negb (isinstance name t_str)
  then raise ValueError "Name needs to be a string."
  else setattr self "_name" name.

Definition email (self : addr) : M value := getattr self "_email".

Definition set_email (self : addr) (email : value) : M unit :=
  if py_eq email (VStr "") then raise ValueError "Email cannot be blank."
  else if negb (isinstance email t_str)
  then raise ValueError "Email needs to be a string."
  else
    found ← lift (py_in_str "@acme-machining.com" email);
    if negb found
    then raise ValueError "Email needs to end with @acme-machining.com"
    else setattr self "_email" email.

Definition image (self : addr) : M value := getattr self "_image".

Definition set_image (self : addr) (image : value) : M unit :=
  if py_eq image (VStr "") then raise ValueError "Image path cannot be blank."
  else if negb (isinstance image t_str)
  then raise ValueError "Image needs to be a string."
  else setattr self "_image" image.

Definition id (self : addr) : M value := getattr self "id_number".

Definition __init__ (self : addr) (name email : value) : M unit :=
  set_name self name;;
  set_email self email;;
  set_image self (VStr IMAGE_PLACEHOLDER);;
  current ← get_CURRENT_ID;
  setattr self "id_number" (VInt current);;
  put_CURRENT_ID (current + 1).

Definition __str__ (self : addr) : M string :=
  i ← getattr self "id_number";
  n ← name self;
  lift (py_add_str (py_str i +:+ ":") n).

Definition __repr__ (self : addr) : M repr_result :=
  n ← name self;
  e ← email self;
  i ← image self;
  mret (ReprTuple (n, e, i)).

(** The abstract method: its body is [pass]. *)
Definition calc_pay (self : addr) : M value := mret VNone.

End Employee.

Module Salaried.

Definition yearly (self : addr) : M value := getattr self "_yearly".

Definition set_yearly (self : addr) (yearly : value) : M unit :=
  low ← lift (py_or (py_lt yearly (Int 0)) (py_lt yearly (Int 50000)));
  if (low : bool)
  then raise ValueError "Yearly cannot be less than zero or less than 50000."
  else if negb (isinstance yearly t_float)
  then raise ValueError "Yearly needs to be an float."
  else setattr self "_yearly" yearly.

Definition __init__ (self : addr) (name email yearly : value) : M unit :=
  Employee.__init__ self name email;;
  set_yearly self yearly.

Definition calc_pay (self : addr) : M value :=
  y ← yearly self;
  lift (py_truediv y (PyFloat.of_Z 52)).

Definition __repr__ (self : addr) : M repr_result :=
  r ← Employee.__repr__ self;
  y ← yearly self;
  mret (ReprStr (repr_str r +:+ ", " +:+ py_str y)).

End Salaried.

Module Hourly.

Definition hourly (self : addr) : M value := getattr self "_hourly".

Definition set_hourly (self : addr) (hourly : value) : M unit :=
  out ← lift (py_or (py_lt hourly (Int 15))
                    (py_gt hourly (Float (PyFloat.literal 9999 2))));
  if (out : bool)
  then raise ValueError "Hourly needs to be between 15 and 99.99."
  else if negb (isinstance hourly t_int || isinstance hourly t_float)
  then raise ValueError "Hourly needs to be either an integer or a float."
  else setattr self "_hourly" hourly.

Definition __init__ (self : addr) (name email hourly : value) : M unit :=
  Employee.__init__ self name email;;
  set_hourly self hourly.

Definition calc_pay (self : addr) : M value :=
  h ← hourly self;
  lift (py_mul h 40).

Definition __repr__ (self : addr) : M repr_result :=
  r ← Employee.__repr__ self;
  h ← hourly self;
  mret (ReprStr (repr_str r +:+ ", " +:+ py_str h)).

End Hourly.

Module Executive.

Definition role (self : addr) : M value := getattr self "_role".

Definition set_role `{Interpreter} (self : addr) (role : value) : M unit :=
  member ← lift (in_Role role);
  if negb member
  then raise InvalidRoleException "Role needs to be a valid role."
  else setattr self "_role" role.

Definition __init__ `{Interpreter} (self : addr)
    (name email salary role : value) : M unit :=
  Salaried.__init__ self name email salary;;
  set_role self role.

Definition __repr__ (self : addr) : M repr_result :=
  r ← Salaried.__repr__ self;
  x ← role self;
  mret (ReprStr (repr_str r +:+ "," +:+ py_str x)).

End Executive.

Module Manager.

Definition department (self : addr) : M value := getattr self "_department".

Definition set_department `{Interpreter} (self : addr) (department : value)
  : M unit :=
  member ← lift (in_Department department);
  if negb member
  then raise InvalidDepartmentException "Department needs to be a valid department."
  else setattr self "_department" department.

Definition __init__ `{Interpreter} (self : addr)
    (name email salary department : value) : M unit :=
  Salaried.__init__ self name email salary;;
  set_department self department.

End Manager.

Module Permanent.

Definition hired_date (self : addr) : M value := getattr self "_hired_date".

Definition set_hired_date (self : addr) (hired_date : value) : M unit :=
  d ← lift (Strptime.strptime (py_str hired_date));
  setattr self "_hired_date" (VDatetime d).

Definition __init__ (self : addr) (name email hourly hired_date : value)
  : M unit :=
  Hourly.__init__ self name email hourly;;
  set_hired_date self hired_date.

Definition __repr__ (self : addr) : M repr_result :=
  r ← Hourly.__repr__ self;
  d ← hired_date self;
  mret (ReprStr (repr_str r +:+ ", " +:+ py_str d)).

End Permanent.

Module Temporary.

Definition last_day (self : addr) : M value := getattr self "_last_day".

Definition set_last_day (self : addr) (last_day : value) : M unit :=
  d ← lift (Strptime.strptime (py_str last_day));
  setattr self "_last_day" (VDatetime d).

Definition __init__ (self : addr) (name email hourly last_day : value)
  : M unit :=
  Hourly.__init__ self name email hourly;;
  set_last_day self last_day.

Definition __repr__ (self : addr) : M repr_result :=
  r ← Hourly.__repr__ self;
  d ← last_day self;
  mret (ReprStr (repr_str r +:+ ", " +:+ py_str d)).

End Temporary.

(** ** Method dispatch *)

Definition own_calc_pay (c : cls) : option (addr → M value) :=
  match c with
  | Employee => Some Employee.calc_pay
  | Salaried => Some Salaried.calc_pay
  | Hourly => Some Hourly.calc_pay
  | Executive | Manager | Permanent | Temporary => None
  end.

Definition own_repr (c : cls) : option (addr → M repr_result) :=
  match c with
  | Employee => Some Employee.__repr__
  | Salaried => Some Salaried.__repr__
  | Hourly => Some Hourly.__repr__
  | Executive => Some Executive.__repr__
  | Manager => None
  | Permanent => Some Permanent.__repr__
  | Temporary => Some Temporary.__repr__
  end.

Definition own_str (c : cls) : option (addr → M string) :=
  match c with
  | Employee => Some Employee.__str__
  | _ => None
  end.

Definition dispatch {T} (own : cls → option (addr → M T)) (self : addr) : M T :=
  c ← class_of self;
  match resolve own c with
  | Some method => method self
  | None => lift (builtin_error AttributeError)
  end.

(** [self.calc_pay()]. *)
Definition calc_pay (self : addr) : M value := dispatch own_calc_pay self.

(** [repr(self)]: the diagnostic form, which has to be a string. *)
Definition repr (self : addr) : M string :=
  r ← dispatch own_repr self;
  match r with
  | ReprStr s => mret s
  | ReprTuple _ => lift (builtin_error TypeError)
  end.

(** [str(self)]: the short display form. *)
Definition str (self : addr) : M string := dispatch own_str self.

(** ** Calls a client can make *)

Inductive ctor :=
| NewSalaried (name email yearly : value)
| NewHourly (name email hourly : value)
| NewExecutive (name email salary role : value)
| NewManager (name email salary department : value)
| NewPermanent (name email hourly hired_date : value)
| NewTemporary (name email hourly last_day : value).

Definition ctor_class (c : ctor) : cls :=
  match c with
  | NewSalaried _ _ _ => Salaried
  | NewHourly _ _ _ => Hourly
  | NewExecutive _ _ _ _ => Executive
  | NewManager _ _ _ _ => Manager
  | NewPermanent _ _ _ _ => Permanent
  | NewTemporary _ _ _ _ => Temporary
  end.

Definition init `{Interpreter} (c : ctor) (self : addr) : M unit :=
  match c with
  | NewSalaried n e y => Salaried.__init__ self n e y
  | NewHourly n e h => Hourly.__init__ self n e h
  | NewExecutive n e y r => Executive.__init__ self n e y r
  | NewManager n e y d => Manager.__init__ self n e y d
  | NewPermanent n e h d => Permanent.__init__ self n e h d
  | NewTemporary n e h d => Temporary.__init__ self n e h d
  end.

Definition construct `{Interpreter} (c : ctor) : M addr :=
  new (ctor_class c) (init c).

(** The properties of the hierarchy. *)
Inductive field :=
| f_name | f_email | f_image | f_id
| f_yearly | f_hourly | f_role | f_department | f_hired_date | f_last_day.

Definition field_name (f : field) : string :=
  match f with
  | f_name => "name" | f_email => "email" | f_image => "image" | f_id => "id"
  | f_yearly => "yearly" | f_hourly => "hourly" | f_role => "role"
  | f_department => "department" | f_hired_date => "hired_date"
  | f_last_day => "last_day"
  end.

(** The class that declares each property. *)
Definition field_owner (f : field) : cls :=
  match f with
  | f_name | f_email | f_image | f_id => Employee
  | f_yearly => Salaried
  | f_hourly => Hourly
  | f_role => Executive
  | f_department => Manager
  | f_hired_date => Permanent
  | f_last_day => Temporary
  end.

Definition setter `{Interpreter} (f : field) (self : addr) (v : value) : M unit :=
  match f with
  | f_name => Employee.set_name self v
  | f_email => Employee.set_email self v
  | f_image => Employee.set_image self v
  | f_id => lift (builtin_error AttributeError)
  | f_yearly => Salaried.set_yearly self v
  | f_hourly => Hourly.set_hourly self v
  | f_role => Executive.set_role self v
  | f_department => Manager.set_department self v
  | f_hired_date => Permanent.set_hired_date self v
  | f_last_day => Temporary.set_last_day self v
  end.

(** [self.f = v]: the property's setter when the class of [self] has the
    property ([id] has none, so the assignment is refused); a plain
    instance attribute otherwise. *)
Definition assign `{Interpreter} (f : field) (self : addr) (v : value) : M unit :=
  c ← class_of self;
  if bool_decide (field_owner f ∈ mro c) then setter f self v
  else setattr self (field_name f) v.

Inductive call :=
| Construct (c : ctor)
| Assign (f : field) (self : addr) (v : value).

(** One call: a constructor hands back the new instance. *)
Definition exec `{Interpreter} (c : call) : M (option addr) :=
  match c with
  | Construct k => self ← construct k; mret (Some self)
  | Assign f self v => assign f self v;; mret None
  end.

(** A client running calls one after the other, going on after a call that
    raised.  The result lists the instances constructed, in order, each with
    what its [id] read when the constructor returned. *)
Fixpoint run `{Interpreter} (cs : list call) (w : world)
  : list (addr * outcome value) * world :=
  match cs with
  | [] => ([], w)
  | c :: cs' =>
      let '(r, w1) := exec c w in
      let '(made, w') := run cs' w1 in
      (match r with
       | Ok (Some self) => (self, fst (Employee.id self w1)) :: made
       | _ => made
       end, w')
  end.

(** ** Vocabulary of the statements *)

(** The attribute [a] of the instance at [self], if both exist. *)
Definition read (self : addr) (a : string) (w : world) : option value :=
  heap w !! self ≫= λ o, ob_dict o !! a.

Definition name_ok (v : value) : bool :=
  match v with VStr s => negb (String.eqb s "") | _ => false end.

Definition email_ok (v : value) : bool :=
  match v with VStr s => contains "@acme-machining.com" s | _ => false end.

(** [str.isspace] on one character (code points up to 255). *)
Definition is_space (c : ascii) : bool :=
  let n := nat_of_ascii c in
  ((9 <=? n) && (n <=? 13) || (28 <=? n) && (n <=? 32) || (n =? 133) || (n =? 160))%nat.

Fixpoint all_space (s : string) : bool :=
  match s with
  | EmptyString => true
  | String c t => is_space c && all_space t
  end.

(** [s.isspace()]: at least one character, and whitespace only. *)
Definition isspace (s : string) : bool :=
  negb (String.eqb s "") && all_space s.

Definition ctor_name (c : ctor) : value :=
  match c with
  | NewSalaried n _ _ | NewHourly n _ _ | NewExecutive n _ _ _
  | NewManager n _ _ _ | NewPermanent n _ _ _ | NewTemporary n _ _ _ => n
  end.

Definition ctor_email (c : ctor) : value :=
  match c with
  | NewSalaried _ e _ | NewHourly _ e _ | NewExecutive _ e _ _
  | NewManager _ e _ _ | NewPermanent _ e _ _ | NewTemporary _ e _ _ => e
  end.

(** The [yearly] or [hourly] argument of a constructor call. *)
Definition ctor_rate (c : ctor) : value :=
  match c with
  | NewSalaried _ _ r | NewHourly _ _ r | NewExecutive _ _ r _
  | NewManager _ _ r _ | NewPermanent _ _ r _ | NewTemporary _ _ r _ => r
  end.

Definition salaried_rooted (c : cls) : bool := bool_decide (Salaried ∈ mro c).

Definition hourly_rooted (c : cls) : bool := bool_decide (Hourly ∈ mro c).

(** The attribute a property keeps its value in. *)
Definition attr (f : field) : string := "_" +:+ field_name f.

(** The world once [Employee.__init__] has gone through on [self]. *)
Definition employee_initialised (self : addr) (n e : value) (w : world) : world :=
  World (CURRENT_ID w + 1)
    (heap (store self "id_number" (VInt (CURRENT_ID w))
          (store self "_image" (VStr IMAGE_PLACEHOLDER)
          (store self "_email" e
          (store self "_name" n w))))).

(** The assignments a constructor makes after [Employee.__init__]. *)
Definition own_fields `{Interpreter} (c : ctor) (self : addr) : M unit :=
  match c with
  | NewSalaried _ _ y => Salaried.set_yearly self y
  | NewHourly _ _ h => Hourly.set_hourly self h
  | NewExecutive _ _ y r => Salaried.set_yearly self y;; Executive.set_role self r
  | NewManager _ _ y d => Salaried.set_yearly self y;; Manager.set_department self d
  | NewPermanent _ _ h d => Hourly.set_hourly self h;; Permanent.set_hired_date self d
  | NewTemporary _ _ h d => Hourly.set_hourly self h;; Temporary.set_last_day self d
  end.

(** [w'] comes from [w] by storing, on [self], attributes of the properties
    that [P] selects. *)
Inductive stores_in (P : field → bool) (self : addr) (w : world) : world → Prop :=
| stores_none : stores_in P self w w
| stores_more (f : field) (v : value) (w' : world) :
    P f = true → stores_in P self w w' →
    stores_in P self w (store self (attr f) v w').

(** The properties the subclasses add. *)
Definition variant_field (f : field) : bool :=
  negb (bool_decide (field_owner f = Employee)).

(** The world right after [object.__new__]. *)
Definition allocated (c : cls) (w : world) : world :=
  World (CURRENT_ID w) (heap w ++ [Object c ∅]).

Definition employee_ok (c : ctor) : bool :=
  name_ok (ctor_name c) && email_ok (ctor_email c).

(** A concrete interpreter and a concrete world, for the examples: one
    hourly employee, at address 0. *)
Definition cpython312 : Interpreter := Py3_12.

Definition bob : ctor :=
  NewHourly (VStr "Bob") (VStr "bob@acme-machining.com") (VInt 20).

Definition office : world := snd (@construct cpython312 bob initial_world).

Definition alice : ctor :=
  NewSalaried (VStr "Alice") (VStr "alice@acme-machining.com")
    (VFloat (PyFloat.of_Z 104000)).

Definition domain : string := "@acme-machining.com".

(** A salaried employee below the minimum salary. *)
Definition underpaid : ctor :=
  NewSalaried (VStr "Carol") (VStr "carol@acme-machining.com")
    (VFloat (PyFloat.of_Z 10)).

Definition dave : ctor :=
  NewManager (VStr "Dave") (VStr "dave@acme-machining.com")
    (VFloat (PyFloat.of_Z 60000)) (VDepartment HR).

(** An executive whose role is the plain integer 0. *)
Definition erin : ctor :=
  NewExecutive (VStr "Erin") (VStr "erin@acme-machining.com")
    (VFloat (PyFloat.of_Z 60000)) (VInt 0).

Definition frank : ctor :=
  NewExecutive (VStr "Frank") (VStr "frank@acme-machining.com")
    (VFloat (PyFloat.of_Z 60000)) (VRole CEO).

Definition dave_world : world := snd (@construct cpython312 dave initial_world).

Definition frank_world : world := snd (@construct cpython312 frank initial_world).

(** The text of a date in the [YYYY-MM-DD] format: four digits of year, two
    of month, two of day. *)
Definition digit_char (n : Z) : ascii := ascii_of_nat (48 + Z.to_nat n).

Definition two_digits (n : Z) : string :=
  String (digit_char (n / 10)) (String (digit_char (n mod 10)) "").

Definition four_digits (n : Z) : string :=
  String (digit_char (n / 1000))
    (String (digit_char (n / 100 mod 10))
       (String (digit_char (n / 10 mod 10))
          (String (digit_char (n mod 10)) ""))).

Definition iso_date (y m d : Z) : string :=
  four_digits y +:+ "-" +:+ two_digits m +:+ "-" +:+ two_digits d.

(** The format as the specification names it, [YYYY-MM-DD]: four digits, a
    hyphen, two digits, a hyphen, two digits, and nothing else. *)
Definition is_digit (c : ascii) : bool :=
  ((48 <=? nat_of_ascii c) && (nat_of_ascii c <=? 57))%nat.

Definition yyyy_mm_dd (s : string) : bool :=
  match list_ascii_of_string s with
  | [y1; y2; y3; y4; h1; m1; m2; h2; d1; d2] =>
      forallb is_digit [y1; y2; y3; y4; m1; m2; d1; d2]
      && Ascii.eqb h1 "-" && Ascii.eqb h2 "-"
  | _ => false
  end.

(** The texts of a date, in words: the year in four digits; the month in
    two digits, or in one when it is below ten; the day in two digits, or
    when it is below ten in one digit or in a space and one digit; hyphens
    in between and nothing else. *)
Definition one_digit (n : Z) : string := String (digit_char n) "".

Definition year_text (y : Z) (s : string) : Prop :=
  0 ≤ y ≤ 9999 ∧ s = four_digits y.

Definition month_text (m : Z) (s : string) : Prop :=
  1 ≤ m ≤ 12 ∧ (s = two_digits m ∨ (m ≤ 9 ∧ s = one_digit m)).

Definition day_text (d : Z) (s : string) : Prop :=
  1 ≤ d ≤ 31
  ∧ (s = two_digits d
     ∨ (d ≤ 9 ∧ (s = one_digit d ∨ s = " " +:+ one_digit d))).

Definition date_text (y m d : Z) (s : string) : Prop :=
  ∃ ys ms ds, year_text y ys ∧ month_text m ms ∧ day_text d ds
              ∧ s = ys +:+ "-" +:+ ms +:+ "-" +:+ ds.

(** The dates of the calendar, years 1 to 9999: a year is a leap year when
    it is a multiple of 400, or a multiple of 4 and not of 100. *)
Definition leap_year (y : Z) : bool :=
  if y mod 400 =? 0 then true
  else if y mod 100 =? 0 then false
  else y mod 4 =? 0.

Definition month_lengths (y : Z) : list Z :=
  [31; if leap_year y then 29 else 28; 31; 30; 31; 30; 31; 31; 30; 31; 30; 31].

Definition calendar_date (y m d : Z) : Prop :=
  1 ≤ y ≤ 9999 ∧ 1 ≤ m ≤ 12
  ∧ 1 ≤ d ≤ nth (Z.to_nat (m - 1)) (month_lengths y) 0.

Definition gwen (hired : value) : ctor :=
  NewPermanent (VStr "Gwen") (VStr "gwen@acme-machining.com") (VInt 20) hired.

(** A world with one Permanent, at address 0. *)
Definition gwen_world : world :=
  snd (@construct cpython312 (gwen (VStr "2020-01-15")) initial_world).

(** What the interpreter raises on an unsupported operand. *)
Definition type_error : exn := Exception TypeError None.

Definition invalid_role : exn :=
  Exception InvalidRoleException (Some "Role needs to be a valid role.").

Definition invalid_department : exn :=
  Exception InvalidDepartmentException
    (Some "Department needs to be a valid department.").

(** A session: two constructions that go through, one that does not and one
    assignment in between, then a third construction. *)
Definition session : list call :=
  [Construct bob; Construct underpaid; Assign f_name 0%nat (VStr "Robert");
   Construct alice; Construct dave].

(** ** Vocabulary of the further properties *)

(** The getter function of each property, as the class that declares the
    property defines it: what [self.f] evaluates when the class of [self]
    has the property [f].  On an instance whose class lacks the property,
    [self.f] is a plain attribute lookup instead, which [attribute] below
    describes and this function does not. *)
Definition getter (f : field) (self : addr) : M value :=
  match f with
  | f_name => Employee.name self
  | f_email => Employee.email self
  | f_image => Employee.image self
  | f_id => Employee.id self
  | f_yearly => Salaried.yearly self
  | f_hourly => Hourly.hourly self
  | f_role => Executive.role self
  | f_department => Manager.department self
  | f_hired_date => Permanent.hired_date self
  | f_last_day => Temporary.last_day self
  end.

(** [self.f], read: the getter of the property when the class of [self]
    has it, the plain instance attribute of that name otherwise (the
    counterpart of [assign]). *)
Definition attribute (f : field) (self : addr) : M value :=
  c ← class_of self;
  if bool_decide (field_owner f ∈ mro c) then getter f self
  else getattr self (field_name f).

(** The attribute the getter of a property reads. *)
Definition slot (f : field) : string :=
  match f with f_id => "id_number" | _ => attr f end.

(** What a setter does to a value, world aside: accept it or raise. *)
Definition validate `{Interpreter} (f : field) (v : value) : outcome unit :=
  fst (setter f 0%nat v initial_world).

(** What a setter stores for an accepted value: the value, or the parsed
    date. *)
Definition normalise (f : field) (v : value) : value :=
  match f with
  | f_hired_date | f_last_day =>
      match Strptime.strptime (py_str v) with
      | Ok d => VDatetime d
      | Raise _ => v
      end
  | _ => v
  end.

(** The validations a constructor runs, in the order it runs them. *)
Definition checks (c : ctor) : list (field * value) :=
  match c with
  | NewSalaried n e y => [(f_name, n); (f_email, e); (f_yearly, y)]
  | NewHourly n e h => [(f_name, n); (f_email, e); (f_hourly, h)]
  | NewExecutive n e y r =>
      [(f_name, n); (f_email, e); (f_yearly, y); (f_role, r)]
  | NewManager n e y d =>
      [(f_name, n); (f_email, e); (f_yearly, y); (f_department, d)]
  | NewPermanent n e h d =>
      [(f_name, n); (f_email, e); (f_hourly, h); (f_hired_date, d)]
  | NewTemporary n e h d =>
      [(f_name, n); (f_email, e); (f_hourly, h); (f_last_day, d)]
  end.

(** The first validation that raises, if any. *)
Fixpoint first_error `{Interpreter} (l : list (field * value)) : outcome unit :=
  match l with
  | [] => Ok tt
  | (f, v) :: l' => validate f v ≫= λ _, first_error l'
  end.

(** A date as [strptime] builds it: a calendar date, at midnight. *)
Definition midnight (d : datetime) : bool :=
  Strptime.valid_date (dt_year d) (dt_month d) (dt_day d)
  && (dt_hour d =? 0) && (dt_minute d =? 0) && (dt_second d =? 0).

(** What the setter of each property lets through, and [__init__] gives as
    identity. *)
Definition field_valid `{Interpreter} (f : field) (v : value) : bool :=
  match f with
  | f_name | f_image => name_ok v
  | f_email => email_ok v
  | f_id => match v with VInt i => 1 <=? i | _ => false end
  | f_yearly =>
      match v with
      | VFloat x =>
          match PyFloat.compare_Z x 50000 with Some Lt => false | _ => true end
      | _ => false
      end
  | f_hourly =>
      match v with
      | VInt n => (15 <=? n) && (n <=? 99)
      | VFloat x =>
          match PyFloat.compare_Z x 15 with
          | Some Lt => false
          | _ =>
              match SFcompare x (PyFloat.literal 9999 2) with
              | Some Gt => false
              | _ => true
              end
          end
      | _ => false
      end
  | f_role => match in_Role v with Ok true => true | _ => false end
  | f_department => match in_Department v with Ok true => true | _ => false end
  | f_hired_date | f_last_day =>
      match v with VDatetime d => midnight d | _ => false end
  end.

(** Every attribute a getter reads, when it is there, holds a value its
    setter lets through; the counter is at least 1. *)
Definition well_typed `{Interpreter} (w : world) : Prop :=
  1 ≤ CURRENT_ID w
  ∧ ∀ a o f v, heap w !! a = Some o → ob_dict o !! slot f = Some v →
      field_valid f v = true.

(** The constructions of a session that get as far as taking an identity:
    those whose name and email pass. *)
Fixpoint ids_taken (cs : list call) : Z :=
  match cs with
  | [] => 0
  | Construct k :: cs' => (if employee_ok k then 1 else 0) + ids_taken cs'
  | Assign _ _ _ :: cs' => ids_taken cs'
  end.

Definition same_field (f g : field) : bool :=
  match f, g with
  | f_name, f_name | f_email, f_email | f_image, f_image | f_id, f_id
  | f_yearly, f_yearly | f_hourly, f_hourly | f_role, f_role
  | f_department, f_department | f_hired_date, f_hired_date
  | f_last_day, f_last_day => true
  | _, _ => false
  end.

(** The value supplied for a property, in a list of validations. *)
Fixpoint supplied (g : field) (l : list (field * value)) : option value :=
  match l with
  | [] => None
  | (f, v) :: l' => if same_field f g then Some v else supplied g l'
  end.

(** What each getter finds on a new instance: the placeholder image, the
    identity taken from the counter, the supplied values (dates parsed), and
    nothing for the properties of other variants. *)
Definition fresh_read (c : ctor) (counter : Z) (g : field) : option value :=
  match g with
  | f_image => Some (VStr IMAGE_PLACEHOLDER)
  | f_id => Some (VInt counter)
  | _ => normalise g <$> supplied g (checks c)
  end.

(** The diagnostic form of a new instance. *)
Definition diagnostic (c : ctor) : string :=
  let base :=
    tuple3_str (ctor_name c, ctor_email c, VStr IMAGE_PLACEHOLDER)
    +:+ ", " +:+ py_str (ctor_rate c) in
  match c with
  | NewExecutive _ _ _ r => base +:+ "," +:+ py_str r
  | NewPermanent _ _ _ d => base +:+ ", " +:+ py_str (normalise f_hired_date d)
  | NewTemporary _ _ _ d => base +:+ ", " +:+ py_str (normalise f_last_day d)
  | NewSalaried _ _ _ | NewHourly _ _ _ | NewManager _ _ _ _ => base
  end.

(** The most characters a regular expression can take. *)
Fixpoint max_length (r : Strptime.regex) : nat :=
  match r with
  | Strptime.Chr _ | Strptime.Range _ _ => 1
  | Strptime.Cat r1 r2 => max_length r1 + max_length r2
  | Strptime.Alt r1 r2 => Nat.max (max_length r1) (max_length r2)
  | Strptime.Group _ r1 => max_length r1
  end.

Definition value_error : exn := Exception ValueError None.

Definition value_error_with (msg : string) : exn :=
  Exception ValueError (Some msg).

Definition yearly_range_message : string :=
  "Yearly cannot be less than zero or less than 50000.".

Definition hourly_range_message : string :=
  "Hourly needs to be between 15 and 99.99.".

(** The range tests of the two numeric setters, on a float. *)
Definition float_below (x : spec_float) (k : Z) : bool :=
  match PyFloat.compare_Z x k with Some Lt => true | _ => false end.

Definition float_above_maximum (x : spec_float) : bool :=
  match SFcompare x (PyFloat.literal 9999 2) with Some Gt => true | _ => false end.

(** Two worlds in which the instance at [a] has the same class and every
    attribute behind a property of it reads the same. *)
Definition same_instance (a : addr) (w w' : world) : Prop :=
  ob_class <$> heap w' !! a = ob_class <$> heap w !! a
  ∧ ∀ g, read a (slot g) w' = read a (slot g) w.

(** Identities follow the order of allocation and stay below the counter. *)
Definition ids_ordered (w : world) : Prop :=
  (∀ a i, read a "id_number" w = Some (VInt i) → i < CURRENT_ID w)
  ∧ (∀ a b i j, (a < b)%nat →
       read a "id_number" w = Some (VInt i) →
       read b "id_number" w = Some (VInt j) → i < j).

(** A text without a colon. *)
Fixpoint colon_free (s : string) : bool :=
  match s with
  | EmptyString => true
  | String c s' => negb (Ascii.eqb c ":") && colon_free s'
  end.

(** A call that assigns to an attribute of the instance at [a]. *)
Definition assigns_to (a : addr) (c : call) : bool :=
  match c with
  | Assign _ self _ => bool_decide (self = a)
  | Construct _ => false
  end.

(** * Properties *)

(** ** The monad *)

Lemma bind_ok_inv {A B} (m : M A) (k : A → M B) (w w' : world) (b : B) :
  (m ≫= k) w = (Ok b, w') →
  ∃ a w1, m w = (Ok a, w1) ∧ k a w1 = (Ok b, w').
Proof.
  unfold mbind, M_bind. destruct (m w) as [[a|e] w1]; intros E.
  - eauto.
  - discriminate.
Qed.

Lemma bind_raise_inv {A B} (m : M A) (k : A → M B) (w w' : world) (e : exn) :
  (m ≫= k) w = (Raise e, w') →
  m w = (Raise e, w') ∨ ∃ a w1, m w = (Ok a, w1) ∧ k a w1 = (Raise e, w').
Proof.
  unfold mbind, M_bind. destruct (m w) as [[a|e0] w1]; intros E.
  - right. eauto.
  - left. injection E as -> ->. reflexivity.
Qed.

Lemma bind_step_ok {A B} (m : M A) (k : A → M B) (w w1 : world) (a : A) :
  m w = (Ok a, w1) → (m ≫= k) w = k a w1.
Proof. unfold mbind, M_bind. intros ->. reflexivity. Qed.

Lemma bind_step_raise {A B} (m : M A) (k : A → M B) (w w1 : world) (e : exn) :
  m w = (Raise e, w1) → (m ≫= k) w = (Raise e, w1).
Proof. unfold mbind, M_bind. intros ->. reflexivity. Qed.

(** ** Reading and storing attributes *)

Lemma getattr_read (self : addr) (a : string) (w : world) :
  getattr self a w =
  (match read self a w with
   | Some v => Ok v
   | None => builtin_error AttributeError
   end, w).
Proof. unfold getattr, read. destruct (heap w !! self ≫= _); reflexivity. Qed.

Lemma store_CURRENT_ID (self : addr) (a : string) (v : value) (w : world) :
  CURRENT_ID (store self a v w) = CURRENT_ID w.
Proof. reflexivity. Qed.

Lemma store_length (self : addr) (a : string) (v : value) (w : world) :
  length (heap (store self a v w)) = length (heap w).
Proof. unfold store. simpl. apply length_alter. Qed.

Lemma read_store_eq (self : addr) (a : string) (v : value) (w : world) :
  (self < length (heap w))%nat → read self a (store self a v w) = Some v.
Proof.
  intros Hlt. unfold read, store. simpl. rewrite list_lookup_alter_eq.
  destruct (lookup_lt_is_Some_2 _ _ Hlt) as [o ->]. cbn.
  apply lookup_insert_eq.
Qed.

Lemma read_store_ne (self self' : addr) (a b : string) (v : value) (w : world) :
  self ≠ self' ∨ a ≠ b → read self a (store self' b v w) = read self a w.
Proof.
  intros Hne. unfold read, store. simpl.
  destruct (decide (self' = self)) as [->|Hs].
  - rewrite list_lookup_alter_eq. destruct (heap w !! self) as [o|]; cbn.
    + apply lookup_insert_ne. destruct Hne; congruence.
    + reflexivity.
  - rewrite list_lookup_alter_ne by done. reflexivity.
Qed.

Lemma class_store (self self' : addr) (a : string) (v : value) (w : world) :
  ob_class <$> heap (store self' a v w) !! self = ob_class <$> heap w !! self.
Proof.
  unfold store. simpl. destruct (decide (self' = self)) as [->|Hs].
  - rewrite list_lookup_alter_eq. destruct (heap w !! self); reflexivity.
  - rewrite list_lookup_alter_ne by done. reflexivity.
Qed.

Lemma store_other (self self' : addr) (a : string) (v : value) (w : world) :
  self ≠ self' → heap (store self' a v w) !! self = heap w !! self.
Proof. intros Hne. unfold store. simpl. apply list_lookup_alter_ne. done. Qed.

(** ** The setters: validation first, then one store *)

Ltac unfold_setters :=
  unfold Employee.set_name, Employee.set_email, Employee.set_image,
    Salaried.set_yearly, Hourly.set_hourly, Executive.set_role,
    Manager.set_department, Permanent.set_hired_date, Temporary.set_last_day,
    mbind, M_bind, lift, raise, setattr.

(** Every setter either raises and leaves the world as it was, or performs
    exactly one store, on [self], into the attribute of its property. *)
Lemma setter_cases `{Interpreter} (f : field) (self : addr) (v : value) (w : world) :
  (∃ e, setter f self v w = (Raise e, w)) ∨
  (∃ v', setter f self v w = (Ok tt, store self (attr f) v' w)).
Proof.
  destruct f; unfold setter; unfold_setters;
    repeat case_match; simplify_eq; eauto.
Qed.

Lemma attr_not_id (f : field) : attr f ≠ "id_number".
Proof. destruct f; discriminate. Qed.

Lemma set_name_ok (self : addr) (v : value) (w : world) :
  name_ok v = true →
  Employee.set_name self v w = (Ok tt, store self "_name" v w).
Proof.
  destruct v; try discriminate. unfold_setters. cbn. intros E.
  destruct (String.eqb s ""); [discriminate|reflexivity].
Qed.

Lemma set_name_err (self : addr) (v : value) (w : world) :
  name_ok v = false →
  ∃ msg, Employee.set_name self v w = (Raise (Exception ValueError (Some msg)), w).
Proof.
  intros E. destruct v as [ |b|n|f|s|r|d|d]; unfold_setters; cbn in *;
    try (eexists; reflexivity).
  destruct (String.eqb s ""); [eexists; reflexivity|discriminate].
Qed.

Lemma set_image_ok (self : addr) (v : value) (w : world) :
  name_ok v = true →
  Employee.set_image self v w = (Ok tt, store self "_image" v w).
Proof.
  destruct v; try discriminate. unfold_setters. cbn. intros E.
  destruct (String.eqb s ""); [discriminate|reflexivity].
Qed.

Lemma set_image_err (self : addr) (v : value) (w : world) :
  name_ok v = false →
  ∃ msg, Employee.set_image self v w = (Raise (Exception ValueError (Some msg)), w).
Proof.
  intros E. destruct v as [ |b|n|f|s|r|d|d]; unfold_setters; cbn in *;
    try (eexists; reflexivity).
  destruct (String.eqb s ""); [eexists; reflexivity|discriminate].
Qed.

(** ** Substrings *)

Lemma prefix_app (sub s : string) :
  String.prefix sub s = true ↔ ∃ post, s = sub +:+ post.
Proof.
  revert s. induction sub as [|a sub IH]; intros s.
  - split; [intros _; exists s; reflexivity|]. intros _. destruct s; reflexivity.
  - destruct s as [|b s]; simpl.
    + split; [discriminate|]. intros [post E]. discriminate.
    + destruct (Ascii.ascii_dec a b) as [->|Hne].
      * rewrite IH. split; intros [post E]; exists post.
        -- rewrite E. reflexivity.
        -- injection E as ->. reflexivity.
      * split; [discriminate|]. intros [post E]. injection E as -> _. done.
Qed.

(** [contains] decides the substring relation. *)
Lemma contains_spec (sub s : string) :
  contains sub s = true ↔ ∃ pre post, s = pre +:+ sub +:+ post.
Proof.
  induction s as [|c s IH]; cbn [contains].
  - rewrite orb_false_r, prefix_app. split.
    + intros [post E]. exists "", post. exact E.
    + intros [pre [post E]]. destruct pre; [exists post; exact E|discriminate].
  - rewrite orb_true_iff, prefix_app, IH. split.
    + intros [[post E]|[pre [post E]]].
      * exists "", post. exact E.
      * exists (String c pre), post. rewrite E. reflexivity.
    + intros [pre [post E]]. destruct pre as [|c' pre].
      * left. exists post. exact E.
      * right. injection E as -> E. eauto.
Qed.

Lemma contains_nonempty (sub s : string) :
  sub ≠ "" → contains sub s = true → s ≠ "".
Proof.
  intros Hsub Hc ->. cbn [contains] in Hc. rewrite orb_false_r in Hc.
  destruct sub; [done|discriminate].
Qed.

Lemma set_email_ok (self : addr) (v : value) (w : world) :
  email_ok v = true →
  Employee.set_email self v w = (Ok tt, store self "_email" v w).
Proof.
  destruct v; try discriminate. cbn. intros E.
  assert (Hs : String.eqb s "" = false).
  { apply String.eqb_neq. eapply contains_nonempty; [|exact E]. discriminate. }
  unfold_setters. cbn. rewrite Hs. cbn. rewrite E. reflexivity.
Qed.

Lemma set_email_err (self : addr) (v : value) (w : world) :
  email_ok v = false →
  ∃ msg, Employee.set_email self v w = (Raise (Exception ValueError (Some msg)), w).
Proof.
  intros E. destruct v as [ |b|n|f|s|r|d|d]; unfold_setters; cbn in *;
    try (eexists; reflexivity).
  destruct (String.eqb s ""); cbn; [eexists; reflexivity|].
  rewrite E. eexists; reflexivity.
Qed.

(** ** [Employee.__init__] *)

Lemma Employee_init_ok (self : addr) (n e : value) (w : world) :
  name_ok n = true → email_ok e = true →
  Employee.__init__ self n e w = (Ok tt, employee_initialised self n e w).
Proof.
  intros Hn He. unfold Employee.__init__.
  rewrite (bind_step_ok _ _ _ _ _ (set_name_ok self n w Hn)).
  rewrite (bind_step_ok _ _ _ _ _ (set_email_ok self e _ He)).
  rewrite (bind_step_ok _ _ _ _ _
             (set_image_ok self (VStr IMAGE_PLACEHOLDER) _ eq_refl)).
  reflexivity.
Qed.

Lemma Employee_init_bad_name (self : addr) (n e : value) (w : world) :
  name_ok n = false →
  ∃ msg, Employee.__init__ self n e w = (Raise (Exception ValueError (Some msg)), w).
Proof.
  intros Hn. destruct (set_name_err self n w Hn) as [msg E]. exists msg.
  unfold Employee.__init__. apply bind_step_raise, E.
Qed.

Lemma Employee_init_bad_email (self : addr) (n e : value) (w : world) :
  name_ok n = true → email_ok e = false →
  ∃ msg, Employee.__init__ self n e w =
         (Raise (Exception ValueError (Some msg)), store self "_name" n w).
Proof.
  intros Hn He. destruct (set_email_err self e (store self "_name" n w) He) as [msg E].
  exists msg. unfold Employee.__init__.
  rewrite (bind_step_ok _ _ _ _ _ (set_name_ok self n w Hn)).
  apply bind_step_raise, E.
Qed.

(** Every constructor is [Employee.__init__] followed by its own fields. *)
Lemma init_unfold `{Interpreter} (c : ctor) (self : addr) (w : world) :
  init c self w =
  (Employee.__init__ self (ctor_name c) (ctor_email c) ≫= λ _, own_fields c self) w.
Proof.
  destruct c; cbn [init own_fields ctor_name ctor_email];
    unfold Salaried.__init__, Hourly.__init__, Executive.__init__,
      Manager.__init__, Permanent.__init__, Temporary.__init__,
      Salaried.__init__, Hourly.__init__;
    unfold mbind, M_bind;
    repeat match goal with
      | |- context [match ?m ?x with _ => _ end] =>
          match type of (m x) with
          | (outcome _ * world)%type => destruct (m x) as [[?|?] ?]
          end
      end; reflexivity.
Qed.

(** ** What a chain of property stores leaves alone *)

Section Stores.
Variables (P : field → bool) (self : addr).

Lemma stores_trans (w1 w2 w3 : world) :
  stores_in P self w1 w2 → stores_in P self w2 w3 → stores_in P self w1 w3.
Proof.
  intros H12 H23. induction H23; [exact H12|]. constructor; assumption.
Qed.

Lemma stores_counter (w w' : world) :
  stores_in P self w w' → CURRENT_ID w' = CURRENT_ID w.
Proof. induction 1; [reflexivity|]. rewrite store_CURRENT_ID. assumption. Qed.

Lemma stores_length (w w' : world) :
  stores_in P self w w' → length (heap w') = length (heap w).
Proof. induction 1; [reflexivity|]. rewrite store_length. assumption. Qed.

Lemma stores_other (a : addr) (w w' : world) :
  stores_in P self w w' → a ≠ self → heap w' !! a = heap w !! a.
Proof.
  intros Hs Hne. induction Hs; [reflexivity|].
  rewrite store_other by exact Hne. assumption.
Qed.

Lemma stores_class (a : addr) (w w' : world) :
  stores_in P self w w' → ob_class <$> heap w' !! a = ob_class <$> heap w !! a.
Proof. induction 1; [reflexivity|]. rewrite class_store. assumption. Qed.

Lemma stores_read (s : addr) (a : string) (w w' : world) :
  stores_in P self w w' → (∀ f, P f = true → attr f ≠ a) →
  read s a w' = read s a w.
Proof.
  intros Hs Ha. induction Hs as [|f v w' Hf Hs IH]; [reflexivity|].
  rewrite read_store_ne; [assumption|]. right. intros E.
  eapply Ha; [exact Hf|]. symmetry. exact E.
Qed.

Lemma stores_id (s : addr) (w w' : world) :
  stores_in P self w w' → read s "id_number" w' = read s "id_number" w.
Proof. intros Hs. eapply stores_read; [exact Hs|]. intros f _. apply attr_not_id. Qed.

Lemma setter_stores `{Interpreter} (f : field) (v : value) (w w' : world)
    (r : outcome unit) :
  P f = true → setter f self v w = (r, w') → stores_in P self w w'.
Proof.
  intros Hf E. destruct (setter_cases f self v w) as [[e E']|[v' E']];
    rewrite E' in E; injection E as <- <-.
  - constructor.
  - constructor; [exact Hf|constructor].
Qed.

End Stores.

Lemma own_fields_stores `{Interpreter} (c : ctor) (self : addr)
    (w w' : world) (r : outcome unit) :
  own_fields c self w = (r, w') → stores_in variant_field self w w'.
Proof.
  assert (Two : ∀ f g v u, variant_field f = true → variant_field g = true →
    (setter f self v ≫= λ _, setter g self u) w = (r, w') →
    stores_in variant_field self w w').
  { intros f g v u Hf Hg E. unfold mbind, M_bind in E.
    destruct (setter f self v w) as [[[]|e] w1] eqn:E1.
    - eapply stores_trans.
      + eapply (setter_stores _ _ f); [exact Hf|exact E1].
      + eapply (setter_stores _ _ g); [exact Hg|exact E].
    - injection E as <- <-. eapply (setter_stores _ _ f); [exact Hf|exact E1]. }
  destruct c; cbn [own_fields].
  - apply (setter_stores _ _ f_yearly). reflexivity.
  - apply (setter_stores _ _ f_hourly). reflexivity.
  - apply (Two f_yearly f_role); reflexivity.
  - apply (Two f_yearly f_department); reflexivity.
  - apply (Two f_hourly f_hired_date); reflexivity.
  - apply (Two f_hourly f_last_day); reflexivity.
Qed.

Lemma variant_attr (f : field) (a : string) :
  a ∈ ["_name"; "_email"; "_image"; "id_number"] →
  variant_field f = true → attr f ≠ a.
Proof.
  intros Ha Hf. rewrite !elem_of_cons, elem_of_nil in Ha.
  destruct Ha as [->|[->|[->|[->|[]]]]]; destruct f;
    first [discriminate Hf|discriminate].
Qed.

(** ** Constructors *)

Lemma construct_unfold `{Interpreter} (c : ctor) (w : world) :
  construct c w =
  match init c (length (heap w)) (allocated (ctor_class c) w) with
  | (Ok _, w') => (Ok (length (heap w)), w')
  | (Raise e, w') => (Raise e, w')
  end.
Proof. reflexivity. Qed.

Section Construct.
Context `{Interpreter}.
Variables (c : ctor) (w : world).

Let self := length (heap w).
Let w0 := allocated (ctor_class c) w.

Lemma construct_bad_name :
  name_ok (ctor_name c) = false →
  ∃ msg, construct c w = (Raise (Exception ValueError (Some msg)), w0).
Proof.
  intros Hn.
  destruct (Employee_init_bad_name self _ (ctor_email c) w0 Hn) as [msg E].
  exists msg. rewrite construct_unfold, init_unfold.
  fold self w0. rewrite (bind_step_raise _ _ _ _ _ E). reflexivity.
Qed.

Lemma construct_bad_email :
  name_ok (ctor_name c) = true → email_ok (ctor_email c) = false →
  ∃ msg, construct c w =
         (Raise (Exception ValueError (Some msg)),
          store self "_name" (ctor_name c) w0).
Proof.
  intros Hn He.
  destruct (Employee_init_bad_email self _ _ w0 Hn He) as [msg E].
  exists msg. rewrite construct_unfold, init_unfold.
  fold self w0. rewrite (bind_step_raise _ _ _ _ _ E). reflexivity.
Qed.

Lemma construct_fields :
  employee_ok c = true →
  construct c w =
  match own_fields c self
          (employee_initialised self (ctor_name c) (ctor_email c) w0) with
  | (Ok _, w') => (Ok self, w')
  | (Raise e, w') => (Raise e, w')
  end.
Proof.
  unfold employee_ok. rewrite andb_true_iff. intros [Hn He].
  rewrite construct_unfold, init_unfold. fold self w0.
  rewrite (bind_step_ok _ _ _ _ _ (Employee_init_ok self _ _ w0 Hn He)).
  destruct (own_fields c self _) as [[[]|e] w']; reflexivity.
Qed.

End Construct.

Lemma allocated_old (c : cls) (w : world) (a : addr) (o : object) :
  heap w !! a = Some o → heap (allocated c w) !! a = Some o.
Proof. intros E. unfold allocated. cbn. apply lookup_app_l_Some, E. Qed.

Lemma allocated_new (c : cls) (w : world) :
  heap (allocated c w) !! length (heap w) = Some (Object c ∅).
Proof. unfold allocated. cbn. apply list_lookup_middle. reflexivity. Qed.

Lemma allocated_length (c : cls) (w : world) :
  length (heap (allocated c w)) = S (length (heap w)).
Proof. unfold allocated. cbn. rewrite length_app. cbn. lia. Qed.

Lemma read_counter (self : addr) (a : string) (n : Z) (w : world) :
  read self a (World n (heap w)) = read self a w.
Proof. reflexivity. Qed.

Section EmployeeInitialised.
Variables (self : addr) (n e : value) (w : world).

Let w' := employee_initialised self n e w.

Lemma employee_initialised_length : length (heap w') = length (heap w).
Proof. unfold w', employee_initialised. cbn [heap]. rewrite !store_length. reflexivity. Qed.

Lemma employee_initialised_other (a : addr) :
  a ≠ self → heap w' !! a = heap w !! a.
Proof.
  intros Hne. unfold w', employee_initialised. cbn [heap].
  rewrite !store_other by exact Hne. reflexivity.
Qed.

Lemma employee_initialised_class (a : addr) :
  ob_class <$> heap w' !! a = ob_class <$> heap w !! a.
Proof.
  unfold w', employee_initialised. cbn [heap]. rewrite !class_store. reflexivity.
Qed.

Hypothesis exists_self : (self < length (heap w))%nat.

Lemma employee_initialised_id :
  read self "id_number" w' = Some (VInt (CURRENT_ID w)).
Proof.
  unfold w', employee_initialised.
  rewrite read_counter.
  apply read_store_eq. rewrite !store_length. exact exists_self.
Qed.

Lemma employee_initialised_image :
  read self "_image" w' = Some (VStr IMAGE_PLACEHOLDER).
Proof.
  unfold w', employee_initialised.
  rewrite read_counter.
  rewrite read_store_ne by (right; discriminate).
  apply read_store_eq. rewrite !store_length. exact exists_self.
Qed.

Lemma employee_initialised_email : read self "_email" w' = Some e.
Proof.
  unfold w', employee_initialised.
  rewrite read_counter.
  rewrite !read_store_ne by (right; discriminate).
  apply read_store_eq. rewrite !store_length. exact exists_self.
Qed.

Lemma employee_initialised_name : read self "_name" w' = Some n.
Proof.
  unfold w', employee_initialised.
  rewrite read_counter.
  rewrite !read_store_ne by (right; discriminate).
  apply read_store_eq. exact exists_self.
Qed.

End EmployeeInitialised.

(** What any constructor call, failed or not, does to the world: the older
    instances stay as they are, one instance is added, and the counter
    advances exactly when [Employee.__init__] went through. *)
Lemma construct_frame `{Interpreter} (c : ctor) (w w' : world) (r : outcome addr) :
  construct c w = (r, w') →
  (∀ a o, heap w !! a = Some o → heap w' !! a = Some o)
  ∧ length (heap w') = S (length (heap w))
  ∧ CURRENT_ID w' = (if employee_ok c then CURRENT_ID w + 1 else CURRENT_ID w)
  ∧ (employee_ok c = false → is_ok r = false).
Proof.
  intros E. unfold employee_ok.
  assert (Hold : ∀ a o, heap w !! a = Some o → a ≠ length (heap w)).
  { intros a o Ha ->. apply lookup_lt_Some in Ha. lia. }
  destruct (name_ok (ctor_name c)) eqn:Hn; [destruct (email_ok (ctor_email c)) eqn:He|]; cbn [andb].
  - rewrite construct_fields in E by (unfold employee_ok; rewrite Hn, He; reflexivity).
    destruct (own_fields c _ _) as [r0 w1] eqn:E1.
    apply own_fields_stores in E1.
    assert (w' = w1 ∧ is_ok r = is_ok r0) as [-> _].
    { destruct r0; injection E as <- <-; done. }
    split; [|split; [|split]].
    + intros a o Ha.
      rewrite (stores_other _ _ _ _ _ E1) by (eapply Hold; exact Ha).
      rewrite employee_initialised_other by (eapply Hold; exact Ha).
      apply allocated_old, Ha.
    + rewrite (stores_length _ _ _ _ E1), employee_initialised_length.
      apply allocated_length.
    + rewrite (stores_counter _ _ _ _ E1). reflexivity.
    + discriminate.
  - destruct (construct_bad_email c w Hn He) as [msg E'].
    rewrite E' in E. injection E as <- <-.
    split; [|split; [|split]]; [| |reflexivity|reflexivity].
    + intros a o Ha. rewrite store_other by (eapply Hold; exact Ha).
      apply allocated_old, Ha.
    + rewrite store_length. apply allocated_length.
  - destruct (construct_bad_name c w Hn) as [msg E'].
    rewrite E' in E. injection E as <- <-.
    split; [|split; [|split]]; [| |reflexivity|reflexivity].
    + intros a o Ha. apply allocated_old, Ha.
    + apply allocated_length.
Qed.

(** What a constructor call that returns has established. *)
Lemma construct_ok `{Interpreter} (c : ctor) (w w' : world) (self : addr) :
  construct c w = (Ok self, w') →
  self = length (heap w)
  ∧ employee_ok c = true
  ∧ own_fields c self
      (employee_initialised self (ctor_name c) (ctor_email c)
         (allocated (ctor_class c) w)) = (Ok tt, w')
  ∧ read self "id_number" w' = Some (VInt (CURRENT_ID w))
  ∧ read self "_name" w' = Some (ctor_name c)
  ∧ read self "_email" w' = Some (ctor_email c)
  ∧ read self "_image" w' = Some (VStr IMAGE_PLACEHOLDER)
  ∧ ob_class <$> heap w' !! self = Some (ctor_class c).
Proof.
  intros E.
  assert (Hok : employee_ok c = true).
  { destruct (employee_ok c) eqn:Hc; [reflexivity|].
    destruct (construct_frame c w w' _ E) as (_ & _ & _ & Hf).
    specialize (Hf Hc). discriminate. }
  rewrite construct_fields in E by exact Hok.
  destruct (own_fields c _ _) as [[[]|e] w1] eqn:E1; [|discriminate].
  injection E as <- <-.
  pose proof (own_fields_stores _ _ _ _ _ E1) as Hs.
  assert (Hlt : (length (heap w) < length (heap (allocated (ctor_class c) w)))%nat).
  { rewrite allocated_length. lia. }
  split; [reflexivity|]. split; [exact Hok|]. split; [exact E1|].
  split; [|split; [|split; [|split]]].
  - rewrite (stores_id _ _ _ _ _ Hs).
    rewrite employee_initialised_id by exact Hlt. reflexivity.
  - rewrite (stores_read _ _ _ _ _ _ Hs)
      by (intros f; apply variant_attr; repeat constructor).
    apply employee_initialised_name, Hlt.
  - rewrite (stores_read _ _ _ _ _ _ Hs)
      by (intros f; apply variant_attr; repeat constructor).
    apply employee_initialised_email, Hlt.
  - rewrite (stores_read _ _ _ _ _ _ Hs)
      by (intros f; apply variant_attr; repeat constructor).
    apply employee_initialised_image, Hlt.
  - rewrite (stores_class _ _ _ _ _ Hs), employee_initialised_class.
    rewrite allocated_new. reflexivity.
Qed.

(** * The specification, property by property *)

Lemma getattr_stored (self : addr) (a : string) (v : value) (w : world) :
  (self < length (heap w))%nat →
  getattr self a (store self a v w) = (Ok v, store self a v w).
Proof. intros Hlt. rewrite getattr_read, read_store_eq by exact Hlt. reflexivity. Qed.

Lemma email_ok_spec (v : value) :
  email_ok v = true ↔
  ∃ s, v = VStr s ∧ s ≠ "" ∧ ∃ pre post, s = pre +:+ domain +:+ post.
Proof.
  split.
  - destruct v; try discriminate. cbn. intros E. exists s.
    split; [reflexivity|]. split.
    + eapply contains_nonempty; [|exact E]. discriminate.
    + apply contains_spec, E.
  - intros (s & -> & _ & Hsub). cbn. apply contains_spec, Hsub.
Qed.

(** C6. The email setter, at construction and on later assignment, accepts a
    value exactly when it is a non-empty string that contains
    [@acme-machining.com]; an accepted value is stored and read back, a
    rejected one raises [ValueError] and leaves the world as it was.
    ["bob@example.com"] is rejected and ["bob@acme-machining.com"] accepted. *)
Theorem email_accepted_iff_contains_domain `{Interpreter}
    (self : addr) (v : value) (w : world) :
  (self < length (heap w))%nat →
  (is_ok (fst (Employee.set_email self v w)) = true ↔
     ∃ s, v = VStr s ∧ s ≠ "" ∧ ∃ pre post, s = pre +:+ domain +:+ post)
  ∧ (is_ok (fst (Employee.set_email self v w)) = true →
       Employee.set_email self v w = (Ok tt, store self "_email" v w)
       ∧ fst (Employee.email self (store self "_email" v w)) = Ok v)
  ∧ (is_ok (fst (Employee.set_email self v w)) = false →
       ∃ msg, Employee.set_email self v w =
              (Raise (Exception ValueError (Some msg)), w))
  ∧ (∀ c w1 w2 made, construct c w1 = (Ok made, w2) →
       is_ok (fst (Employee.set_email self (ctor_email c) w)) = true
       ∧ fst (Employee.email made w2) = Ok (ctor_email c))
  ∧ is_ok (fst (Employee.set_email self (VStr "bob@example.com") w)) = false
  ∧ is_ok (fst (Employee.set_email self (VStr "bob@acme-machining.com") w)) = true.
Proof.
  intros Hlt.
  assert (Hiff : ∀ u, is_ok (fst (Employee.set_email self u w)) = email_ok u).
  { intros u. destruct (email_ok u) eqn:Eu.
    - rewrite set_email_ok by exact Eu. reflexivity.
    - destruct (set_email_err self u w Eu) as [msg ->]. reflexivity. }
  rewrite !Hiff. split; [apply email_ok_spec|]. split; [|split; [|split; [|split]]].
  - intros Eu. split; [apply set_email_ok, Eu|].
    unfold Employee.email. rewrite getattr_stored by exact Hlt. reflexivity.
  - intros Eu. apply set_email_err, Eu.
  - intros c w1 w2 made Ec. rewrite Hiff.
    destruct (construct_ok c w1 w2 made Ec) as (_ & Hok & _ & _ & _ & He & _).
    unfold employee_ok in Hok. apply andb_true_iff in Hok as [_ Hok].
    split; [exact Hok|].
    unfold Employee.email. rewrite getattr_read, He. reflexivity.
  - reflexivity.
  - reflexivity.
Qed.

Lemma email_accepted_iff_contains_domain_witness :
  (0 < length (heap office))%nat
  ∧ Employee.set_email 0 (VStr "bob@acme-machining.com") office =
    (Ok tt, store 0 "_email" (VStr "bob@acme-machining.com") office).
Proof.
  split; [vm_compute; lia|].
  apply (@email_accepted_iff_contains_domain cpython312 0%nat
           (VStr "bob@acme-machining.com") office); [vm_compute; lia|].
  reflexivity.
Defined.

Lemma isspace_name_ok (s : string) : isspace s = true → name_ok (VStr s) = true.
Proof. unfold isspace. cbn. intros E. apply andb_true_iff in E as [E _]. exact E. Qed.

(** C10. The non-empty checks on name and image reject the empty string and
    no other string: a string made of whitespace only is accepted by both
    setters, stored as it is and read back. *)
Theorem whitespace_name_and_image_accepted (self : addr) (s : string) (w : world) :
  (self < length (heap w))%nat → isspace s = true →
  Employee.set_name self (VStr s) w = (Ok tt, store self "_name" (VStr s) w)
  ∧ fst (Employee.name self (store self "_name" (VStr s) w)) = Ok (VStr s)
  ∧ Employee.set_image self (VStr s) w = (Ok tt, store self "_image" (VStr s) w)
  ∧ fst (Employee.image self (store self "_image" (VStr s) w)) = Ok (VStr s)
  ∧ (∀ t, is_ok (fst (Employee.set_name self (VStr t) w)) = false ↔ t = "")
  ∧ (∀ t, is_ok (fst (Employee.set_image self (VStr t) w)) = false ↔ t = "").
Proof.
  intros Hlt Hs. apply isspace_name_ok in Hs.
  assert (Hempty : ∀ t, name_ok (VStr t) = false ↔ t = "").
  { intros t. cbn. rewrite negb_false_iff. apply String.eqb_eq. }
  split; [apply set_name_ok, Hs|]. split.
  { unfold Employee.name. rewrite getattr_stored by exact Hlt. reflexivity. }
  split; [apply set_image_ok, Hs|]. split.
  { unfold Employee.image. rewrite getattr_stored by exact Hlt. reflexivity. }
  split; intros t; rewrite <- Hempty.
  - destruct (name_ok (VStr t)) eqn:Et.
    + rewrite set_name_ok by exact Et. done.
    + destruct (set_name_err self _ w Et) as [msg ->]. done.
  - destruct (name_ok (VStr t)) eqn:Et.
    + rewrite set_image_ok by exact Et. done.
    + destruct (set_image_err self _ w Et) as [msg ->]. done.
Qed.

Lemma whitespace_name_and_image_accepted_witness :
  (0 < length (heap office))%nat ∧ isspace " " = true
  ∧ Employee.set_name 0 (VStr " ") office =
    (Ok tt, store 0 "_name" (VStr " ") office)
  ∧ fst (Employee.name 0 (store 0 "_name" (VStr " ") office)) = Ok (VStr " ").
Proof.
  split; [vm_compute; lia|]. split; [reflexivity|].
  split; apply (whitespace_name_and_image_accepted 0%nat " " office);
    first [vm_compute; lia|reflexivity].
Defined.

(** ** Pay *)

Lemma set_yearly_ok_inv (self : addr) (y : value) (w w' : world) :
  Salaried.set_yearly self y w = (Ok tt, w') →
  (∃ f, y = VFloat f) ∧ w' = store self "_yearly" y w.
Proof.
  unfold Salaried.set_yearly, mbind, M_bind, lift, raise, setattr.
  intros E. repeat case_match; simplify_eq.
  destruct y; try discriminate. eauto.
Qed.

Lemma set_hourly_ok_inv (self : addr) (h : value) (w w' : world) :
  Hourly.set_hourly self h w = (Ok tt, w') →
  ((∃ n, h = VInt n) ∨ (∃ f, h = VFloat f)) ∧ w' = store self "_hourly" h w.
Proof.
  unfold Hourly.set_hourly, mbind, M_bind, lift, raise, setattr.
  intros E. repeat case_match; simplify_eq.
  split; [|reflexivity].
  destruct h as [ |b|n|f|s|r|d|d]; try discriminate; eauto.
  destruct b; discriminate.
Qed.

Lemma second_setter_read `{Interpreter} (g : field) (self : addr) (u : value)
    (a : string) (w w' : world) :
  setter g self u w = (Ok tt, w') → attr g ≠ a →
  read self a w' = read self a w.
Proof.
  intros E Hne. destruct (setter_cases g self u w) as [[e E']|[v' E']];
    rewrite E' in E; [discriminate|]. injection E as <-.
  apply read_store_ne. right. congruence.
Qed.

(** After the own fields of a constructor went through, the rate is stored
    under [_yearly] or [_hourly] and has the type its setter insists on. *)
Lemma own_fields_rate `{Interpreter} (c : ctor) (self : addr) (w w' : world) :
  (self < length (heap w))%nat →
  own_fields c self w = (Ok tt, w') →
  if salaried_rooted (ctor_class c)
  then (∃ f, ctor_rate c = VFloat f) ∧ read self "_yearly" w' = Some (ctor_rate c)
  else ((∃ n, ctor_rate c = VInt n) ∨ (∃ f, ctor_rate c = VFloat f))
       ∧ read self "_hourly" w' = Some (ctor_rate c).
Proof.
  intros Hlt E.
  assert (Sal : ∀ y w1, Salaried.set_yearly self y w = (Ok tt, w1) →
            (∃ f, y = VFloat f) ∧ read self "_yearly" w1 = Some y).
  { intros y w1 E1. apply set_yearly_ok_inv in E1 as [Hf ->].
    split; [exact Hf|]. apply read_store_eq, Hlt. }
  assert (Hou : ∀ h w1, Hourly.set_hourly self h w = (Ok tt, w1) →
            ((∃ n, h = VInt n) ∨ (∃ f, h = VFloat f))
            ∧ read self "_hourly" w1 = Some h).
  { intros h w1 E1. apply set_hourly_ok_inv in E1 as [Hf ->].
    split; [exact Hf|]. apply read_store_eq, Hlt. }
  destruct c; cbn [own_fields ctor_class ctor_rate] in *;
    change (salaried_rooted _) with true || change (salaried_rooted _) with false;
    cbn match.
  - apply Sal, E.
  - apply Hou, E.
  - apply bind_ok_inv in E as ([] & w1 & E1 & E2). destruct (Sal _ _ E1) as [Hf Hr].
    split; [exact Hf|]. rewrite <- Hr.
    apply (second_setter_read f_role _ _ _ _ _ E2). discriminate.
  - apply bind_ok_inv in E as ([] & w1 & E1 & E2). destruct (Sal _ _ E1) as [Hf Hr].
    split; [exact Hf|]. rewrite <- Hr.
    apply (second_setter_read f_department _ _ _ _ _ E2). discriminate.
  - apply bind_ok_inv in E as ([] & w1 & E1 & E2). destruct (Hou _ _ E1) as [Hf Hr].
    split; [exact Hf|]. rewrite <- Hr.
    apply (second_setter_read f_hired_date _ _ _ _ _ E2). discriminate.
  - apply bind_ok_inv in E as ([] & w1 & E1 & E2). destruct (Hou _ _ E1) as [Hf Hr].
    split; [exact Hf|]. rewrite <- Hr.
    apply (second_setter_read f_last_day _ _ _ _ _ E2). discriminate.
Qed.

Lemma fifty_two_not_zero : PyFloat.is_zero (PyFloat.of_Z 52) = false.
Proof. vm_compute. reflexivity. Qed.

Lemma dispatch_class {T} (own : cls → option (addr → M T)) (self : addr)
    (w : world) (k : cls) (method : addr → M T) :
  ob_class <$> heap w !! self = Some k → resolve own k = Some method →
  dispatch own self w = method self w.
Proof.
  intros Hk Hm. unfold dispatch, mbind, M_bind, class_of.
  destruct (heap w !! self) as [o|]; [|discriminate].
  injection Hk as ->. rewrite Hm. reflexivity.
Qed.

Lemma Salaried_calc_pay_float (self : addr) (w : world) (y : spec_float) :
  read self "_yearly" w = Some (VFloat y) →
  Salaried.calc_pay self w = (Ok (VFloat (PyFloat.div y (PyFloat.of_Z 52))), w).
Proof.
  intros Hr. unfold Salaried.calc_pay, Salaried.yearly, mbind, M_bind.
  rewrite getattr_read, Hr. unfold lift, py_truediv. cbn [as_number to_float].
  cbn [mbind outcome_bind]. rewrite fifty_two_not_zero. reflexivity.
Qed.

Lemma Hourly_calc_pay_value (self : addr) (w : world) (h : value) :
  read self "_hourly" w = Some h →
  Hourly.calc_pay self w = (py_mul h 40, w).
Proof.
  intros Hr. unfold Hourly.calc_pay, Hourly.hourly, mbind, M_bind.
  rewrite getattr_read, Hr. reflexivity.
Qed.

Lemma rooted_cases (c : ctor) :
  (salaried_rooted (ctor_class c) = true ∧ hourly_rooted (ctor_class c) = false
   ∧ resolve own_calc_pay (ctor_class c) = Some Salaried.calc_pay)
  ∨ (salaried_rooted (ctor_class c) = false ∧ hourly_rooted (ctor_class c) = true
     ∧ resolve own_calc_pay (ctor_class c) = Some Hourly.calc_pay).
Proof. destruct c; cbn; auto. Qed.

(** C1. On every instance a constructor returned, [calc_pay()] is the rule of
    the root of its chain: [yearly / 52.0] for Salaried, Executive and
    Manager, [hourly * 40] for Hourly, Permanent and Temporary, none of the
    four leaf classes defining a [calc_pay] of its own.  The call returns a
    value, leaves the world as it was, and returns the same value when
    repeated; with [yearly = 104000.0] it returns [2000.0], with
    [hourly = 20] it returns [800]. *)
Theorem calc_pay_follows_root_rule `{Interpreter}
    (c : ctor) (w w' : world) (self : addr) :
  construct c w = (Ok self, w') →
  (own_calc_pay Executive = None ∧ own_calc_pay Manager = None
   ∧ own_calc_pay Permanent = None ∧ own_calc_pay Temporary = None)
  ∧ (salaried_rooted (ctor_class c) = true →
       ∃ y, ctor_rate c = VFloat y
            ∧ calc_pay self w' =
              (Ok (VFloat (PyFloat.div y (PyFloat.of_Z 52))), w'))
  ∧ (hourly_rooted (ctor_class c) = true →
       (∃ n, ctor_rate c = VInt n ∧ calc_pay self w' = (Ok (VInt (n * 40)), w'))
       ∨ (∃ h, ctor_rate c = VFloat h
               ∧ calc_pay self w' =
                 (Ok (VFloat (PyFloat.mul h (PyFloat.of_Z 40))), w')))
  ∧ (∃ pay, calc_pay self w' = (Ok pay, w')
            ∧ (calc_pay self ≫= λ _, calc_pay self) w' = (Ok pay, w'))
  ∧ (ctor_class c = Salaried → ctor_rate c = VFloat (PyFloat.of_Z 104000) →
       calc_pay self w' = (Ok (VFloat (PyFloat.of_Z 2000)), w'))
  ∧ (ctor_class c = Hourly → ctor_rate c = VInt 20 →
       calc_pay self w' = (Ok (VInt 800), w')).
Proof.
  intros E.
  destruct (construct_ok c w w' self E) as (-> & Hok & Hown & _ & _ & _ & _ & Hcls).
  assert (Hlt : (length (heap w) <
                 length (heap (employee_initialised (length (heap w)) (ctor_name c)
                   (ctor_email c) (allocated (ctor_class c) w))))%nat).
  { rewrite employee_initialised_length, allocated_length. lia. }
  pose proof (own_fields_rate c _ _ _ Hlt Hown) as Hrate.
  assert (Hsal : salaried_rooted (ctor_class c) = true →
            ∃ y, ctor_rate c = VFloat y
                 ∧ calc_pay (length (heap w)) w' =
                   (Ok (VFloat (PyFloat.div y (PyFloat.of_Z 52))), w')).
  { intros Hs. destruct (rooted_cases c) as [(_ & _ & Hres)|(Hs' & _)];
      [|congruence].
    rewrite Hs in Hrate. destruct Hrate as [[y Hy] Hr]. exists y.
    split; [exact Hy|]. unfold calc_pay.
    rewrite (dispatch_class _ _ _ _ _ Hcls Hres).
    apply Salaried_calc_pay_float. rewrite Hr, Hy. reflexivity. }
  assert (Hhou : hourly_rooted (ctor_class c) = true →
            calc_pay (length (heap w)) w' = (py_mul (ctor_rate c) 40, w')
            ∧ ((∃ n, ctor_rate c = VInt n) ∨ (∃ h, ctor_rate c = VFloat h))).
  { intros Hh. destruct (rooted_cases c) as [(_ & Hh' & _)|(Hs & _ & Hres)];
      [congruence|].
    rewrite Hs in Hrate. destruct Hrate as [Hty Hr]. split; [|exact Hty].
    unfold calc_pay. rewrite (dispatch_class _ _ _ _ _ Hcls Hres).
    apply Hourly_calc_pay_value, Hr. }
  assert (Hhou' : hourly_rooted (ctor_class c) = true →
       (∃ n, ctor_rate c = VInt n
             ∧ calc_pay (length (heap w)) w' = (Ok (VInt (n * 40)), w'))
       ∨ (∃ h, ctor_rate c = VFloat h
               ∧ calc_pay (length (heap w)) w' =
                 (Ok (VFloat (PyFloat.mul h (PyFloat.of_Z 40))), w'))).
  { intros Hh. destruct (Hhou Hh) as [Hp [[n Hn]|[h Hn]]]; rewrite Hn in Hp.
    - left. exists n. split; [exact Hn|exact Hp].
    - right. exists h. split; [exact Hn|exact Hp]. }
  split; [repeat split|]. split; [exact Hsal|]. split; [exact Hhou'|].
  split; [|split].
  - assert (∃ pay, calc_pay (length (heap w)) w' = (Ok pay, w')) as [pay Hp].
    { destruct (rooted_cases c) as [(Hs & _)|(_ & Hh & _)].
      - destruct (Hsal Hs) as (y & _ & Hp). eauto.
      - destruct (Hhou' Hh) as [(n & _ & Hp)|(h & _ & Hp)]; eauto. }
    exists pay. split; [exact Hp|].
    rewrite (bind_step_ok _ _ _ _ _ Hp). exact Hp.
  - intros Hc Hy. destruct Hsal as (y & Hy' & Hp).
    { rewrite Hc. reflexivity. }
    rewrite Hp. assert (y = PyFloat.of_Z 104000) as -> by congruence.
    assert (Hdiv : PyFloat.div (PyFloat.of_Z 104000) (PyFloat.of_Z 52)
                   = PyFloat.of_Z 2000) by (vm_compute; reflexivity).
    rewrite Hdiv. reflexivity.
  - intros Hc Hy. destruct Hhou as [Hp _].
    { rewrite Hc. reflexivity. }
    rewrite Hp, Hy. reflexivity.
Qed.

Lemma calc_pay_follows_root_rule_witness :
  ∃ w', @construct cpython312 alice initial_world = (Ok 0%nat, w')
        ∧ calc_pay 0 w' = (Ok (VFloat (PyFloat.of_Z 2000)), w').
Proof.
  exists (snd (@construct cpython312 alice initial_world)).
  split; [vm_compute; reflexivity|].
  apply (@calc_pay_follows_root_rule cpython312 alice initial_world);
    [vm_compute; reflexivity|reflexivity|reflexivity].
Defined.

(** ** Identity *)

(** An assignment either raises and leaves the world as it was, or stores
    one attribute, never the identity. *)
Lemma assign_cases `{Interpreter} (f : field) (self : addr) (v : value) (w : world) :
  (∃ e, assign f self v w = (Raise e, w)) ∨
  (∃ a v', a ≠ "id_number" ∧ assign f self v w = (Ok tt, store self a v' w)).
Proof.
  unfold assign, mbind, M_bind, class_of.
  destruct (heap w !! self) as [o|]; [|left; eexists; reflexivity].
  destruct (bool_decide _).
  - destruct (setter_cases f self v w) as [[e E]|[v' E]]; [eauto|].
    right. exists (attr f), v'. split; [apply attr_not_id|exact E].
  - right. exists (field_name f), v. split; [destruct f; discriminate|reflexivity].
Qed.

Lemma read_old_id (a self : addr) (b : string) (v : value) (w : world) :
  b ≠ "id_number" →
  read a "id_number" (store self b v w) = read a "id_number" w.
Proof. intros Hb. apply read_store_ne. right. congruence. Qed.

Section Exec.
Context `{Interpreter}.
Variables (c : call) (w w' : world) (r : outcome (option addr)).
Hypothesis step : exec c w = (r, w').

Lemma exec_counter : CURRENT_ID w ≤ CURRENT_ID w'.
Proof.
  destruct c as [k|f self v]; cbn [exec] in step;
  unfold mbind, M_bind, mret, M_ret in step.
  - destruct (construct k w) as [r0 w1] eqn:E.
    destruct (construct_frame k w w1 r0 E) as (_ & _ & Hc & _).
    assert (w' = w1) as -> by (destruct r0; congruence).
    rewrite Hc. destruct (employee_ok k); lia.
  - destruct (assign_cases f self v w) as [[e E]|(a & v' & _ & E)];
      rewrite E in step; injection step as <- <-.
    + lia.
    + rewrite store_CURRENT_ID. lia.
Qed.

Lemma exec_length : (length (heap w) ≤ length (heap w'))%nat.
Proof.
  destruct c as [k|f self v]; cbn [exec] in step;
  unfold mbind, M_bind, mret, M_ret in step.
  - destruct (construct k w) as [r0 w1] eqn:E.
    destruct (construct_frame k w w1 r0 E) as (_ & Hl & _).
    assert (w' = w1) as -> by (destruct r0; congruence).
    lia.
  - destruct (assign_cases f self v w) as [[e E]|(a & v' & _ & E)];
      rewrite E in step; injection step as <- <-.
    + lia.
    + rewrite store_length. lia.
Qed.

(** No call changes the identity of an instance that exists. *)
Lemma exec_keeps_id (a : addr) :
  (a < length (heap w))%nat → read a "id_number" w' = read a "id_number" w.
Proof.
  intros Hlt.
  destruct c as [k|f self v]; cbn [exec] in step;
  unfold mbind, M_bind, mret, M_ret in step.
  - destruct (construct k w) as [r0 w1] eqn:E.
    destruct (construct_frame k w w1 r0 E) as (Hold & _).
    assert (w' = w1) as -> by (destruct r0; congruence).
    destruct (lookup_lt_is_Some_2 _ _ Hlt) as [o Ho].
    unfold read. rewrite (Hold _ _ Ho), Ho. reflexivity.
  - destruct (assign_cases f self v w) as [[e E]|(b & v' & Hb & E)];
      rewrite E in step; injection step as <- <-.
    + reflexivity.
    + apply read_old_id, Hb.
Qed.

(** A constructor that returns gave the new instance the counter's value
    and advanced the counter by one. *)
Lemma exec_made (self : addr) :
  r = Ok (Some self) →
  (length (heap w) ≤ self < length (heap w'))%nat
  ∧ read self "id_number" w' = Some (VInt (CURRENT_ID w))
  ∧ CURRENT_ID w' = CURRENT_ID w + 1.
Proof.
  intros ->.
  destruct c as [k|f s v]; cbn [exec] in step;
  unfold mbind, M_bind, mret, M_ret in step.
  - destruct (construct k w) as [[made|e] w1] eqn:E; [|discriminate].
    injection step as <- <-.
    destruct (construct_frame k w w1 _ E) as (_ & Hl & Hc & _).
    destruct (construct_ok k w w1 made E) as (-> & Hok & _ & Hid & _).
    rewrite Hok in Hc. split; [lia|]. split; [exact Hid|exact Hc].
  - destruct (assign f s v w) as [[[]|e] w1]; discriminate.
Qed.

End Exec.

Lemma run_cons `{Interpreter} (c : call) (cs : list call) (w : world) :
  run (c :: cs) w =
  (match fst (exec c w) with
   | Ok (Some self) =>
       (self, fst (Employee.id self (snd (exec c w))))
       :: fst (run cs (snd (exec c w)))
   | _ => fst (run cs (snd (exec c w)))
   end, snd (run cs (snd (exec c w)))).
Proof.
  cbn [run]. destruct (exec c w) as [r w1]. cbn [fst snd].
  destruct (run cs w1) as [made w']. reflexivity.
Qed.

Lemma run_keeps_id `{Interpreter} (cs : list call) (w : world) (a : addr) :
  (a < length (heap w))%nat →
  read a "id_number" (snd (run cs w)) = read a "id_number" w.
Proof.
  revert w. induction cs as [|c cs IH]; intros w Hlt; [reflexivity|].
  rewrite run_cons. cbn [snd].
  destruct (exec c w) as [r w1] eqn:E. cbn [snd].
  rewrite IH.
  - eapply exec_keeps_id; [exact E|exact Hlt].
  - pose proof (exec_length _ _ _ _ E). lia.
Qed.

Lemma id_read (self : addr) (w : world) (v : value) :
  read self "id_number" w = Some v → fst (Employee.id self w) = Ok v.
Proof. intros E. unfold Employee.id. rewrite getattr_read, E. reflexivity. Qed.

Lemma sorted_lt_NoDup (l : list Z) : StronglySorted Z.lt l → NoDup l.
Proof.
  induction 1 as [|x l Hs IH Hall]; constructor; [|exact IH].
  intros Hin. rewrite Forall_forall in Hall. specialize (Hall _ Hin). lia.
Qed.

(** The identities handed out along a run, from any world on: integers, each
    the counter's value at that moment, strictly increasing, and still what
    the instances show at the end of the run. *)
Lemma run_ids `{Interpreter} (cs : list call) (w : world) :
  ∃ ids : list Z,
    map snd (fst (run cs w)) = map (λ i, Ok (VInt i)) ids
    ∧ StronglySorted Z.lt ids
    ∧ Forall (λ i, CURRENT_ID w ≤ i) ids
    ∧ Forall (λ p, fst (Employee.id (fst p) (snd (run cs w))) = snd p)
             (fst (run cs w)).
Proof.
  revert w. induction cs as [|c cs IH]; intros w.
  { exists []. cbn. repeat split; constructor. }
  rewrite run_cons. cbn [fst snd].
  destruct (exec c w) as [r w1] eqn:E. cbn [fst snd].
  destruct (IH w1) as (ids & Hmap & Hsort & Hlow & Hend).
  pose proof (exec_counter _ _ _ _ E) as Hc.
  assert (Hweak : Forall (λ i, CURRENT_ID w ≤ i) ids).
  { eapply Forall_impl; [exact Hlow|]. cbn. intros i Hi. lia. }
  destruct r as [[self|]|e]; try (exists ids; repeat split; assumption).
  destruct (exec_made _ _ _ _ E self eq_refl) as (Hself & Hid & Hnext).
  exists (CURRENT_ID w :: ids). cbn [map fst snd]. split; [|split; [|split]].
  - rewrite (id_read _ _ _ Hid), Hmap. reflexivity.
  - constructor; [exact Hsort|].
    eapply Forall_impl; [exact Hlow|]. cbn. intros i Hi. lia.
  - constructor; [lia|exact Hweak].
  - constructor; [|exact Hend]. cbn [fst snd].
    rewrite (id_read _ _ _ Hid). apply id_read.
    rewrite run_keeps_id by lia. exact Hid.
Qed.

(** C2. Whatever calls a client makes from the start of the process
    (constructions of any variant in any order, failed or not, and
    assignments in between), the identities of the instances constructed
    are integers that strictly increase in order of construction, hence are
    pairwise distinct and at least 1; the first instance constructed in a
    fresh process gets 1; and every instance still shows at the end the
    identity it was given. *)
Theorem ids_strictly_increasing `{Interpreter} (cs : list call)
    (made : list (addr * outcome value)) (w' : world) :
  run cs initial_world = (made, w') →
  CURRENT_ID initial_world = 1
  ∧ (∃ ids : list Z,
       map snd made = map (λ i, Ok (VInt i)) ids
       ∧ StronglySorted Z.lt ids
       ∧ NoDup ids
       ∧ Forall (λ i, 1 ≤ i) ids)
  ∧ Forall (λ p, fst (Employee.id (fst p) w') = snd p) made
  ∧ (∀ c self w1, construct c initial_world = (Ok self, w1) →
       fst (Employee.id self w1) = Ok (VInt 1))
  ∧ (∀ f self v w1 w2 r, assign f self v w1 = (r, w2) → ∀ a,
       read a "id_number" w2 = read a "id_number" w1).
Proof.
  intros E. destruct (run_ids cs initial_world) as (ids & Hmap & Hsort & Hlow & Hend).
  rewrite E in Hmap, Hend. cbn [fst snd] in Hmap, Hend.
  split; [reflexivity|]. split; [|split; [exact Hend|split]].
  - exists ids. split; [exact Hmap|]. split; [exact Hsort|].
    split; [apply sorted_lt_NoDup, Hsort|exact Hlow].
  - intros c self w1 Ec.
    destruct (construct_ok c _ _ _ Ec) as (_ & _ & _ & Hid & _).
    apply id_read, Hid.
  - intros f self v w1 w2 r Ea a.
    destruct (assign_cases f self v w1) as [[e E']|(b & v' & Hb & E')];
      rewrite E' in Ea; injection Ea as <- <-.
    + reflexivity.
    + apply read_old_id, Hb.
Qed.

Lemma ids_strictly_increasing_witness :
  map snd (fst (@run cpython312 session initial_world))
  = [Ok (VInt 1); Ok (VInt 3); Ok (VInt 4)]
  ∧ Forall (λ p, fst (Employee.id (fst p)
                        (snd (@run cpython312 session initial_world))) = snd p)
           (fst (@run cpython312 session initial_world)).
Proof.
  split; [vm_compute; reflexivity|].
  eapply (@ids_strictly_increasing cpython312 session). apply surjective_pairing.
Defined.

(** ** Failed calls *)

(** C3, as stated, fails: a construction whose own field is rejected has
    already taken an identity.  [Salaried("Carol", ..., 10.0)] raises
    [ValueError] and leaves the counter at 2. *)
Lemma failed_construction_advances_counter :
  fst (@construct cpython312 underpaid initial_world)
  = Raise (Exception ValueError
             (Some "Yearly cannot be less than zero or less than 50000."))
  ∧ CURRENT_ID initial_world = 1
  ∧ CURRENT_ID (snd (@construct cpython312 underpaid initial_world)) = 2.
Proof. vm_compute. repeat split. Qed.

(** C3, amended. A call that raises leaves every existing instance as it
    was.  A failed assignment leaves the whole world as it was, counter
    included.  A failed construction leaves the counter where it was when
    the name or the email was rejected, and one further when
    [Employee.__init__] went through and a field of the variant was
    rejected. *)
Theorem failed_call_effect `{Interpreter} (c : call) (w w' : world) (e : exn) :
  exec c w = (Raise e, w') →
  (∀ a o, heap w !! a = Some o → heap w' !! a = Some o)
  ∧ match c with
    | Assign _ _ _ => w' = w
    | Construct k =>
        CURRENT_ID w' =
        (if employee_ok k then CURRENT_ID w + 1 else CURRENT_ID w)
    end.
Proof.
  intros E. destruct c as [k|f self v]; cbn [exec] in E;
    unfold mbind, M_bind, mret, M_ret in E.
  - destruct (construct k w) as [r0 w1] eqn:Ek.
    assert (w' = w1) as -> by (destruct r0; congruence).
    destruct (construct_frame k w w1 r0 Ek) as (Hold & _ & Hc & _).
    split; [exact Hold|exact Hc].
  - destruct (assign_cases f self v w) as [[e' E']|(a & v' & _ & E')];
      rewrite E' in E; [|discriminate].
    injection E as _ <-. split; [auto|reflexivity].
Qed.

Lemma failed_call_effect_witness :
  ∃ e w', @exec cpython312 (Construct underpaid) initial_world = (Raise e, w')
          ∧ CURRENT_ID w' = CURRENT_ID initial_world + 1.
Proof.
  eexists _, (snd (@exec cpython312 (Construct underpaid) initial_world)).
  split; [vm_compute; reflexivity|].
  pose proof (@failed_call_effect cpython312 (Construct underpaid) initial_world
                (snd (@exec cpython312 (Construct underpaid) initial_world))
                (Exception ValueError
                   (Some "Yearly cannot be less than zero or less than 50000."))) as Hw.
  apply Hw. vm_compute. reflexivity.
Defined.

(** ** The numeric setters on values they were not written for *)

Lemma hourly_maximum :
  PyFloat.literal 9999 2 = S754_finite false 7036170730324623 (-46).
Proof. vm_compute. reflexivity. Qed.

(** C4. What the yearly setter does beside the documented cases.  A string,
    or [None], raises [TypeError] out of the comparison, before the type
    check that would raise [ValueError] is reached; NaN, a float that is
    not at least 50000, is stored.  An integer raises [ValueError],
    [49999.99] raises [ValueError] and [50000.0] is stored. *)
Theorem yearly_setter_wrong_type (self : addr) (w : world) :
  (∀ s, Salaried.set_yearly self (VStr s) w = (Raise type_error, w))
  ∧ Salaried.set_yearly self VNone w = (Raise type_error, w)
  ∧ Salaried.set_yearly self (VFloat PyFloat.nan) w
    = (Ok tt, store self "_yearly" (VFloat PyFloat.nan) w)
  ∧ (∀ n, ∃ msg, Salaried.set_yearly self (VInt n) w
                 = (Raise (Exception ValueError (Some msg)), w))
  ∧ Salaried.set_yearly self (VFloat (PyFloat.literal 4999999 2)) w
    = (Raise (Exception ValueError
                (Some "Yearly cannot be less than zero or less than 50000.")), w)
  ∧ Salaried.set_yearly self (VFloat (PyFloat.of_Z 50000)) w
    = (Ok tt, store self "_yearly" (VFloat (PyFloat.of_Z 50000)) w).
Proof.
  split; [reflexivity|]. split; [reflexivity|]. split; [reflexivity|].
  split; [|split; vm_compute; reflexivity].
  intros n. unfold Salaried.set_yearly, mbind, M_bind, lift, raise, setattr.
  unfold py_or, py_lt. cbn [as_number num_compare mbind outcome_bind isinstance negb].
  destruct (n ?= 0); destruct (n ?= 50000); eexists; reflexivity.
Qed.

(** C5. What the hourly setter does beside the documented cases.  NaN, which
    is not between 15 and 99.99, is stored.  On integers the setter accepts
    exactly 15 to 99; [14.99] and [100.0] raise [ValueError], [15] and
    [99.99] are stored; a string raises [TypeError]. *)
Theorem hourly_setter_accepts_nan (self : addr) (w : world) :
  Hourly.set_hourly self (VFloat PyFloat.nan) w
  = (Ok tt, store self "_hourly" (VFloat PyFloat.nan) w)
  ∧ (∀ n, is_ok (fst (Hourly.set_hourly self (VInt n) w))
          = (15 <=? n) && (n <=? 99))
  ∧ is_ok (fst (Hourly.set_hourly self (VFloat (PyFloat.literal 1499 2)) w)) = false
  ∧ is_ok (fst (Hourly.set_hourly self (VFloat (PyFloat.of_Z 100)) w)) = false
  ∧ is_ok (fst (Hourly.set_hourly self (VInt 15) w)) = true
  ∧ is_ok (fst (Hourly.set_hourly self (VFloat (PyFloat.literal 9999 2)) w)) = true
  ∧ (∀ s, Hourly.set_hourly self (VStr s) w = (Raise type_error, w)).
Proof.
  split; [reflexivity|]. split; [|repeat split; vm_compute; reflexivity].
  intros n. unfold Hourly.set_hourly, mbind, M_bind, lift, raise, setattr.
  rewrite hourly_maximum.
  unfold py_or, py_lt, py_gt.
  cbn [as_number num_compare mbind outcome_bind isinstance negb orb
       PyFloat.compare_Z option_map cond_Zopp].
  change (0 <=? -46) with false. cbn match.
  destruct (Z.compare_spec n 15) as [->|Hlt|Hgt]; cbn [CompOpp].
  - reflexivity.
  - cbn [fst is_ok]. symmetry. apply andb_false_iff. left. apply Z.leb_gt, Hlt.
  - destruct (Z.compare_spec 7036170730324623 (n * 2 ^ (- -46))) as [He|Hl|Hg];
      cbn [CompOpp fst is_ok]; symmetry.
    + change (2 ^ (- -46)) with 70368744177664 in He. lia.
    + change (2 ^ (- -46)) with 70368744177664 in Hl.
      apply andb_false_iff. right. apply Z.leb_gt. lia.
    + change (2 ^ (- -46)) with 70368744177664 in Hg.
      apply andb_true_iff. split; apply Z.leb_le; lia.
Qed.

(** ** Roles and departments *)

(** C7. The role and department checks on values that are no enumeration
    member.  A member is stored, on every interpreter; a member of the other
    enumeration raises the specific error, on every interpreter.  A plain
    value raises the specific error up to Python 3.7 only: the integer 0
    raises [TypeError] on 3.8 to 3.11 and is stored as the role on 3.12
    and later, where it is the value of [Role.CEO]. *)
Theorem role_check_on_plain_values (self : addr) (w : world) :
  (∀ (I : Interpreter) r,
     Executive.set_role self (VRole r) w
     = (Ok tt, store self "_role" (VRole r) w))
  ∧ (∀ (I : Interpreter) d,
       Manager.set_department self (VDepartment d) w
       = (Ok tt, store self "_department" (VDepartment d) w))
  ∧ (∀ (I : Interpreter) d,
       Executive.set_role self (VDepartment d) w = (Raise invalid_role, w))
  ∧ (∀ (I : Interpreter) r,
       Manager.set_department self (VRole r) w = (Raise invalid_department, w))
  ∧ (∀ v, is_Role v = false →
       @Executive.set_role Py3_7 self v w = (Raise invalid_role, w))
  ∧ (∀ v, is_Department v = false →
       @Manager.set_department Py3_7 self v w = (Raise invalid_department, w))
  ∧ @Executive.set_role Py3_11 self (VInt 0) w = (Raise type_error, w)
  ∧ @Executive.set_role Py3_11 self (VStr "CEO") w = (Raise type_error, w)
  ∧ @Executive.set_role Py3_12 self (VInt 0) w
    = (Ok tt, store self "_role" (VInt 0) w)
  ∧ @Executive.set_role Py3_12 self (VStr "CEO") w = (Raise invalid_role, w)
  ∧ @Manager.set_department Py3_11 self (VInt 4) w = (Raise type_error, w)
  ∧ @Manager.set_department Py3_12 self (VInt 4) w
    = (Ok tt, store self "_department" (VInt 4) w)
  ∧ fst (@construct Py3_11 erin initial_world) = Raise type_error
  ∧ fst (@construct Py3_12 erin initial_world) = Ok 0%nat
  ∧ read 0 "_role" (snd (@construct Py3_12 erin initial_world)) = Some (VInt 0).
Proof.
  split; [intros [] r; reflexivity|].
  split; [intros [] d; reflexivity|].
  split; [intros [] d; reflexivity|].
  split; [intros [] r; reflexivity|].
  split.
  { intros v Hv. unfold Executive.set_role, in_Role, enum_contains, version.
    unfold mbind, M_bind, lift. rewrite Hv. reflexivity. }
  split.
  { intros v Hv. unfold Manager.set_department, in_Department, enum_contains, version.
    unfold mbind, M_bind, lift. rewrite Hv. reflexivity. }
  repeat split; vm_compute; reflexivity.
Qed.

(** ** Display forms *)

(** The short form of an instance a constructor returned: its identity, a
    colon, its name. *)
Lemma str_of_constructed (I : Interpreter) (c : ctor) (w : world) (self : addr)
    (w' : world) :
  construct c w = (Ok self, w') →
  ∃ s, ctor_name c = VStr s
       ∧ str self w' = (Ok ((pretty (CURRENT_ID w) +:+ ":") +:+ s), w').
Proof.
  intros E.
  destruct (construct_ok c w w' self E) as (_ & Hok & _ & Hid & Hname & _ & _ & Hcls).
  unfold employee_ok in Hok. apply andb_true_iff in Hok as [Hn _].
  destruct (ctor_name c) as [ | | | |s| | | ] eqn:En; try discriminate Hn.
  exists s. split; [reflexivity|].
  assert (Hres : resolve own_str (ctor_class c) = Some Employee.__str__)
    by (destruct c; reflexivity).
  unfold str. rewrite (dispatch_class _ _ _ _ _ Hcls Hres).
  unfold Employee.__str__, Employee.name, mbind, M_bind.
  rewrite !getattr_read, Hid, Hname. reflexivity.
Qed.

(** C9. The display forms on concrete instances.  The short form is the
    identity, a colon and the name.  The diagnostic form of an Executive
    ends with its role, but [Manager] defines no [__repr__]: its diagnostic
    form is the one [Salaried] builds, stops at the salary, and is the same
    whatever the department is. *)
Theorem manager_repr_omits_department :
  own_repr Manager = None
  ∧ resolve own_repr Manager = Some Salaried.__repr__
  ∧ resolve own_repr Executive = Some Executive.__repr__
  ∧ fst (repr 0 dave_world)
    = Ok "('Dave', 'dave@acme-machining.com', './images/placeholder.png'), 60000.0"
  ∧ (∀ d, fst (repr 0 (store 0 "_department" d dave_world))
          = fst (repr 0 dave_world))
  ∧ fst (repr 0 frank_world)
    = Ok "('Frank', 'frank@acme-machining.com', './images/placeholder.png'), 60000.0,Role.CEO"
  ∧ fst (str 0 dave_world) = Ok "1:Dave"
  ∧ fst (str 0 frank_world) = Ok "1:Frank"
  ∧ (∀ (I : Interpreter) c w self w', construct c w = (Ok self, w') →
       ∃ s, ctor_name c = VStr s
            ∧ str self w' = (Ok ((pretty (CURRENT_ID w) +:+ ":") +:+ s), w')).
Proof.
  split; [reflexivity|]. split; [reflexivity|]. split; [reflexivity|].
  split; [vm_compute; reflexivity|].
  split; [intros d; vm_compute; reflexivity|].
  split; [vm_compute; reflexivity|].
  split; [vm_compute; reflexivity|].
  split; [vm_compute; reflexivity|].
  apply str_of_constructed.
Qed.

(** ** Dates *)

Lemma forall_range (f : Z → bool) (lo n : Z) :
  forallb f (seqZ lo n) = true → ∀ z, lo ≤ z < lo + n → f z = true.
Proof.
  intros Hall z Hz. rewrite forallb_forall in Hall. apply Hall.
  apply list_elem_of_In, elem_of_seqZ, Hz.
Qed.

Lemma Forall_range (P : Z → Prop) (lo n : Z) :
  Forall P (seqZ lo n) → ∀ z, lo ≤ z < lo + n → P z.
Proof.
  intros Hall z Hz. rewrite Forall_forall in Hall. apply Hall, elem_of_seqZ, Hz.
Qed.

Ltac each_in_range lo n :=
  refine (Forall_range _ lo n _);
  match goal with
  | |- Forall _ ?l => let l' := eval vm_compute in l in change l with l'
  end.

Lemma strptime_raises_ValueError (data : string) (e : exn) :
  Strptime.strptime data = Raise e → e = Exception ValueError None.
Proof.
  unfold Strptime.strptime, builtin_error. intros E.
  repeat case_match; simplify_eq; reflexivity.
Qed.

(** The year group takes any four digits. *)
Lemma year_group {A} (c1 c2 c3 c4 : ascii) (rest : string)
    (g : Strptime.groups) (k : string → Strptime.groups → option A) :
  Strptime.in_range "0" "9" c1 = true → Strptime.in_range "0" "9" c2 = true →
  Strptime.in_range "0" "9" c3 = true → Strptime.in_range "0" "9" c4 = true →
  Strptime.rmatch Strptime.directive_Y
    (String c1 (String c2 (String c3 (String c4 rest)))) g k
  = k rest (<["Y" := String c1 (String c2 (String c3 (String c4 "")))]> g).
Proof.
  intros H1 H2 H3 H4. unfold Strptime.directive_Y, Strptime.digit.
  cbn [Strptime.rmatch]. rewrite H1, H2, H3, H4. cbn [String.length].
  replace (S (S (S (S (String.length rest)))) - String.length rest)%nat
    with 4%nat by lia.
  destruct rest; reflexivity.
Qed.

Lemma in_range_digit (k : Z) :
  0 ≤ k < 0 + 10 → Strptime.in_range "0" "9" (digit_char k) = true.
Proof. revert k. apply forall_range. reflexivity. Qed.

Lemma digits_value_digit (k : Z) :
  0 ≤ k < 0 + 10 → ∀ acc t,
  Strptime.digits_value acc (String (digit_char k) t)
  = Strptime.digits_value (10 * acc + k) t.
Proof.
  revert k. each_in_range 0 10. repeat (constructor; [reflexivity|]). constructor.
Qed.

Lemma lstrip_digit (k : Z) :
  0 ≤ k < 0 + 10 → ∀ t,
  Strptime.lstrip (String (digit_char k) t) = String (digit_char k) t.
Proof.
  revert k. each_in_range 0 10. repeat (constructor; [reflexivity|]). constructor.
Qed.

Lemma four_digits_value (y : Z) :
  0 ≤ y < 10000 → Strptime.py_int (four_digits y) = Some y.
Proof.
  intros Hy.
  assert (H1 : 0 ≤ y / 1000 < 0 + 10) by (split; [apply Z.div_pos|apply Z.div_lt_upper_bound]; lia).
  assert (H2 : 0 ≤ y / 100 mod 10 < 0 + 10) by (apply Z.mod_pos_bound; lia).
  assert (H3 : 0 ≤ y / 10 mod 10 < 0 + 10) by (apply Z.mod_pos_bound; lia).
  assert (H4 : 0 ≤ y mod 10 < 0 + 10) by (apply Z.mod_pos_bound; lia).
  unfold Strptime.py_int, four_digits. rewrite lstrip_digit by exact H1.
  rewrite !digits_value_digit by assumption. cbn [Strptime.digits_value].
  f_equal. clear H1 H2 H3 H4.
  replace (y / 1000) with (y / 10 / 10 / 10) by (rewrite !Z.div_div by lia; reflexivity).
  replace (y / 100) with (y / 10 / 10) by (rewrite !Z.div_div by lia; reflexivity).
  pose proof (Z.div_mod y 10 ltac:(lia)).
  pose proof (Z.div_mod (y / 10) 10 ltac:(lia)).
  pose proof (Z.div_mod (y / 10 / 10) 10 ltac:(lia)).
  assert (y / 10 / 10 / 10 < 10).
  { rewrite !Z.div_div by lia. apply Z.div_lt_upper_bound; lia. }
  assert (0 ≤ y / 10 / 10 / 10) by (repeat apply Z.div_pos; lia).
  assert (Hsmall : (y / 10 / 10 / 10) mod 10 = y / 10 / 10 / 10)
    by (apply Z.mod_small; lia).
  lia.
Qed.

Lemma two_digits_value (n : Z) :
  0 ≤ n < 0 + 100 → bool_decide (Strptime.py_int (two_digits n) = Some n) = true.
Proof. revert n. apply forall_range. vm_compute. reflexivity. Qed.

(** The month and day groups take every two-digit month and day. *)
Lemma month_day_groups (g : Strptime.groups) (m : Z) :
  1 ≤ m < 1 + 12 → ∀ d, 1 ≤ d < 1 + 31 →
  Strptime.rmatch
    (Strptime.Cat (Strptime.Chr "-")
       (Strptime.Cat Strptime.directive_m
          (Strptime.Cat (Strptime.Chr "-") Strptime.directive_d)))
    ("-" +:+ two_digits m +:+ "-" +:+ two_digits d) g
    (λ rest g', Some (rest, g'))
  = Some ("", <["d" := two_digits d]> (<["m" := two_digits m]> g)).
Proof.
  revert m. each_in_range 1 12.
  repeat (constructor;
    [cbv beta; each_in_range 1 31; repeat (constructor; [reflexivity|]);
     constructor|]).
  constructor.
Qed.

Lemma days_in_month_le_31 (y m : Z) : Strptime.days_in_month y m ≤ 31.
Proof. unfold Strptime.days_in_month. repeat case_match; lia. Qed.

(** Every valid date written [YYYY-MM-DD] parses, to that date at midnight. *)
Lemma iso_date_parses (y m d : Z) :
  Strptime.valid_date y m d = true →
  Strptime.strptime (iso_date y m d) = Ok (mk_datetime y m d 0 0 0).
Proof.
  intros Hvalid. pose proof Hvalid as Hv. unfold Strptime.valid_date in Hv.
  repeat (apply andb_true_iff in Hv as [Hv ?]).
  pose proof (days_in_month_le_31 y m).
  assert (Hy : 0 ≤ y < 0 + 10000) by lia.
  assert (Hm : 1 ≤ m < 1 + 12) by lia.
  assert (Hd : 1 ≤ d < 1 + 31) by lia.
  pose proof (four_digits_value y ltac:(lia)) as HY.
  assert (Hd1 : 0 ≤ y / 1000 < 0 + 10)
    by (split; [apply Z.div_pos|apply Z.div_lt_upper_bound]; lia).
  assert (Hd2 : 0 ≤ y / 100 mod 10 < 0 + 10) by (apply Z.mod_pos_bound; lia).
  assert (Hd3 : 0 ≤ y / 10 mod 10 < 0 + 10) by (apply Z.mod_pos_bound; lia).
  assert (Hd4 : 0 ≤ y mod 10 < 0 + 10) by (apply Z.mod_pos_bound; lia).
  pose proof (two_digits_value m ltac:(lia)) as HM. apply bool_decide_eq_true in HM.
  pose proof (two_digits_value d ltac:(lia)) as HD. apply bool_decide_eq_true in HD.
  unfold Strptime.strptime, Strptime.re_match, Strptime.format_regex.
  cbn [Strptime.rmatch]. unfold iso_date.
  change (four_digits y +:+ "-" +:+ two_digits m +:+ "-" +:+ two_digits d)
    with (String (digit_char (y / 1000))
            (String (digit_char (y / 100 mod 10))
               (String (digit_char (y / 10 mod 10))
                  (String (digit_char (y mod 10))
                     ("-" +:+ two_digits m +:+ "-" +:+ two_digits d))))).
  rewrite year_group by (apply in_range_digit; assumption).
  change (String (digit_char (y / 1000)) _) with (four_digits y).
  pose proof (month_day_groups (<["Y" := four_digits y]> ∅) m Hm d Hd) as Hmd.
  cbn [Strptime.rmatch] in Hmd. rewrite Hmd. cbn [String.eqb negb].
  rewrite (lookup_insert_ne _ "d" "Y") by discriminate.
  rewrite (lookup_insert_ne _ "m" "Y") by discriminate.
  rewrite lookup_insert_eq.
  rewrite (lookup_insert_ne _ "d" "m") by discriminate.
  rewrite !lookup_insert_eq.
  cbn [mbind option_bind]. rewrite HY, HM, HD, Hvalid. reflexivity.
Qed.

Lemma set_hired_date_eq (self : addr) (v : value) (w : world) :
  Permanent.set_hired_date self v w =
  match Strptime.strptime (py_str v) with
  | Ok d => (Ok tt, store self "_hired_date" (VDatetime d) w)
  | Raise _ => (Raise (Exception ValueError None), w)
  end.
Proof.
  unfold Permanent.set_hired_date, mbind, M_bind, lift, setattr.
  destruct (Strptime.strptime (py_str v)) as [d|e] eqn:E; [reflexivity|].
  rewrite (strptime_raises_ValueError _ _ E). reflexivity.
Qed.

Lemma set_last_day_eq (self : addr) (v : value) (w : world) :
  Temporary.set_last_day self v w =
  match Strptime.strptime (py_str v) with
  | Ok d => (Ok tt, store self "_last_day" (VDatetime d) w)
  | Raise _ => (Raise (Exception ValueError None), w)
  end.
Proof.
  unfold Temporary.set_last_day, mbind, M_bind, lift, setattr.
  destruct (Strptime.strptime (py_str v)) as [d|e] eqn:E; [reflexivity|].
  rewrite (strptime_raises_ValueError _ _ E). reflexivity.
Qed.

(** A constructed Permanent or Temporary holds the parsed date. *)
Lemma constructed_date `{Interpreter} (c : ctor) (w w' : world) (self : addr)
    (v : value) (a : string) :
  (∃ n e h, c = NewPermanent n e h v ∧ a = "_hired_date")
  ∨ (∃ n e h, c = NewTemporary n e h v ∧ a = "_last_day") →
  construct c w = (Ok self, w') →
  ∃ d, Strptime.strptime (py_str v) = Ok d ∧ read self a w' = Some (VDatetime d).
Proof.
  intros Hc E.
  destruct (construct_ok c w w' self E) as (-> & _ & Hown & _).
  set (W := employee_initialised _ _ _ _) in Hown.
  assert (Hlt : (length (heap w) < length (heap W))%nat).
  { unfold W. rewrite employee_initialised_length, allocated_length. lia. }
  destruct Hc as [(n & e & h & -> & ->)|(n & e & h & -> & ->)];
    cbn [own_fields] in Hown;
    apply bind_ok_inv in Hown as ([] & w1 & E1 & E2);
    apply set_hourly_ok_inv in E1 as [_ ->].
  - rewrite set_hired_date_eq in E2.
    destruct (Strptime.strptime (py_str v)) as [d|]; [|discriminate].
    injection E2 as <-. exists d. split; [reflexivity|].
    apply read_store_eq. rewrite store_length. exact Hlt.
  - rewrite set_last_day_eq in E2.
    destruct (Strptime.strptime (py_str v)) as [d|]; [|discriminate].
    injection E2 as <-. exists d. split; [reflexivity|].
    apply read_store_eq. rewrite store_length. exact Hlt.
Qed.

(** *** What the pattern takes, read off a successful match *)

Section RegexInversion.
Context {A : Type}.
Implicit Types (k : string → Strptime.groups → option A) (x : A).

Lemma cat_eq r1 r2 s g k :
  Strptime.rmatch (Strptime.Cat r1 r2) s g k
  = Strptime.rmatch r1 s g (λ s' g', Strptime.rmatch r2 s' g' k).
Proof. reflexivity. Qed.

Lemma group_eq name r s g k :
  Strptime.rmatch (Strptime.Group name r) s g k
  = Strptime.rmatch r s g (λ s' g',
      k s' (<[name := String.substring 0 (String.length s - String.length s') s]> g')).
Proof. reflexivity. Qed.

Lemma alt_inv r1 r2 s g k x :
  Strptime.rmatch (Strptime.Alt r1 r2) s g k = Some x →
  Strptime.rmatch r1 s g k = Some x ∨ Strptime.rmatch r2 s g k = Some x.
Proof. cbn [Strptime.rmatch]. destruct (Strptime.rmatch r1 s g k); auto. Qed.

Lemma chr_inv c s g k x :
  Strptime.rmatch (Strptime.Chr c) s g k = Some x →
  ∃ s', s = String c s' ∧ k s' g = Some x.
Proof.
  cbn [Strptime.rmatch]. destruct s as [|c' s']; [discriminate|].
  case_bool_decide; [|discriminate]. subst c'. eauto.
Qed.

(** A character in a range of digits is one of those digits. *)
Lemma digit_inv (lo hi : Z) s g k x :
  0 ≤ lo ≤ 9 → 0 ≤ hi ≤ 9 →
  Strptime.rmatch (Strptime.Range (digit_char lo) (digit_char hi)) s g k = Some x →
  ∃ n s', lo ≤ n ≤ hi ∧ s = String (digit_char n) s' ∧ k s' g = Some x.
Proof.
  intros Hlo Hhi. cbn [Strptime.rmatch]. destruct s as [|c s']; [discriminate|].
  destruct (Strptime.in_range _ _ c) eqn:Hr; [|discriminate]. intros Hk.
  unfold Strptime.in_range in Hr. apply andb_true_iff in Hr as [H1 H2].
  apply Nat.leb_le in H1, H2. unfold digit_char in H1, H2.
  rewrite !nat_ascii_embedding in H1, H2 by lia.
  exists (Z.of_nat (nat_of_ascii c) - 48), s'. split; [lia|]. split; [|exact Hk].
  f_equal. unfold digit_char.
  replace (48 + Z.to_nat (Z.of_nat (nat_of_ascii c) - 48))%nat
    with (nat_of_ascii c) by lia.
  symmetry. apply ascii_nat_embedding.
Qed.

End RegexInversion.

Lemma string_length_app (a b : string) :
  String.length (a +:+ b) = (String.length a + String.length b)%nat.
Proof.
  induction a as [|c a IH]; [reflexivity|].
  change (S (String.length (a +:+ b)) = S (String.length a + String.length b)).
  f_equal. exact IH.
Qed.

Lemma substring_prefix (p rest : string) :
  String.substring 0 (String.length p) (p +:+ rest) = p.
Proof.
  induction p as [|c p IH]; [destruct rest; reflexivity|].
  change (String c (String.substring 0 (String.length p) (p +:+ rest)) = String c p).
  f_equal. exact IH.
Qed.

(** The text a group captures: what was taken since the group began. *)
Lemma capture_prefix (p rest : string) :
  String.substring 0 (String.length (p +:+ rest) - String.length rest) (p +:+ rest)
  = p.
Proof.
  rewrite string_length_app.
  replace (String.length p + String.length rest - String.length rest)%nat
    with (String.length p) by lia.
  apply substring_prefix.
Qed.

Lemma append_empty (s : string) : s +:+ "" = s.
Proof.
  induction s as [|c s IH]; [reflexivity|].
  change (String c (s +:+ "") = String c s). f_equal. exact IH.
Qed.

Lemma two_digits_split (a b : Z) :
  0 ≤ b ≤ 9 →
  two_digits (10 * a + b) = String (digit_char a) (String (digit_char b) "").
Proof.
  intros Hb. unfold two_digits.
  replace ((10 * a + b) / 10) with a
    by (apply (Z.div_unique_pos _ 10 a b); lia).
  replace ((10 * a + b) mod 10) with b
    by (apply (Z.mod_unique_pos _ 10 a b); lia).
  reflexivity.
Qed.

Lemma four_digits_split (a b c d : Z) :
  0 ≤ a ≤ 9 → 0 ≤ b ≤ 9 → 0 ≤ c ≤ 9 → 0 ≤ d ≤ 9 →
  four_digits (1000 * a + 100 * b + 10 * c + d)
  = String (digit_char a) (String (digit_char b)
      (String (digit_char c) (String (digit_char d) ""))).
Proof.
  intros Ha Hb Hc Hd. unfold four_digits.
  set (y := 1000 * a + 100 * b + 10 * c + d).
  assert (H1 : y / 1000 = a)
    by (symmetry; apply (Z.div_unique_pos _ 1000 a (100 * b + 10 * c + d)); lia).
  assert (H2 : y / 100 = 10 * a + b)
    by (symmetry; apply (Z.div_unique_pos _ 100 _ (10 * c + d)); lia).
  assert (H3 : y / 10 = 100 * a + 10 * b + c)
    by (symmetry; apply (Z.div_unique_pos _ 10 _ d); lia).
  rewrite H1, H2, H3.
  replace ((10 * a + b) mod 10) with b
    by (apply (Z.mod_unique_pos _ 10 a b); lia).
  replace ((100 * a + 10 * b + c) mod 10) with c
    by (apply (Z.mod_unique_pos _ 10 (10 * a + b) c); lia).
  replace (y mod 10) with d
    by (apply (Z.mod_unique_pos _ 10 (100 * a + 10 * b + c) d); lia).
  reflexivity.
Qed.

Lemma one_digit_value (n : Z) :
  0 ≤ n < 0 + 10 →
  bool_decide (Strptime.py_int (one_digit n) = Some n
               ∧ Strptime.py_int (" " +:+ one_digit n) = Some n) = true.
Proof. revert n. apply forall_range. vm_compute. reflexivity. Qed.

Lemma year_text_value (y : Z) (ys : string) :
  year_text y ys → Strptime.py_int ys = Some y.
Proof. intros [Hy ->]. apply four_digits_value. lia. Qed.

Lemma month_text_value (m : Z) (ms : string) :
  month_text m ms → Strptime.py_int ms = Some m.
Proof.
  intros [Hm [-> | [Hs ->]]].
  - pose proof (two_digits_value m ltac:(lia)) as E.
    apply bool_decide_eq_true in E. exact E.
  - pose proof (one_digit_value m ltac:(lia)) as E.
    apply bool_decide_eq_true in E. apply E.
Qed.

Lemma day_text_value (d : Z) (ds : string) :
  day_text d ds → Strptime.py_int ds = Some d.
Proof.
  intros [Hd [-> | [Hs [-> | ->]]]].
  - pose proof (two_digits_value d ltac:(lia)) as E.
    apply bool_decide_eq_true in E. exact E.
  - pose proof (one_digit_value d ltac:(lia)) as E.
    apply bool_decide_eq_true in E. apply E.
  - pose proof (one_digit_value d ltac:(lia)) as E.
    apply bool_decide_eq_true in E. apply E.
Qed.

(** Rewriting the text a group captured, once the text it began at is
    known to be [p] followed by the text left. *)
Ltac captured H p rest :=
  let C := fresh "C" in
  pose proof (capture_prefix p rest) as C;
  let t := eval cbv beta iota delta [String.append] in (p +:+ rest) in
  change (p +:+ rest) with t in C; rewrite C in H; clear C.

Section DirectiveInversion.
Context {A : Type}.
Implicit Types (k : string → Strptime.groups → option A) (x : A).

(** [%Y] takes four digits. *)
Lemma year_inv s g k x :
  Strptime.rmatch Strptime.directive_Y s g k = Some x →
  ∃ y ys rest, year_text y ys ∧ s = ys +:+ rest
               ∧ k rest (<["Y" := ys]> g) = Some x.
Proof.
  unfold Strptime.directive_Y, Strptime.digit. rewrite group_eq.
  change (Strptime.Range "0" "9")
    with (Strptime.Range (digit_char 0) (digit_char 9)).
  intros H. rewrite cat_eq in H.
  apply digit_inv in H as (a & s1 & Ha & -> & H); [|lia|lia].
  rewrite cat_eq in H.
  apply digit_inv in H as (b & s2 & Hb & -> & H); [|lia|lia].
  rewrite cat_eq in H.
  apply digit_inv in H as (c & s3 & Hc & -> & H); [|lia|lia].
  apply digit_inv in H as (d & rest & Hd & -> & H); [|lia|lia].
  captured H (String (digit_char a) (String (digit_char b)
               (String (digit_char c) (String (digit_char d) "")))) rest.
  rewrite <- four_digits_split in H by assumption.
  exists (1000 * a + 100 * b + 10 * c + d),
    (four_digits (1000 * a + 100 * b + 10 * c + d)), rest.
  split; [split; [lia|reflexivity]|]. split; [|exact H].
  rewrite four_digits_split by assumption. reflexivity.
Qed.

(** [%m] takes 10 to 12, 01 to 09, or 1 to 9. *)
Lemma month_inv s g k x :
  Strptime.rmatch Strptime.directive_m s g k = Some x →
  ∃ m ms rest, month_text m ms ∧ s = ms +:+ rest
               ∧ k rest (<["m" := ms]> g) = Some x.
Proof.
  unfold Strptime.directive_m. rewrite group_eq.
  change (Strptime.Range "0" "2")
    with (Strptime.Range (digit_char 0) (digit_char 2)).
  change (Strptime.Range "1" "9")
    with (Strptime.Range (digit_char 1) (digit_char 9)).
  change (Strptime.Chr "1") with (Strptime.Chr (digit_char 1)).
  change (Strptime.Chr "0") with (Strptime.Chr (digit_char 0)).
  intros H. apply alt_inv in H as [H|H]; [|apply alt_inv in H as [H|H]].
  - rewrite cat_eq in H. apply chr_inv in H as (s1 & -> & H).
    apply digit_inv in H as (b & rest & Hb & -> & H); [|lia|lia].
    captured H (String (digit_char 1) (String (digit_char b) "")) rest.
    rewrite <- (two_digits_split 1 b) in H by lia.
    exists (10 * 1 + b), (two_digits (10 * 1 + b)), rest.
    split; [split; [lia|left; reflexivity]|]. split; [|exact H].
    rewrite two_digits_split by lia. reflexivity.
  - rewrite cat_eq in H. apply chr_inv in H as (s1 & -> & H).
    apply digit_inv in H as (b & rest & Hb & -> & H); [|lia|lia].
    captured H (String (digit_char 0) (String (digit_char b) "")) rest.
    rewrite <- (two_digits_split 0 b) in H by lia.
    exists (10 * 0 + b), (two_digits (10 * 0 + b)), rest.
    split; [split; [lia|left; reflexivity]|]. split; [|exact H].
    rewrite two_digits_split by lia. reflexivity.
  - apply digit_inv in H as (b & rest & Hb & -> & H); [|lia|lia].
    captured H (String (digit_char b) "") rest.
    exists b, (one_digit b), rest.
    split; [split; [lia|right; split; [lia|reflexivity]]|].
    split; [reflexivity|exact H].
Qed.

(** [%d] takes 30 and 31, 10 to 29, 01 to 09, 1 to 9, or a space and 1 to
    9. *)
Lemma day_inv s g k x :
  Strptime.rmatch Strptime.directive_d s g k = Some x →
  ∃ d ds rest, day_text d ds ∧ s = ds +:+ rest
               ∧ k rest (<["d" := ds]> g) = Some x.
Proof.
  unfold Strptime.directive_d, Strptime.digit. rewrite group_eq.
  change (Strptime.Range "0" "1")
    with (Strptime.Range (digit_char 0) (digit_char 1)).
  change (Strptime.Range "1" "2")
    with (Strptime.Range (digit_char 1) (digit_char 2)).
  change (Strptime.Range "0" "9")
    with (Strptime.Range (digit_char 0) (digit_char 9)).
  change (Strptime.Range "1" "9")
    with (Strptime.Range (digit_char 1) (digit_char 9)).
  change (Strptime.Chr "3") with (Strptime.Chr (digit_char 3)).
  change (Strptime.Chr "0") with (Strptime.Chr (digit_char 0)).
  intros H.
  apply alt_inv in H as [H|H]; [|apply alt_inv in H as [H|H];
    [|apply alt_inv in H as [H|H]; [|apply alt_inv in H as [H|H]]]].
  - rewrite cat_eq in H. apply chr_inv in H as (s1 & -> & H).
    apply digit_inv in H as (b & rest & Hb & -> & H); [|lia|lia].
    captured H (String (digit_char 3) (String (digit_char b) "")) rest.
    rewrite <- (two_digits_split 3 b) in H by lia.
    exists (10 * 3 + b), (two_digits (10 * 3 + b)), rest.
    split; [split; [lia|left; reflexivity]|]. split; [|exact H].
    rewrite two_digits_split by lia. reflexivity.
  - rewrite cat_eq in H.
    apply digit_inv in H as (a & s1 & Ha & -> & H); [|lia|lia].
    apply digit_inv in H as (b & rest & Hb & -> & H); [|lia|lia].
    captured H (String (digit_char a) (String (digit_char b) "")) rest.
    rewrite <- (two_digits_split a b) in H by lia.
    exists (10 * a + b), (two_digits (10 * a + b)), rest.
    split; [split; [lia|left; reflexivity]|]. split; [|exact H].
    rewrite two_digits_split by lia. reflexivity.
  - rewrite cat_eq in H. apply chr_inv in H as (s1 & -> & H).
    apply digit_inv in H as (b & rest & Hb & -> & H); [|lia|lia].
    captured H (String (digit_char 0) (String (digit_char b) "")) rest.
    rewrite <- (two_digits_split 0 b) in H by lia.
    exists (10 * 0 + b), (two_digits (10 * 0 + b)), rest.
    split; [split; [lia|left; reflexivity]|]. split; [|exact H].
    rewrite two_digits_split by lia. reflexivity.
  - apply digit_inv in H as (b & rest & Hb & -> & H); [|lia|lia].
    captured H (String (digit_char b) "") rest.
    exists b, (one_digit b), rest.
    split; [split; [lia|right; split; [lia|left; reflexivity]]|].
    split; [reflexivity|exact H].
  - rewrite cat_eq in H. apply chr_inv in H as (s1 & -> & H).
    apply digit_inv in H as (b & rest & Hb & -> & H); [|lia|lia].
    captured H (String " " (String (digit_char b) "")) rest.
    exists b, (" " +:+ one_digit b), rest.
    split; [split; [lia|right; split; [lia|right; reflexivity]]|].
    split; [reflexivity|exact H].
Qed.

End DirectiveInversion.

(** What [strptime] has parsed when it returns: a text of a date of the
    calendar, and that date at midnight. *)
Lemma strptime_inv (s : string) (dt : datetime) :
  Strptime.strptime s = Ok dt →
  ∃ y m d, date_text y m d s ∧ Strptime.valid_date y m d = true
           ∧ dt = mk_datetime y m d 0 0 0.
Proof.
  unfold Strptime.strptime, Strptime.re_match, Strptime.format_regex.
  destruct (Strptime.rmatch _ s ∅ _) as [[rest g]|] eqn:E; [|discriminate].
  rewrite cat_eq in E.
  apply year_inv in E as (y & ys & r1 & Hy & -> & E).
  rewrite cat_eq in E. apply chr_inv in E as (r2 & -> & E).
  rewrite cat_eq in E.
  apply month_inv in E as (m & ms & r3 & Hm & -> & E).
  rewrite cat_eq in E. apply chr_inv in E as (r4 & -> & E).
  apply day_inv in E as (d & ds & r5 & Hd & -> & E).
  injection E as <- <-.
  destruct r5 as [|c r5]; [|discriminate]. cbn [String.eqb negb].
  rewrite (lookup_insert_ne _ "d" "Y") by discriminate.
  rewrite (lookup_insert_ne _ "m" "Y") by discriminate.
  rewrite lookup_insert_eq.
  rewrite (lookup_insert_ne _ "d" "m") by discriminate.
  rewrite !lookup_insert_eq.
  cbn [mbind option_bind].
  rewrite (year_text_value _ _ Hy), (month_text_value _ _ Hm),
    (day_text_value _ _ Hd).
  destruct (Strptime.valid_date y m d) eqn:Hv; [|discriminate].
  intros E. injection E as <-.
  exists y, m, d. split; [|split; [exact Hv|reflexivity]].
  exists ys, ms, ds. rewrite append_empty.
  split; [exact Hy|split; [exact Hm|split; [exact Hd|reflexivity]]].
Qed.

(** *** What the pattern takes, text by text *)

Section DateTexts.
Variable g : Strptime.groups.

Let tail : Strptime.regex :=
  Strptime.Cat (Strptime.Chr "-")
    (Strptime.Cat Strptime.directive_m
       (Strptime.Cat (Strptime.Chr "-") Strptime.directive_d)).

Let whole (rest : string) (g' : Strptime.groups) : option (string * Strptime.groups) :=
  Some (rest, g').

Ltac each_month_and_day lo1 n1 lo2 n2 :=
  each_in_range lo1 n1;
  repeat (constructor;
    [cbv beta; each_in_range lo2 n2; repeat (constructor; [reflexivity|]);
     constructor|]);
  constructor.

Lemma month_two_day_one (m : Z) :
  1 ≤ m < 1 + 12 → ∀ d, 1 ≤ d < 1 + 9 →
  Strptime.rmatch tail ("-" +:+ two_digits m +:+ "-" +:+ one_digit d) g whole
  = Some ("", <["d" := one_digit d]> (<["m" := two_digits m]> g)).
Proof. revert m. each_month_and_day 1 12 1 9. Qed.

Lemma month_two_day_space (m : Z) :
  1 ≤ m < 1 + 12 → ∀ d, 1 ≤ d < 1 + 9 →
  Strptime.rmatch tail ("-" +:+ two_digits m +:+ "-" +:+ " " +:+ one_digit d) g whole
  = Some ("", <["d" := " " +:+ one_digit d]> (<["m" := two_digits m]> g)).
Proof. revert m. each_month_and_day 1 12 1 9. Qed.

Lemma month_one_day_two (m : Z) :
  1 ≤ m < 1 + 9 → ∀ d, 1 ≤ d < 1 + 31 →
  Strptime.rmatch tail ("-" +:+ one_digit m +:+ "-" +:+ two_digits d) g whole
  = Some ("", <["d" := two_digits d]> (<["m" := one_digit m]> g)).
Proof. revert m. each_month_and_day 1 9 1 31. Qed.

Lemma month_one_day_one (m : Z) :
  1 ≤ m < 1 + 9 → ∀ d, 1 ≤ d < 1 + 9 →
  Strptime.rmatch tail ("-" +:+ one_digit m +:+ "-" +:+ one_digit d) g whole
  = Some ("", <["d" := one_digit d]> (<["m" := one_digit m]> g)).
Proof. revert m. each_month_and_day 1 9 1 9. Qed.

Lemma month_one_day_space (m : Z) :
  1 ≤ m < 1 + 9 → ∀ d, 1 ≤ d < 1 + 9 →
  Strptime.rmatch tail ("-" +:+ one_digit m +:+ "-" +:+ " " +:+ one_digit d) g whole
  = Some ("", <["d" := " " +:+ one_digit d]> (<["m" := one_digit m]> g)).
Proof. revert m. each_month_and_day 1 9 1 9. Qed.

(** After the year, the pattern takes every text of a month and a day. *)
Lemma month_day_texts (m d : Z) (ms ds : string) :
  month_text m ms → day_text d ds →
  Strptime.rmatch tail ("-" +:+ ms +:+ "-" +:+ ds) g whole
  = Some ("", <["d" := ds]> (<["m" := ms]> g)).
Proof.
  intros [Hm [-> | [Hm9 ->]]] [Hd [-> | [Hd9 [-> | ->]]]].
  - apply month_day_groups; lia.
  - apply month_two_day_one; lia.
  - apply month_two_day_space; lia.
  - apply month_one_day_two; lia.
  - apply month_one_day_one; lia.
  - apply month_one_day_space; lia.
Qed.

End DateTexts.

(** Every text of a date parses: to that date at midnight when the
    calendar has it, and to nothing otherwise. *)
Lemma date_text_strptime (y m d : Z) (s : string) :
  date_text y m d s →
  Strptime.strptime s
  = if Strptime.valid_date y m d then Ok (mk_datetime y m d 0 0 0)
    else Raise value_error.
Proof.
  intros (ys & ms & ds & Hy & Hm & Hd & ->).
  pose proof (year_text_value _ _ Hy) as HY.
  pose proof (month_text_value _ _ Hm) as HM.
  pose proof (day_text_value _ _ Hd) as HD.
  pose proof (month_day_texts (<["Y" := ys]> ∅) m d ms ds Hm Hd) as Hmd.
  destruct Hy as [Hy ->].
  assert (Hd1 : 0 ≤ y / 1000 < 0 + 10)
    by (split; [apply Z.div_pos|apply Z.div_lt_upper_bound]; lia).
  assert (Hd2 : 0 ≤ y / 100 mod 10 < 0 + 10) by (apply Z.mod_pos_bound; lia).
  assert (Hd3 : 0 ≤ y / 10 mod 10 < 0 + 10) by (apply Z.mod_pos_bound; lia).
  assert (Hd4 : 0 ≤ y mod 10 < 0 + 10) by (apply Z.mod_pos_bound; lia).
  unfold Strptime.strptime, Strptime.re_match, Strptime.format_regex.
  cbn [Strptime.rmatch].
  change (four_digits y +:+ "-" +:+ ms +:+ "-" +:+ ds)
    with (String (digit_char (y / 1000))
            (String (digit_char (y / 100 mod 10))
               (String (digit_char (y / 10 mod 10))
                  (String (digit_char (y mod 10))
                     ("-" +:+ ms +:+ "-" +:+ ds))))).
  rewrite year_group by (apply in_range_digit; assumption).
  change (String (digit_char (y / 1000)) _) with (four_digits y).
  cbn [Strptime.rmatch] in Hmd. rewrite Hmd. cbn [String.eqb negb].
  rewrite (lookup_insert_ne _ "d" "Y") by discriminate.
  rewrite (lookup_insert_ne _ "m" "Y") by discriminate.
  rewrite lookup_insert_eq.
  rewrite (lookup_insert_ne _ "d" "m") by discriminate.
  rewrite !lookup_insert_eq.
  cbn [mbind option_bind]. rewrite HY, HM, HD.
  destruct (Strptime.valid_date y m d); reflexivity.
Qed.

(** The calendar test of the date constructor is the calendar. *)
Lemma leap_year_eq (y : Z) : Strptime.is_leap y = leap_year y.
Proof.
  unfold Strptime.is_leap, leap_year.
  assert (H100 : y mod 100 = (y mod 400) mod 100)
    by (symmetry; apply Z.mod_mod_divide; exists 4; reflexivity).
  assert (H4 : y mod 4 = (y mod 100) mod 4)
    by (symmetry; apply Z.mod_mod_divide; exists 25; reflexivity).
  destruct (y mod 400 =? 0) eqn:E400.
  - apply Z.eqb_eq in E400. rewrite E400 in H100. cbn in H100.
    rewrite H100 in H4. cbn in H4. rewrite H4, H100. reflexivity.
  - destruct (y mod 100 =? 0) eqn:E100.
    + apply Z.eqb_eq in E100. rewrite E100 in H4. cbn in H4.
      rewrite H4. reflexivity.
    + rewrite orb_false_r. apply andb_true_r.
Qed.

Lemma valid_date_calendar (y m d : Z) :
  Strptime.valid_date y m d = true ↔ calendar_date y m d.
Proof.
  unfold Strptime.valid_date, calendar_date, Strptime.days_in_month, month_lengths.
  rewrite leap_year_eq, !andb_true_iff, !Z.leb_le.
  assert (Hcases : m < 1 ∨ 12 < m ∨ m = 1 ∨ m = 2 ∨ m = 3 ∨ m = 4 ∨ m = 5
                   ∨ m = 6 ∨ m = 7 ∨ m = 8 ∨ m = 9 ∨ m = 10 ∨ m = 11 ∨ m = 12)
    by lia.
  destruct Hcases as [Hm|[Hm|Hm]]; [lia|lia|].
  repeat destruct Hm as [Hm|Hm]; subst m;
    match goal with
    | |- context [Z.to_nat ?e] =>
        let n := eval vm_compute in (Z.to_nat e) in change (Z.to_nat e) with n
    end;
    cbn [Z.eqb Pos.eqb orb nth]; destruct (leap_year y); lia.
Qed.

Lemma is_digit_digit_char (k : Z) :
  0 ≤ k < 0 + 10 → is_digit (digit_char k) = true.
Proof. revert k. apply forall_range. reflexivity. Qed.

(** A calendar date written [YYYY-MM-DD] is in that format and is one of
    the texts of the date. *)
Lemma iso_date_text (y m d : Z) :
  calendar_date y m d →
  date_text y m d (iso_date y m d) ∧ yyyy_mm_dd (iso_date y m d) = true.
Proof.
  intros Hc. pose proof Hc as (Hy & Hm & Hd).
  apply valid_date_calendar in Hc. unfold Strptime.valid_date in Hc.
  repeat (apply andb_true_iff in Hc as [Hc ?]).
  pose proof (days_in_month_le_31 y m).
  assert (Hd31 : 1 ≤ d ≤ 31) by lia.
  split.
  - exists (four_digits y), (two_digits m), (two_digits d).
    split; [split; [lia|reflexivity]|].
    split; [split; [lia|left; reflexivity]|].
    split; [split; [lia|left; reflexivity]|reflexivity].
  - assert (Hd1 : 0 ≤ y / 1000 < 0 + 10)
      by (split; [apply Z.div_pos|apply Z.div_lt_upper_bound]; lia).
    assert (Hd2 : 0 ≤ y / 100 mod 10 < 0 + 10) by (apply Z.mod_pos_bound; lia).
    assert (Hd3 : 0 ≤ y / 10 mod 10 < 0 + 10) by (apply Z.mod_pos_bound; lia).
    assert (Hd4 : 0 ≤ y mod 10 < 0 + 10) by (apply Z.mod_pos_bound; lia).
    assert (Hm1 : 0 ≤ m / 10 < 0 + 10)
      by (split; [apply Z.div_pos|apply Z.div_lt_upper_bound]; lia).
    assert (Hm2 : 0 ≤ m mod 10 < 0 + 10) by (apply Z.mod_pos_bound; lia).
    assert (Hd5 : 0 ≤ d / 10 < 0 + 10)
      by (split; [apply Z.div_pos|apply Z.div_lt_upper_bound]; lia).
    assert (Hd6 : 0 ≤ d mod 10 < 0 + 10) by (apply Z.mod_pos_bound; lia).
    change (yyyy_mm_dd (iso_date y m d))
      with (is_digit (digit_char (y / 1000))
            && (is_digit (digit_char (y / 100 mod 10))
            && (is_digit (digit_char (y / 10 mod 10))
            && (is_digit (digit_char (y mod 10))
            && (is_digit (digit_char (m / 10))
            && (is_digit (digit_char (m mod 10))
            && (is_digit (digit_char (d / 10))
            && (is_digit (digit_char (d mod 10)) && true)))))))
            && true && true).
    rewrite !is_digit_digit_char by assumption. reflexivity.
Qed.

(** The two date setters on the text of a value: a text of a calendar date
    is stored as that date at midnight, and nothing else is accepted. *)
Lemma date_setters_cases (self : addr) (v : value) (w : world) :
  (∃ y m d, date_text y m d (py_str v) ∧ calendar_date y m d
     ∧ Permanent.set_hired_date self v w
       = (Ok tt, store self "_hired_date"
                   (VDatetime (mk_datetime y m d 0 0 0)) w)
     ∧ Temporary.set_last_day self v w
       = (Ok tt, store self "_last_day"
                   (VDatetime (mk_datetime y m d 0 0 0)) w))
  ∨ ((∀ y m d, date_text y m d (py_str v) → ¬ calendar_date y m d)
     ∧ Permanent.set_hired_date self v w = (Raise value_error, w)
     ∧ Temporary.set_last_day self v w = (Raise value_error, w)).
Proof.
  rewrite set_hired_date_eq, set_last_day_eq.
  destruct (Strptime.strptime (py_str v)) as [dt|e] eqn:E.
  - left. apply strptime_inv in E as (y & m & d & Ht & Hv & ->).
    exists y, m, d. split; [exact Ht|].
    split; [apply valid_date_calendar, Hv|]. split; reflexivity.
  - right. split; [|split; reflexivity].
    intros y m d Ht Hc. apply valid_date_calendar in Hc.
    rewrite (date_text_strptime _ _ _ _ Ht), Hc in E. discriminate E.
Qed.

(** A text is the text of one date at most. *)
Lemma date_text_unique (s : string) (y m d y' m' d' : Z) :
  date_text y m d s → date_text y' m' d' s →
  calendar_date y m d → calendar_date y' m' d' →
  y' = y ∧ m' = m ∧ d' = d.
Proof.
  intros H1 H2 Hc1 Hc2.
  apply valid_date_calendar in Hc1, Hc2.
  pose proof (date_text_strptime _ _ _ _ H1) as E1.
  pose proof (date_text_strptime _ _ _ _ H2) as E2.
  rewrite Hc1 in E1. rewrite Hc2, E1 in E2.
  injection E2 as <- <- <-. auto.
Qed.

(** C8, as stated, fails: the setters take texts that are not in the
    [YYYY-MM-DD] format.  ["2020-1-5"] and ["2020-01- 7"], with a month and
    a day of one digit and a day padded with a space, are stored as January
    5 and January 7, 2020, at construction and by assignment. *)
Lemma date_outside_format_accepted :
  yyyy_mm_dd "2020-1-5" = false
  ∧ yyyy_mm_dd "2020-01- 7" = false
  ∧ yyyy_mm_dd "2020-01-15" = true
  ∧ Permanent.set_hired_date 0 (VStr "2020-1-5") gwen_world
    = (Ok tt, store 0 "_hired_date" (VDatetime (mk_datetime 2020 1 5 0 0 0))
                gwen_world)
  ∧ Temporary.set_last_day 0 (VStr "2020-01- 7") gwen_world
    = (Ok tt, store 0 "_last_day" (VDatetime (mk_datetime 2020 1 7 0 0 0))
                gwen_world)
  ∧ fst (@construct cpython312 (gwen (VStr "2020-1-5")) initial_world) = Ok 0%nat
  ∧ fst (Permanent.hired_date 0
           (snd (@construct cpython312 (gwen (VStr "2020-1-5")) initial_world)))
    = Ok (VDatetime (mk_datetime 2020 1 5 0 0 0)).
Proof. vm_compute. repeat split. Qed.

(** C8, amended.  Assigning [hired_date] on a Permanent, or [last_day] on
    a Temporary, at construction or later, succeeds exactly when the text
    of the value is a text of a date of the calendar: the year in four
    digits, a hyphen, the month in two digits or in one, a hyphen, the day
    in two digits, in one, or in a space and one digit.  The date is then
    stored at midnight and read back; every other value raises [ValueError]
    and leaves the world as it was.  The texts in the [YYYY-MM-DD] format
    are among those accepted; ["2020-01-15"] gives January 15, 2020 and
    ["15-01-2020"] is rejected.  (Texts are of code points up to 255, where
    a digit is one of 0 to 9.) *)
Theorem date_setters_parse (I : Interpreter) (self : addr) (v : value) (w : world) :
  (self < length (heap w))%nat →
  (∀ y m d, date_text y m d (py_str v) → calendar_date y m d →
     Permanent.set_hired_date self v w
     = (Ok tt, store self "_hired_date" (VDatetime (mk_datetime y m d 0 0 0)) w)
     ∧ Temporary.set_last_day self v w
       = (Ok tt, store self "_last_day" (VDatetime (mk_datetime y m d 0 0 0)) w)
     ∧ fst (Permanent.hired_date self (snd (Permanent.set_hired_date self v w)))
       = Ok (VDatetime (mk_datetime y m d 0 0 0))
     ∧ fst (Temporary.last_day self (snd (Temporary.set_last_day self v w)))
       = Ok (VDatetime (mk_datetime y m d 0 0 0)))
  ∧ ((∀ y m d, date_text y m d (py_str v) → ¬ calendar_date y m d) →
     Permanent.set_hired_date self v w = (Raise value_error, w)
     ∧ Temporary.set_last_day self v w = (Raise value_error, w))
  ∧ (is_ok (fst (Permanent.set_hired_date self v w)) = true
     ∨ is_ok (fst (Temporary.set_last_day self v w)) = true →
     ∃ y m d, date_text y m d (py_str v) ∧ calendar_date y m d)
  ∧ (∀ n e h w1 made w2,
       construct (NewPermanent n e h v) w1 = (Ok made, w2) →
       ∃ y m d, date_text y m d (py_str v) ∧ calendar_date y m d
                ∧ fst (Permanent.hired_date made w2)
                  = Ok (VDatetime (mk_datetime y m d 0 0 0)))
  ∧ (∀ n e h w1 made w2,
       construct (NewTemporary n e h v) w1 = (Ok made, w2) →
       ∃ y m d, date_text y m d (py_str v) ∧ calendar_date y m d
                ∧ fst (Temporary.last_day made w2)
                  = Ok (VDatetime (mk_datetime y m d 0 0 0)))
  ∧ (∀ y m d, calendar_date y m d →
       date_text y m d (iso_date y m d) ∧ yyyy_mm_dd (iso_date y m d) = true)
  ∧ fst (Permanent.hired_date 0
           (snd (construct (gwen (VStr "2020-01-15")) initial_world)))
    = Ok (VDatetime (mk_datetime 2020 1 15 0 0 0))
  ∧ fst (construct (gwen (VStr "15-01-2020")) initial_world)
    = Raise value_error.
Proof.
  intros Hlt.
  split.
  { intros y m d Ht Hc.
    destruct (date_setters_cases self v w)
      as [(y' & m' & d' & Ht' & Hc' & E1 & E2)|(Hno & _)];
      [|destruct (Hno _ _ _ Ht Hc)].
    destruct (date_text_unique _ _ _ _ _ _ _ Ht Ht' Hc Hc') as (-> & -> & ->).
    rewrite E1, E2. cbn [snd].
    unfold Permanent.hired_date, Temporary.last_day.
    rewrite !getattr_stored by exact Hlt. repeat split. }
  split.
  { intros Hno.
    destruct (date_setters_cases self v w)
      as [(y & m & d & Ht & Hc & _)|(_ & E1 & E2)];
      [destruct (Hno _ _ _ Ht Hc)|split; assumption]. }
  split.
  { intros Hok.
    destruct (date_setters_cases self v w)
      as [(y & m & d & Ht & Hc & _)|(_ & E1 & E2)]; [eauto|].
    rewrite E1, E2 in Hok. destruct Hok; discriminate. }
  split.
  { intros n e h w1 made w2 E.
    destruct (constructed_date _ w1 w2 made v "_hired_date"
                ltac:(left; eauto) E) as (dt & Hd & Hr).
    apply strptime_inv in Hd as (y & m & d & Ht & Hv & ->).
    exists y, m, d. split; [exact Ht|]. split; [apply valid_date_calendar, Hv|].
    unfold Permanent.hired_date. rewrite getattr_read, Hr. reflexivity. }
  split.
  { intros n e h w1 made w2 E.
    destruct (constructed_date _ w1 w2 made v "_last_day"
                ltac:(right; eauto) E) as (dt & Hd & Hr).
    apply strptime_inv in Hd as (y & m & d & Ht & Hv & ->).
    exists y, m, d. split; [exact Ht|]. split; [apply valid_date_calendar, Hv|].
    unfold Temporary.last_day. rewrite getattr_read, Hr. reflexivity. }
  split; [intros y m d; apply iso_date_text|].
  destruct I; split; vm_compute; reflexivity.
Qed.

Lemma date_setters_parse_witness :
  (0 < length (heap gwen_world))%nat
  ∧ Permanent.set_hired_date 0 (VStr "2021-3- 9") gwen_world
    = (Ok tt, store 0 "_hired_date"
                (VDatetime (mk_datetime 2021 3 9 0 0 0)) gwen_world).
Proof.
  split; [vm_compute; lia|].
  apply (date_setters_parse cpython312 0%nat (VStr "2021-3- 9") gwen_world);
    [vm_compute; lia| |].
  - exists "2021", "3", " 9".
    split; [split; [lia|reflexivity]|].
    split; [split; [lia|right; split; [lia|reflexivity]]|].
    split; [split; [lia|right; split; [lia|right; reflexivity]]|reflexivity].
  - vm_compute. repeat split; discriminate.
Defined.

(** * Further properties of the code *)

(** ** Setters as validation followed by one store *)

Lemma setter_eq `{Interpreter} (f : field) (self : addr) (v : value) (w : world) :
  setter f self v w =
  match validate f v with
  | Ok _ => (Ok tt, store self (slot f) (normalise f v) w)
  | Raise e => (Raise e, w)
  end.
Proof.
  unfold validate.
  destruct f; unfold setter, normalise, slot; unfold_setters;
    unfold lift, builtin_error;
    repeat case_match; cbn [fst] in *; simplify_eq; reflexivity.
Qed.

Lemma Employee_init_eq `{Interpreter} (self : addr) (n e : value) (w : world) :
  Employee.__init__ self n e w =
  match validate f_name n with
  | Raise x => (Raise x, w)
  | Ok _ =>
      match validate f_email e with
      | Raise x => (Raise x, store self "_name" n w)
      | Ok _ => (Ok tt, employee_initialised self n e w)
      end
  end.
Proof.
  unfold Employee.__init__.
  change (Employee.set_name self n) with (setter f_name self n).
  change (Employee.set_email self e) with (setter f_email self e).
  unfold mbind, M_bind. rewrite setter_eq.
  destruct (validate f_name n) as [[]|x]; [|reflexivity].
  rewrite setter_eq. destruct (validate f_email e) as [[]|x]; reflexivity.
Qed.

(** Construction, seen from the caller: the validations of the fields are
    run in order (name, email, the rate, the field of the variant), the
    first failure is what the constructor raises, and the instance comes
    back when there is none. *)
Lemma construct_outcome `{Interpreter} (c : ctor) (w : world) :
  fst (construct c w)
  = first_error (checks c) ≫= λ _, Ok (length (heap w)).
Proof.
  rewrite construct_unfold, init_unfold.
  destruct c; cbn [checks first_error ctor_name ctor_email own_fields];
    unfold mbind, M_bind, outcome_bind; rewrite Employee_init_eq;
    (destruct (validate f_name name) as [[]|x]; [|reflexivity]);
    (destruct (validate f_email email) as [[]|x]; [|reflexivity]);
    repeat match goal with
      | |- context [Salaried.set_yearly ?s ?v] =>
          change (Salaried.set_yearly s v) with (setter f_yearly s v)
      | |- context [Hourly.set_hourly ?s ?v] =>
          change (Hourly.set_hourly s v) with (setter f_hourly s v)
      | |- context [Executive.set_role ?s ?v] =>
          change (Executive.set_role s v) with (setter f_role s v)
      | |- context [Manager.set_department ?s ?v] =>
          change (Manager.set_department s v) with (setter f_department s v)
      | |- context [Permanent.set_hired_date ?s ?v] =>
          change (Permanent.set_hired_date s v) with (setter f_hired_date s v)
      | |- context [Temporary.set_last_day ?s ?v] =>
          change (Temporary.set_last_day s v) with (setter f_last_day s v)
      end;
    rewrite setter_eq;
    repeat match goal with
      | |- context [validate ?f ?v] =>
          destruct (validate f v) as [[]|?]; rewrite ?setter_eq
      end; reflexivity.
Qed.

(** ** What the setters let through *)

Lemma strptime_ok_midnight (data : string) (d : datetime) :
  Strptime.strptime data = Ok d → midnight d = true.
Proof.
  unfold Strptime.strptime, builtin_error, midnight. intros E.
  repeat case_match; simplify_eq.
  cbn [dt_year dt_month dt_day dt_hour dt_minute dt_second].
  change (0 =? 0) with true. rewrite !andb_true_r. assumption.
Qed.

(** On integers the hourly test lets through 15 to 99. *)
Lemma hourly_int_range (n : Z) :
  py_or (py_lt (VInt n) (Int 15)) (py_gt (VInt n) (Float (PyFloat.literal 9999 2)))
  = Ok (negb ((15 <=? n) && (n <=? 99))).
Proof.
  rewrite hourly_maximum. unfold py_or, py_lt, py_gt.
  cbn [as_number num_compare mbind outcome_bind PyFloat.compare_Z option_map
       cond_Zopp].
  change (0 <=? -46) with false. cbn match.
  change (2 ^ (- -46)) with 70368744177664.
  destruct (Z.compare_spec n 15) as [->|Hlt|Hgt]; cbn [CompOpp].
  - reflexivity.
  - f_equal. symmetry. apply negb_true_iff, andb_false_iff. left.
    apply Z.leb_gt, Hlt.
  - destruct (Z.compare_spec 7036170730324623 (n * 70368744177664))
      as [He|Hl|Hg]; cbn [CompOpp]; f_equal; symmetry.
    + lia.
    + apply negb_true_iff, andb_false_iff. right. apply Z.leb_gt. lia.
    + apply negb_false_iff, andb_true_iff. split; apply Z.leb_le; lia.
Qed.

Lemma validate_valid `{Interpreter} (f : field) (v : value) :
  validate f v = Ok tt → field_valid f (normalise f v) = true.
Proof.
  unfold validate. intros E. destruct f; cbn [setter normalise field_valid] in *.
  - destruct (name_ok v) eqn:Hn; [reflexivity|].
    destruct (set_name_err 0%nat v initial_world Hn) as [msg E'].
    rewrite E' in E. discriminate.
  - destruct (email_ok v) eqn:Hn; [reflexivity|].
    destruct (set_email_err 0%nat v initial_world Hn) as [msg E'].
    rewrite E' in E. discriminate.
  - destruct (name_ok v) eqn:Hn; [reflexivity|].
    destruct (set_image_err 0%nat v initial_world Hn) as [msg E'].
    rewrite E' in E. discriminate.
  - discriminate.
  - revert E. unfold Salaried.set_yearly, mbind, M_bind, lift, raise, setattr.
    unfold py_or, py_lt. destruct v as [ |b|n|x|s|r|d|d]; cbn; try discriminate.
    + destruct b; discriminate.
    + destruct (n ?= 0); cbn; try discriminate;
        destruct (n ?= 50000); cbn; discriminate.
    + destruct (PyFloat.compare_Z x 0) as [[]|]; cbn; try discriminate;
        destruct (PyFloat.compare_Z x 50000) as [[]|]; cbn; try discriminate;
        reflexivity.
  - revert E. unfold Hourly.set_hourly, mbind, M_bind, lift, raise, setattr.
    destruct v as [ |b|n|x|s|r|d|d]; try (cbn; discriminate).
    + destruct b; vm_compute; discriminate.
    + rewrite hourly_int_range.
      destruct ((15 <=? n) && (n <=? 99)); cbn; [reflexivity|discriminate].
    + unfold py_or, py_lt, py_gt.
      cbn [as_number num_compare mbind outcome_bind].
      destruct (PyFloat.compare_Z x 15) as [[]|]; cbn [fst]; try discriminate;
        destruct (SFcompare x (PyFloat.literal 9999 2)) as [[]|];
        cbn; try discriminate; reflexivity.
  - revert E. unfold Executive.set_role, mbind, M_bind, lift, raise, setattr.
    destruct (in_Role v) as [[]|]; cbn; try discriminate. reflexivity.
  - revert E. unfold Manager.set_department, mbind, M_bind, lift, raise, setattr.
    destruct (in_Department v) as [[]|]; cbn; try discriminate. reflexivity.
  - revert E. unfold Permanent.set_hired_date, mbind, M_bind, lift, setattr.
    destruct (Strptime.strptime (py_str v)) as [d|] eqn:Ed; cbn; [|discriminate].
    intros _. eapply strptime_ok_midnight, Ed.
  - revert E. unfold Temporary.set_last_day, mbind, M_bind, lift, setattr.
    destruct (Strptime.strptime (py_str v)) as [d|] eqn:Ed; cbn; [|discriminate].
    intros _. eapply strptime_ok_midnight, Ed.
Qed.

(** ** The invariant of reachable worlds *)

Lemma slot_inj (f g : field) : slot f = slot g → f = g.
Proof. destruct f, g; intros E; first [reflexivity|discriminate E]. Qed.

Lemma slot_not_plain (f g : field) : slot g ≠ field_name f.
Proof. destruct f, g; discriminate. Qed.

Lemma getter_read (f : field) (self : addr) (w : world) :
  getter f self w =
  (match read self (slot f) w with
   | Some v => Ok v
   | None => builtin_error AttributeError
   end, w).
Proof. destruct f; apply getattr_read. Qed.

Section WellTyped.
Context `{Interpreter}.

Lemma well_typed_initial : well_typed initial_world.
Proof. split; [cbn; lia|]. intros a o f v Ha. destruct a; discriminate. Qed.

Lemma well_typed_store (self : addr) (f : field) (v : value) (w : world) :
  well_typed w → field_valid f v = true → well_typed (store self (slot f) v w).
Proof.
  intros [Hc Hw] Hv. split; [exact Hc|]. intros a o g u Ha Hu.
  unfold store in Ha. cbn [heap] in Ha. rewrite list_lookup_alter in Ha.
  destruct (decide (self = a)) as [->|Hne]; [|eapply Hw; eassumption].
  destruct (heap w !! a) as [o0|] eqn:Ho; [|discriminate].
  injection Ha as <-. cbn [ob_dict] in Hu.
  destruct (decide (slot f = slot g)) as [E|E].
  - rewrite E, lookup_insert_eq in Hu. injection Hu as <-.
    apply slot_inj in E. subst g. exact Hv.
  - rewrite lookup_insert_ne in Hu by exact E. eapply Hw; eassumption.
Qed.

Lemma well_typed_plain (self : addr) (f : field) (v : value) (w : world) :
  well_typed w → well_typed (store self (field_name f) v w).
Proof.
  intros [Hc Hw]. split; [exact Hc|]. intros a o g u Ha Hu.
  unfold store in Ha. cbn [heap] in Ha. rewrite list_lookup_alter in Ha.
  destruct (decide (self = a)) as [->|Hne]; [|eapply Hw; eassumption].
  destruct (heap w !! a) as [o0|] eqn:Ho; [|discriminate].
  injection Ha as <-. cbn [ob_dict] in Hu.
  rewrite lookup_insert_ne in Hu by (apply not_eq_sym, slot_not_plain).
  eapply Hw; eassumption.
Qed.

Lemma well_typed_allocated (c : cls) (w : world) :
  well_typed w → well_typed (allocated c w).
Proof.
  intros [Hc Hw]. split; [exact Hc|]. intros a o g u Ha Hu.
  unfold allocated in Ha. cbn [heap] in Ha.
  apply lookup_app_Some in Ha as [Ha|[_ Ha]]; [eapply Hw; eassumption|].
  destruct (a - length (heap w))%nat; [|discriminate].
  injection Ha as <-. discriminate.
Qed.

Lemma well_typed_employee (self : addr) (n e : value) (w : world) :
  well_typed w → validate f_name n = Ok tt → validate f_email e = Ok tt →
  well_typed (employee_initialised self n e w).
Proof.
  intros Hw Hn He. unfold employee_initialised.
  assert (Hs : well_typed
    (store self (slot f_id) (VInt (CURRENT_ID w))
       (store self (slot f_image) (VStr IMAGE_PLACEHOLDER)
          (store self (slot f_email) (normalise f_email e)
             (store self (slot f_name) (normalise f_name n) w))))).
  { pose proof Hw as [Hc _].
    repeat apply well_typed_store; try exact Hw.
    - apply validate_valid, Hn.
    - apply validate_valid, He.
    - reflexivity.
    - cbn. apply Z.leb_le, Hc. }
  destruct Hs as [Hc Hs]. split; [cbn in *; lia|exact Hs].
Qed.

Lemma well_typed_setter (f : field) (self : addr) (v : value) (w w' : world)
    (r : outcome unit) :
  well_typed w → setter f self v w = (r, w') → well_typed w'.
Proof.
  intros Hw E. rewrite setter_eq in E.
  destruct (validate f v) as [[]|x] eqn:Ev; injection E as <- <-; [|exact Hw].
  apply well_typed_store; [exact Hw|]. apply validate_valid, Ev.
Qed.

Lemma well_typed_own_fields (c : ctor) (self : addr) (w w' : world)
    (r : outcome unit) :
  well_typed w → own_fields c self w = (r, w') → well_typed w'.
Proof.
  intros Hw.
  assert (Two : ∀ f g v u,
    (setter f self v ≫= λ _, setter g self u) w = (r, w') → well_typed w').
  { intros f g v u E. unfold mbind, M_bind in E.
    destruct (setter f self v w) as [[[]|e] w1] eqn:E1.
    - eapply (well_typed_setter g); [|exact E].
      eapply (well_typed_setter f); [exact Hw|exact E1].
    - injection E as <- <-. eapply (well_typed_setter f); [exact Hw|exact E1]. }
  destruct c; cbn [own_fields].
  - apply (well_typed_setter f_yearly), Hw.
  - apply (well_typed_setter f_hourly), Hw.
  - apply (Two f_yearly f_role).
  - apply (Two f_yearly f_department).
  - apply (Two f_hourly f_hired_date).
  - apply (Two f_hourly f_last_day).
Qed.

Lemma well_typed_construct (c : ctor) (w w' : world) (r : outcome addr) :
  well_typed w → construct c w = (r, w') → well_typed w'.
Proof.
  intros Hw E. rewrite construct_unfold, init_unfold in E.
  unfold mbind, M_bind in E. rewrite Employee_init_eq in E.
  pose proof (well_typed_allocated (ctor_class c) w Hw) as H0.
  destruct (validate f_name (ctor_name c)) as [[]|x] eqn:En;
    [|injection E as <- <-; exact H0].
  destruct (validate f_email (ctor_email c)) as [[]|x] eqn:Ee.
  - destruct (own_fields c _ _) as [r0 w1] eqn:Eo.
    assert (w' = w1) as -> by (destruct r0; congruence).
    eapply well_typed_own_fields; [|exact Eo].
    apply well_typed_employee; assumption.
  - injection E as <- <-.
    apply (well_typed_store _ f_name); [exact H0|].
    apply (validate_valid f_name), En.
Qed.

Lemma assign_eq (f : field) (self : addr) (v : value) (w : world) :
  assign f self v w =
  match heap w !! self with
  | None => (builtin_error AttributeError, w)
  | Some o =>
      if bool_decide (field_owner f ∈ mro (ob_class o))
      then setter f self v w
      else (Ok tt, store self (field_name f) v w)
  end.
Proof.
  unfold assign, mbind, M_bind, class_of.
  destruct (heap w !! self) as [o|]; [|reflexivity].
  destruct (bool_decide _); reflexivity.
Qed.

Lemma well_typed_exec (c : call) (w w' : world) (r : outcome (option addr)) :
  well_typed w → exec c w = (r, w') → well_typed w'.
Proof.
  intros Hw E. destruct c as [k|f self v]; cbn [exec] in E;
    unfold mbind, M_bind, mret, M_ret in E.
  - destruct (construct k w) as [r0 w1] eqn:Ek.
    assert (w' = w1) as -> by (destruct r0; congruence).
    eapply well_typed_construct; eassumption.
  - destruct (assign f self v w) as [r0 w1] eqn:Ea.
    assert (w' = w1) as -> by (destruct r0 as [[]|]; congruence).
    rewrite assign_eq in Ea. destruct (heap w !! self) as [o|].
    + destruct (bool_decide _).
      * eapply well_typed_setter; eassumption.
      * injection Ea as _ <-. apply well_typed_plain, Hw.
    + injection Ea as _ <-. exact Hw.
Qed.

Lemma well_typed_run (cs : list call) (w : world) :
  well_typed w → well_typed (snd (run cs w)).
Proof.
  revert w. induction cs as [|c cs IH]; intros w Hw; [exact Hw|].
  rewrite run_cons. cbn [snd]. apply IH.
  eapply well_typed_exec; [exact Hw|apply surjective_pairing].
Qed.

End WellTyped.

(** X1. In every world a client can reach from the start of the process,
    whatever the calls and whichever of them failed, reading a property the
    class of the instance has returns a value its setter lets through:
    names and images are non-empty strings, emails hold the domain, a
    salary is a float not below 50000, an hourly wage is an integer from 15
    to 99 or a float not outside 15 to 99.99, dates are calendar dates at
    midnight, identities are integers from 1 up.  (A property the class
    lacks is a plain attribute, which nothing validates.) *)
Theorem reachable_getters_valid `{Interpreter} (cs : list call) (self : addr)
    (o : object) (f : field) (v : value) :
  heap (snd (run cs initial_world)) !! self = Some o →
  bool_decide (field_owner f ∈ mro (ob_class o)) = true →
  fst (attribute f self (snd (run cs initial_world))) = Ok v →
  fst (getter f self (snd (run cs initial_world))) = Ok v
  ∧ field_valid f v = true.
Proof.
  intros Ho Hown E.
  assert (Eg : fst (getter f self (snd (run cs initial_world))) = Ok v).
  { unfold attribute, mbind, M_bind, class_of in E. rewrite Ho, Hown in E.
    exact E. }
  split; [exact Eg|].
  rewrite getter_read in Eg. cbn [fst] in Eg.
  destruct (read self (slot f) _) as [u|] eqn:Er; [|discriminate].
  injection Eg as ->. unfold read in Er. rewrite Ho in Er.
  destruct (well_typed_run cs initial_world well_typed_initial) as [_ Hw].
  eapply Hw; [exact Ho|exact Er].
Qed.

Lemma reachable_getters_valid_witness :
  fst (attribute f_name 0 (snd (@run cpython312 session initial_world)))
  = Ok (VStr "Robert")
  ∧ @field_valid cpython312 f_name (VStr "Robert") = true.
Proof.
  split; [vm_compute; reflexivity|].
  let r := eval vm_compute in
    (heap (snd (@run cpython312 session initial_world)) !! 0%nat) in
  match r with
  | Some ?o =>
      apply (@reachable_getters_valid cpython312 session 0%nat o f_name)
  end; vm_compute; reflexivity.
Defined.

(** A property the class of the instance lacks reads back as assigned,
    whatever the value: nothing validates a plain attribute. *)
Lemma foreign_attribute_reads_back `{Interpreter} (f : field) (self : addr)
    (v : value) (w : world) (o : object) :
  heap w !! self = Some o →
  bool_decide (field_owner f ∈ mro (ob_class o)) = false →
  assign f self v w = (Ok tt, store self (field_name f) v w)
  ∧ fst (attribute f self (store self (field_name f) v w)) = Ok v.
Proof.
  intros Ho Hown. split; [rewrite assign_eq, Ho, Hown; reflexivity|].
  pose proof (class_store self self (field_name f) v w) as Hc.
  rewrite Ho in Hc. cbn [fmap option_fmap option_map] in Hc.
  unfold attribute, mbind, M_bind, class_of.
  destruct (heap (store self (field_name f) v w) !! self) as [o'|] eqn:Ho';
    [|discriminate Hc].
  injection Hc as ->. rewrite Hown, getattr_read.
  rewrite read_store_eq by (eapply lookup_lt_Some; exact Ho). reflexivity.
Qed.

(** X2. In every reachable world, when [calc_pay] returns an integer, it is
    40 times an integer wage the hourly setter let through: a multiple of
    40 between 600 and 3960. *)
Theorem reachable_integer_pay_bounds `{Interpreter} (cs : list call)
    (self : addr) (p : Z) :
  fst (calc_pay self (snd (run cs initial_world))) = Ok (VInt p) →
  600 ≤ p ≤ 3960 ∧ p mod 40 = 0
  ∧ fst (Hourly.hourly self (snd (run cs initial_world))) = Ok (VInt (p / 40)).
Proof.
  set (w := snd (run cs initial_world)).
  destruct (well_typed_run cs initial_world well_typed_initial) as [_ Hw].
  fold w in Hw. unfold calc_pay, dispatch, mbind, M_bind, class_of.
  destruct (heap w !! self) as [o|] eqn:Ho; [|discriminate].
  assert (Hh : ∀ v, read self "_hourly" w = Some v → field_valid f_hourly v = true).
  { intros v Hv. unfold read in Hv. rewrite Ho in Hv. eapply (Hw _ _ f_hourly); eassumption. }
  assert (Hourly_case : fst (Hourly.calc_pay self w) = Ok (VInt p) →
    600 ≤ p ≤ 3960 ∧ p mod 40 = 0
    ∧ fst (Hourly.hourly self w) = Ok (VInt (p / 40))).
  { unfold Hourly.calc_pay, Hourly.hourly, mbind, M_bind.
    rewrite getattr_read. destruct (read self "_hourly" w) as [v|] eqn:Hv;
      [|discriminate].
    specialize (Hh v eq_refl). cbn [fst lift].
    destruct v as [ |b|n|x|s|r|d|d]; try discriminate Hh.
    - cbn. intros E. injection E as <-. cbn in Hh.
      apply andb_true_iff in Hh as [H1 H2].
      apply Z.leb_le in H1. apply Z.leb_le in H2.
      rewrite Z.mod_mul, Z.div_mul by lia. repeat split; lia.
    - cbn. discriminate. }
  assert (Salaried_case : fst (Salaried.calc_pay self w) ≠ Ok (VInt p)).
  { unfold Salaried.calc_pay, Salaried.yearly, mbind, M_bind.
    rewrite getattr_read. destruct (read self "_yearly" w) as [v|]; [|discriminate].
    cbn [fst lift]. unfold py_truediv.
    destruct (as_number v) as [x|]; [|discriminate].
    destruct (to_float x); cbn; [|discriminate].
    destruct (PyFloat.is_zero _); discriminate. }
  destruct (ob_class o); cbn [resolve mro mro_from base omap own_calc_pay head];
    try exact Hourly_case; try (intros E; destruct (Salaried_case E)).
  discriminate.
Qed.

Lemma reachable_integer_pay_bounds_witness :
  fst (calc_pay 0 (snd (@run cpython312 session initial_world))) = Ok (VInt 800)
  ∧ 600 ≤ 800 ≤ 3960.
Proof.
  split; [vm_compute; reflexivity|].
  apply (@reachable_integer_pay_bounds cpython312 session 0%nat 800).
  vm_compute. reflexivity.
Defined.

(** X3. An assignment to a property of an instance, accepted or not, leaves
    every other property of that instance and every property of every other
    instance reading as before, and does not move the identity counter. *)
Theorem assignment_touches_one_property `{Interpreter} (f : field) (self : addr)
    (v : value) (w w' : world) (r : outcome unit) :
  assign f self v w = (r, w') →
  CURRENT_ID w' = CURRENT_ID w
  ∧ ∀ g other, other ≠ self ∨ g ≠ f →
      fst (getter g other w') = fst (getter g other w).
Proof.
  intros E. rewrite assign_eq in E.
  assert (Hstore : ∀ a u, (∀ g, g ≠ f → slot g ≠ a) →
    CURRENT_ID (store self a u w) = CURRENT_ID w
    ∧ ∀ g other, other ≠ self ∨ g ≠ f →
        fst (getter g other (store self a u w)) = fst (getter g other w)).
  { intros a u Ha. split; [reflexivity|]. intros g other Hne.
    rewrite !getter_read. cbn [fst]. rewrite read_store_ne; [reflexivity|].
    destruct Hne as [Hne|Hne]; [left; exact Hne|right; apply Ha, Hne]. }
  assert (Hsame : CURRENT_ID w = CURRENT_ID w
    ∧ ∀ g other, other ≠ self ∨ g ≠ f →
        fst (getter g other w) = fst (getter g other w)) by (split; reflexivity).
  destruct (heap w !! self) as [o|]; [|injection E as _ <-; exact Hsame].
  destruct (bool_decide _).
  - rewrite setter_eq in E.
    destruct (validate f v); injection E as _ <-; [|exact Hsame].
    apply Hstore. intros g Hg Es. apply Hg, slot_inj, Es.
  - injection E as _ <-. apply Hstore. intros g _. apply slot_not_plain.
Qed.

Lemma assignment_touches_one_property_witness :
  ∃ w', @assign cpython312 f_hourly 0%nat (VInt 30) office = (Ok tt, w')
        ∧ fst (getter f_name 0 w') = fst (getter f_name 0 office).
Proof.
  exists (snd (@assign cpython312 f_hourly 0%nat (VInt 30) office)).
  split; [vm_compute; reflexivity|].
  apply (@assignment_touches_one_property cpython312 f_hourly 0%nat (VInt 30)
           office (snd (@assign cpython312 f_hourly 0%nat (VInt 30) office))
           (Ok tt)).
  - vm_compute. reflexivity.
  - right. discriminate.
Defined.

(** X4. What a constructor call gives its caller is decided by the
    validations of its arguments alone, run in the order name, email, rate,
    field of the variant: the first that raises is what the call raises, and
    the new instance is returned when none does.  The verdict of a setter on
    a value does not depend on the instance or on the world. *)
Theorem construction_raises_first_failure `{Interpreter} (c : ctor) (w : world) :
  fst (construct c w)
  = (first_error (checks c) ≫= λ _, Ok (length (heap w)))
  ∧ (is_ok (fst (construct c w)) = true ↔
       Forall (λ fv, validate (fst fv) (snd fv) = Ok tt) (checks c))
  ∧ ∀ f self v w1, fst (setter f self v w1) = validate f v.
Proof.
  split; [apply construct_outcome|]. split.
  - rewrite construct_outcome.
    assert (Hall : ∀ l, is_ok (first_error l ≫= λ _, Ok (length (heap w))) = true
                  ↔ Forall (λ fv, validate (fst fv) (snd fv) = Ok tt) l).
    { induction l as [|[f v] l IH]; cbn [first_error].
      - split; [constructor|reflexivity].
      - rewrite Forall_cons. cbn [fst snd]. rewrite <- IH.
        destruct (validate f v) as [[]|x]; cbn [mbind outcome_bind].
        + split; [intros E; split; [reflexivity|exact E]|intros [_ E]; exact E].
        + split; [discriminate|intros [E _]; discriminate]. }
    apply Hall.
  - intros f self v w1. rewrite setter_eq. destruct (validate f v) as [[]|x]; reflexivity.
Qed.

(** X5. The identity counter counts the constructions whose name and email
    passed, whether or not they then failed on a later field: after any
    session it stands at its start value plus their number.  Assignments
    and constructions refused on the name or the email do not move it. *)
Theorem counter_counts_employee_inits `{Interpreter} (cs : list call) (w : world) :
  CURRENT_ID (snd (run cs w)) = CURRENT_ID w + ids_taken cs.
Proof.
  revert w. induction cs as [|c cs IH]; intros w; [cbn; lia|].
  rewrite run_cons. cbn [snd]. rewrite IH.
  destruct (exec c w) as [r w1] eqn:E. cbn [snd].
  destruct c as [k|f self v]; cbn [ids_taken exec] in *;
    unfold mbind, M_bind, mret, M_ret in E.
  - destruct (construct k w) as [r0 w0] eqn:Ek.
    assert (w1 = w0) as -> by (destruct r0; congruence).
    destruct (construct_frame k w w0 r0 Ek) as (_ & _ & Hc & _).
    rewrite Hc. destruct (employee_ok k); lia.
  - destruct (assign_cases f self v w) as [[e E']|(a & v' & _ & E')];
      rewrite E' in E; injection E as _ <-; [lia|].
    rewrite store_CURRENT_ID. lia.
Qed.

(** ** The new instance *)

Lemma read_allocated (c : cls) (w : world) (a : string) :
  read (length (heap w)) a (allocated c w) = None.
Proof. unfold read. rewrite allocated_new. reflexivity. Qed.

Ltac setter_form :=
  repeat match goal with
    | H : context [Salaried.set_yearly ?s ?v] |- _ =>
        change (Salaried.set_yearly s v) with (setter f_yearly s v) in H
    | H : context [Hourly.set_hourly ?s ?v] |- _ =>
        change (Hourly.set_hourly s v) with (setter f_hourly s v) in H
    | H : context [Executive.set_role ?s ?v] |- _ =>
        change (Executive.set_role s v) with (setter f_role s v) in H
    | H : context [Manager.set_department ?s ?v] |- _ =>
        change (Manager.set_department s v) with (setter f_department s v) in H
    | H : context [Permanent.set_hired_date ?s ?v] |- _ =>
        change (Permanent.set_hired_date s v) with (setter f_hired_date s v) in H
    | H : context [Temporary.set_last_day ?s ?v] |- _ =>
        change (Temporary.set_last_day s v) with (setter f_last_day s v) in H
    end.

(** Every attribute of an instance a constructor returned. *)
Lemma construct_reads `{Interpreter} (c : ctor) (w w' : world) (self : addr)
    (g : field) :
  construct c w = (Ok self, w') →
  read self (slot g) w' = fresh_read c (CURRENT_ID w) g.
Proof.
  intros E.
  destruct (construct_ok c w w' self E) as (-> & _ & Hown & Hid & Hn & He & Hi & _).
  set (self := length (heap w)) in *.
  set (W := employee_initialised self (ctor_name c) (ctor_email c)
              (allocated (ctor_class c) w)) in *.
  assert (Hlt : (self < length (heap W))%nat).
  { unfold W. rewrite employee_initialised_length, allocated_length. unfold self. lia. }
  assert (Hnone : ∀ a, a ∉ ["_name"; "_email"; "_image"; "id_number"] →
                       read self a W = None).
  { intros a Ha. unfold W, employee_initialised. rewrite read_counter.
    rewrite !read_store_ne by (right; intros ->; apply Ha; repeat constructor).
    apply read_allocated. }
  assert (Hfresh : ∀ f, variant_field f = true → read self (slot f) W = None).
  { intros f Hf. apply Hnone. intros Hin.
    eapply (variant_attr f); [exact Hin|exact Hf|].
    destruct f; first [discriminate Hf|reflexivity]. }
  assert (Hown_case : ∀ f, variant_field f = true →
            read self (slot f) w' = fresh_read c (CURRENT_ID w) f).
  { intros f Hf. pose proof (Hfresh f Hf) as HW.
    destruct c; cbn [own_fields] in Hown; unfold mbind, M_bind in Hown;
      setter_form; rewrite setter_eq in Hown;
      repeat match type of Hown with
        | context [validate ?f ?v] =>
            destruct (validate f v) as [[]|?]; rewrite ?setter_eq in Hown
        end; try discriminate Hown; injection Hown as <-;
      destruct f; try discriminate Hf;
      cbn [fresh_read checks supplied same_field];
      cbn [slot attr field_name append] in *;
      repeat first
        [ rewrite read_store_eq by (rewrite ?store_length; exact Hlt)
        | rewrite read_store_ne by (right; discriminate) ];
      first [reflexivity | exact HW]. }
  destruct g; try (apply Hown_case; reflexivity).
  - etransitivity; [exact Hn|]. destruct c; reflexivity.
  - etransitivity; [exact He|]. destruct c; reflexivity.
  - exact Hi.
  - exact Hid.
Qed.

(** X6. On the instance a constructor returned, every getter is accounted
    for: name, email, rate and the field of the variant read back as
    supplied (a date as parsed), the image is the placeholder, the identity
    is the counter's value before the call, and the getter of a property of
    another variant raises [AttributeError]. *)
Theorem new_instance_getters `{Interpreter} (c : ctor) (w w' : world)
    (self : addr) :
  construct c w = (Ok self, w') →
  ∀ g, fst (getter g self w')
       = match fresh_read c (CURRENT_ID w) g with
         | Some v => Ok v
         | None => builtin_error AttributeError
         end.
Proof.
  intros E g. rewrite getter_read. cbn [fst].
  rewrite (construct_reads c w w' self g E). reflexivity.
Qed.

Lemma new_instance_getters_witness :
  @construct cpython312 dave initial_world = (Ok 0%nat, dave_world)
  ∧ fst (getter f_department 0 dave_world) = Ok (VDepartment HR)
  ∧ fst (getter f_image 0 dave_world) = Ok (VStr IMAGE_PLACEHOLDER)
  ∧ fst (getter f_hourly 0 dave_world) = builtin_error AttributeError.
Proof.
  assert (E : @construct cpython312 dave initial_world = (Ok 0%nat, dave_world))
    by (vm_compute; reflexivity).
  split; [exact E|].
  split; [exact (@new_instance_getters cpython312 dave _ _ _ E f_department)|].
  split; [exact (@new_instance_getters cpython312 dave _ _ _ E f_image)|].
  exact (@new_instance_getters cpython312 dave _ _ _ E f_hourly).
Defined.

(** X7. The diagnostic form of the instance a constructor returned: the
    tuple of name, email and image as [str] prints it, then the rate; an
    Executive adds its role after a comma, a Permanent or Temporary its date
    as [str] prints a datetime; a Manager adds nothing.  The identity is
    never part of it, and producing it changes nothing. *)
Theorem repr_of_new_instance `{Interpreter} (c : ctor) (w w' : world)
    (self : addr) :
  construct c w = (Ok self, w') → repr self w' = (Ok (diagnostic c), w').
Proof.
  intros E.
  destruct (construct_ok c w w' self E) as (_ & _ & _ & _ & _ & _ & _ & Hcls).
  pose proof (construct_reads c w w' self f_name E) as Hn.
  pose proof (construct_reads c w w' self f_email E) as He.
  pose proof (construct_reads c w w' self f_image E) as Hi.
  pose proof (construct_reads c w w' self f_yearly E) as Hy.
  pose proof (construct_reads c w w' self f_hourly E) as Hh.
  pose proof (construct_reads c w w' self f_role E) as Hr.
  pose proof (construct_reads c w w' self f_hired_date E) as Hd.
  pose proof (construct_reads c w w' self f_last_day E) as Hl.
  repeat match goal with
    | H : context [slot ?f] |- _ =>
        let a := eval vm_compute in (slot f) in change (slot f) with a in H
    end.
  unfold repr, mbind at 1, M_bind at 1.
  destruct c; cbn [ctor_class] in Hcls;
    (erewrite dispatch_class; [|exact Hcls|reflexivity]);
    cbn [fresh_read checks supplied same_field fmap option_fmap option_map
         normalise] in *;
    unfold Executive.__repr__, Permanent.__repr__, Temporary.__repr__,
      Salaried.__repr__, Hourly.__repr__, Employee.__repr__,
      Employee.name, Employee.email, Employee.image, Salaried.yearly,
      Hourly.hourly, Executive.role, Permanent.hired_date, Temporary.last_day,
      mbind, M_bind, mret, M_ret;
    repeat (rewrite getattr_read; rewrite ?Hn, ?He, ?Hi, ?Hy, ?Hh, ?Hr, ?Hd, ?Hl);
    reflexivity.
Qed.

Lemma repr_of_new_instance_witness :
  @construct cpython312 frank initial_world = (Ok 0%nat, frank_world)
  ∧ repr 0 frank_world = (Ok (diagnostic frank), frank_world).
Proof.
  assert (E : @construct cpython312 frank initial_world = (Ok 0%nat, frank_world))
    by (vm_compute; reflexivity).
  split; [exact E|]. apply (@repr_of_new_instance cpython312 frank _ _ _ E).
Defined.

(** ** Dates: what parses and what does not *)

(** A text in the shape [YYYY-MM-DD] parses exactly when it names a
    calendar date. *)
Lemma iso_date_strptime (y m d : Z) :
  0 ≤ y ≤ 9999 → 1 ≤ m ≤ 12 → 1 ≤ d ≤ 31 →
  Strptime.strptime (iso_date y m d)
  = if Strptime.valid_date y m d then Ok (mk_datetime y m d 0 0 0)
    else Raise value_error.
Proof.
  intros Hy Hm Hd.
  pose proof (four_digits_value y ltac:(lia)) as HY.
  assert (Hd1 : 0 ≤ y / 1000 < 0 + 10)
    by (split; [apply Z.div_pos|apply Z.div_lt_upper_bound]; lia).
  assert (Hd2 : 0 ≤ y / 100 mod 10 < 0 + 10) by (apply Z.mod_pos_bound; lia).
  assert (Hd3 : 0 ≤ y / 10 mod 10 < 0 + 10) by (apply Z.mod_pos_bound; lia).
  assert (Hd4 : 0 ≤ y mod 10 < 0 + 10) by (apply Z.mod_pos_bound; lia).
  pose proof (two_digits_value m ltac:(lia)) as HM. apply bool_decide_eq_true in HM.
  pose proof (two_digits_value d ltac:(lia)) as HD. apply bool_decide_eq_true in HD.
  unfold Strptime.strptime, Strptime.re_match, Strptime.format_regex.
  cbn [Strptime.rmatch]. unfold iso_date.
  change (four_digits y +:+ "-" +:+ two_digits m +:+ "-" +:+ two_digits d)
    with (String (digit_char (y / 1000))
            (String (digit_char (y / 100 mod 10))
               (String (digit_char (y / 10 mod 10))
                  (String (digit_char (y mod 10))
                     ("-" +:+ two_digits m +:+ "-" +:+ two_digits d))))).
  rewrite year_group by (apply in_range_digit; assumption).
  change (String (digit_char (y / 1000)) _) with (four_digits y).
  pose proof (month_day_groups (<["Y" := four_digits y]> ∅) m ltac:(lia) d
                ltac:(lia)) as Hmd.
  cbn [Strptime.rmatch] in Hmd. rewrite Hmd. cbn [String.eqb negb].
  rewrite (lookup_insert_ne _ "d" "Y") by discriminate.
  rewrite (lookup_insert_ne _ "m" "Y") by discriminate.
  rewrite lookup_insert_eq.
  rewrite (lookup_insert_ne _ "d" "m") by discriminate.
  rewrite !lookup_insert_eq.
  cbn [mbind option_bind]. rewrite HY, HM, HD. reflexivity.
Qed.

(** A match leaves all of the text but what the expression can take. *)
Lemma rmatch_consumes {A} (r : Strptime.regex) :
  ∀ (s : string) (g : gmap string string)
    (k : string → gmap string string → option A) (x : A),
  Strptime.rmatch r s g k = Some x →
  ∃ s' g', k s' g' = Some x
           ∧ (String.length s ≤ String.length s' + max_length r)%nat.
Proof.
  induction r as [c|lo hi|r1 IH1 r2 IH2|r1 IH1 r2 IH2|name r1 IH1];
    intros s g k x E; cbn [Strptime.rmatch max_length] in *.
  - destruct s as [|c' s']; [discriminate|].
    destruct (bool_decide _); [|discriminate].
    exists s', g. split; [exact E|cbn; lia].
  - destruct s as [|c' s']; [discriminate|].
    destruct (Strptime.in_range lo hi c'); [|discriminate].
    exists s', g. split; [exact E|cbn; lia].
  - apply IH1 in E as (s1 & g1 & E & H1).
    apply IH2 in E as (s2 & g2 & E & H2).
    exists s2, g2. split; [exact E|lia].
  - destruct (Strptime.rmatch r1 s g k) as [y|] eqn:E1.
    + injection E as ->. apply IH1 in E1 as (s1 & g1 & E1 & H1).
      exists s1, g1. split; [exact E1|lia].
    + apply IH2 in E as (s2 & g2 & E & H2).
      exists s2, g2. split; [exact E|lia].
  - apply IH1 in E as (s1 & g1 & E & H1). eauto.
Qed.

(** No text of more than ten characters parses. *)
Lemma strptime_long (data : string) :
  (10 < String.length data)%nat → Strptime.strptime data = Raise value_error.
Proof.
  intros Hlen. unfold Strptime.strptime, Strptime.re_match.
  destruct (Strptime.rmatch _ data ∅ _) as [[rest g]|] eqn:E; [|reflexivity].
  apply rmatch_consumes in E as (s' & g' & E & Hs). injection E as -> ->.
  change (max_length Strptime.format_regex) with 10%nat in Hs.
  destruct rest; [cbn in Hs; lia|reflexivity].
Qed.

Lemma zeros_length (n : nat) : String.length (zeros n) = n.
Proof. induction n as [|n IH]; cbn; [reflexivity|]. rewrite IH. reflexivity. Qed.

Lemma zero_pad_length (w : nat) (n : Z) : (w ≤ String.length (zero_pad w n))%nat.
Proof. unfold zero_pad. cbv zeta. rewrite string_length_app, zeros_length. lia. Qed.

Lemma datetime_str_long (d : datetime) : (10 < String.length (datetime_str d))%nat.
Proof.
  unfold datetime_str. rewrite !string_length_app.
  pose proof (zero_pad_length 4 (dt_year d)).
  pose proof (zero_pad_length 2 (dt_month d)).
  pose proof (zero_pad_length 2 (dt_day d)).
  cbn [String.length]. lia.
Qed.

(** X8. A text in the shape [YYYY-MM-DD] is accepted by both date setters
    exactly when it names a calendar date in the years 1 to 9999, and the
    date stored is that date at midnight: year 0000, a day the month does
    not have, and February 29 outside a leap year raise [ValueError] and
    leave the world as it was. *)
Theorem well_formed_date_accepted_iff_calendar (y m d : Z) (self : addr)
    (w : world) :
  0 ≤ y ≤ 9999 → 1 ≤ m ≤ 12 → 1 ≤ d ≤ 31 →
  Permanent.set_hired_date self (VStr (iso_date y m d)) w
  = (if Strptime.valid_date y m d
     then (Ok tt, store self "_hired_date" (VDatetime (mk_datetime y m d 0 0 0)) w)
     else (Raise value_error, w))
  ∧ Temporary.set_last_day self (VStr (iso_date y m d)) w
    = (if Strptime.valid_date y m d
       then (Ok tt, store self "_last_day" (VDatetime (mk_datetime y m d 0 0 0)) w)
       else (Raise value_error, w))
  ∧ Strptime.valid_date y m d
    = (1 <=? y) && (d <=? Strptime.days_in_month y m)
  ∧ (m = 2 → d = 29 → Strptime.valid_date y m d = (1 <=? y) && Strptime.is_leap y).
Proof.
  intros Hy Hm Hd.
  pose proof (iso_date_strptime y m d Hy Hm Hd) as Hp.
  split; [|split; [|split]].
  - rewrite set_hired_date_eq. cbn [py_str]. rewrite Hp.
    destruct (Strptime.valid_date y m d); reflexivity.
  - rewrite set_last_day_eq. cbn [py_str]. rewrite Hp.
    destruct (Strptime.valid_date y m d); reflexivity.
  - unfold Strptime.valid_date.
    replace (y <=? 9999) with true by (symmetry; apply Z.leb_le; lia).
    replace (1 <=? m) with true by (symmetry; apply Z.leb_le; lia).
    replace (m <=? 12) with true by (symmetry; apply Z.leb_le; lia).
    replace (1 <=? d) with true by (symmetry; apply Z.leb_le; lia).
    rewrite !andb_true_r. reflexivity.
  - intros -> ->. unfold Strptime.valid_date, Strptime.days_in_month.
    replace (y <=? 9999) with true by (symmetry; apply Z.leb_le; lia).
    cbn. rewrite !andb_true_r. destruct (Strptime.is_leap y); reflexivity.
Qed.

Lemma well_formed_date_accepted_iff_calendar_witness :
  0 ≤ 2023 ≤ 9999 ∧ 1 ≤ 2 ≤ 12 ∧ 1 ≤ 29 ≤ 31
  ∧ Permanent.set_hired_date 0 (VStr (iso_date 2023 2 29)) office
    = (Raise value_error, office).
Proof.
  split; [lia|]. split; [lia|]. split; [lia|].
  destruct (well_formed_date_accepted_iff_calendar 2023 2 29 0%nat office)
    as [Hw _]; [lia|lia|lia|].
  rewrite Hw. reflexivity.
Defined.

(** X9. What the date getters return cannot be assigned back: the text of a
    datetime is longer than the ten characters the format takes, so both
    date setters raise [ValueError] on every datetime, as on every value
    whose text is longer than ten characters, and leave the world as it was.
    In particular [p.hired_date = p.hired_date] raises in every reachable
    world. *)
Theorem date_getter_value_not_assignable (self : addr) (w : world) :
  (∀ v, (10 < String.length (py_str v))%nat →
     Permanent.set_hired_date self v w = (Raise value_error, w)
     ∧ Temporary.set_last_day self v w = (Raise value_error, w))
  ∧ (∀ d, Permanent.set_hired_date self (VDatetime d) w = (Raise value_error, w)
          ∧ Temporary.set_last_day self (VDatetime d) w = (Raise value_error, w))
  ∧ (∀ (I : Interpreter) cs a u,
       fst (getter f_hired_date a (snd (run cs initial_world))) = Ok u →
       Permanent.set_hired_date self u w = (Raise value_error, w))
  ∧ (∀ (I : Interpreter) cs a u,
       fst (getter f_last_day a (snd (run cs initial_world))) = Ok u →
       Temporary.set_last_day self u w = (Raise value_error, w)).
Proof.
  assert (Hlong : ∀ v, (10 < String.length (py_str v))%nat →
     Permanent.set_hired_date self v w = (Raise value_error, w)
     ∧ Temporary.set_last_day self v w = (Raise value_error, w)).
  { intros v Hv. rewrite set_hired_date_eq, set_last_day_eq.
    rewrite (strptime_long _ Hv). split; reflexivity. }
  assert (Hdt : ∀ d,
     Permanent.set_hired_date self (VDatetime d) w = (Raise value_error, w)
     ∧ Temporary.set_last_day self (VDatetime d) w = (Raise value_error, w)).
  { intros d. apply Hlong. cbn [py_str]. apply datetime_str_long. }
  assert (Hback : ∀ (I : Interpreter) f cs a u,
     f = f_hired_date ∨ f = f_last_day →
     fst (getter f a (snd (run cs initial_world))) = Ok u → ∃ d, u = VDatetime d).
  { intros I f cs a u Hf E. rewrite getter_read in E. cbn [fst] in E.
    destruct (read a (slot f) _) as [u'|] eqn:Er; [|discriminate].
    injection E as ->. unfold read in Er.
    destruct (heap _ !! a) as [o|] eqn:Ho; [|discriminate].
    destruct (well_typed_run cs initial_world well_typed_initial) as [_ Hw].
    specialize (Hw _ _ _ _ Ho Er).
    destruct Hf as [-> | ->]; destruct u; try discriminate Hw; eauto. }
  split; [exact Hlong|]. split; [exact Hdt|]. split.
  - intros I cs a u E. destruct (Hback I f_hired_date cs a u (or_introl eq_refl) E)
      as [d ->]. apply Hdt.
  - intros I cs a u E. destruct (Hback I f_last_day cs a u (or_intror eq_refl) E)
      as [d ->]. apply Hdt.
Qed.

(** X10. The three string setters, on every kind of value.  The empty
    string is refused as blank; any other string is stored by [name] and
    [image], and by [email] when it holds the domain (anywhere in it, the
    message about ending notwithstanding); every value that is not a
    string is refused as needing to be a string.  The blank test comes
    first, the type test second, the domain test last; nothing but
    [ValueError] is ever raised and a refusal leaves the world as it was. *)
Theorem string_setters_verdict (self : addr) (v : value) (w : world) :
  Employee.set_name self v w
  = match v with
    | VStr "" => (Raise (value_error_with "Name cannot be blank."), w)
    | VStr _ => (Ok tt, store self "_name" v w)
    | _ => (Raise (value_error_with "Name needs to be a string."), w)
    end
  ∧ Employee.set_image self v w
    = match v with
      | VStr "" => (Raise (value_error_with "Image path cannot be blank."), w)
      | VStr _ => (Ok tt, store self "_image" v w)
      | _ => (Raise (value_error_with "Image needs to be a string."), w)
      end
  ∧ Employee.set_email self v w
    = match v with
      | VStr "" => (Raise (value_error_with "Email cannot be blank."), w)
      | VStr s =>
          if contains domain s then (Ok tt, store self "_email" v w)
          else (Raise (value_error_with
                         "Email needs to end with @acme-machining.com"), w)
      | _ => (Raise (value_error_with "Email needs to be a string."), w)
      end.
Proof.
  repeat split; destruct v as [ |b|n|x|s|r|d|d]; try reflexivity.
  - destruct s; reflexivity.
  - destruct s; reflexivity.
  - destruct s as [|c s]; [reflexivity|].
    unfold Employee.set_email, mbind, M_bind, lift, raise, setattr.
    cbn [py_eq as_number String.eqb isinstance negb py_in_str].
    change "@acme-machining.com" with domain.
    destruct (contains domain (String c s)); reflexivity.
Qed.

(** X11. The two numeric setters, on every kind of value.  What is not a
    number ([None], a string, an enumeration member, a datetime) raises
    [TypeError] out of the comparison.  A boolean is refused as out of
    range by both.  An integer salary is refused whatever it is: below
    50000 as out of range, from 50000 on for not being a float.  An integer
    wage is stored from 15 to 99 and refused as out of range otherwise.  A
    float is stored unless a range test holds of it.  So on these values
    the hourly setter never says that the wage needs to be an integer or a
    float. *)
Theorem numeric_setters_verdict (self : addr) (v : value) (w : world) :
  Salaried.set_yearly self v w
  = match v with
    | VBool _ => (Raise (value_error_with yearly_range_message), w)
    | VInt n =>
        if n <? 50000
        then (Raise (value_error_with yearly_range_message), w)
        else (Raise (value_error_with "Yearly needs to be an float."), w)
    | VFloat x =>
        if float_below x 0 || float_below x 50000
        then (Raise (value_error_with yearly_range_message), w)
        else (Ok tt, store self "_yearly" v w)
    | _ => (Raise type_error, w)
    end
  ∧ Hourly.set_hourly self v w
    = match v with
      | VBool _ => (Raise (value_error_with hourly_range_message), w)
      | VInt n =>
          if (15 <=? n) && (n <=? 99)
          then (Ok tt, store self "_hourly" v w)
          else (Raise (value_error_with hourly_range_message), w)
      | VFloat x =>
          if float_below x 15 || float_above_maximum x
          then (Raise (value_error_with hourly_range_message), w)
          else (Ok tt, store self "_hourly" v w)
      | _ => (Raise type_error, w)
      end
  ∧ ∀ e, fst (Hourly.set_hourly self v w) = Raise e →
         exc_message e ≠ Some "Hourly needs to be either an integer or a float.".
Proof.
  assert (Hh : Hourly.set_hourly self v w
    = match v with
      | VBool _ => (Raise (value_error_with hourly_range_message), w)
      | VInt n =>
          if (15 <=? n) && (n <=? 99)
          then (Ok tt, store self "_hourly" v w)
          else (Raise (value_error_with hourly_range_message), w)
      | VFloat x =>
          if float_below x 15 || float_above_maximum x
          then (Raise (value_error_with hourly_range_message), w)
          else (Ok tt, store self "_hourly" v w)
      | _ => (Raise type_error, w)
      end).
  { unfold Hourly.set_hourly, mbind, M_bind, lift, raise, setattr.
    destruct v as [ |b|n|x|s|r|d|d]; try reflexivity.
    - destruct b; vm_compute; reflexivity.
    - rewrite hourly_int_range.
      destruct ((15 <=? n) && (n <=? 99)); reflexivity.
    - unfold py_or, py_lt, py_gt, float_below, float_above_maximum.
      cbn [as_number num_compare mbind outcome_bind].
      destruct (PyFloat.compare_Z x 15) as [[]|];
        destruct (SFcompare x (PyFloat.literal 9999 2)) as [[]|]; reflexivity. }
  split; [|split; [exact Hh|]].
  - unfold Salaried.set_yearly, mbind, M_bind, lift, raise, setattr.
    destruct v as [ |b|n|x|s|r|d|d]; try reflexivity.
    + destruct b; reflexivity.
    + unfold py_or, py_lt.
      cbn [as_number num_compare mbind outcome_bind isinstance negb].
      destruct (Z.ltb_spec n 50000) as [Hlt|Hge].
      * destruct (n ?= 0); [| reflexivity |];
          (replace (n ?= 50000) with Lt by (symmetry; apply Z.compare_lt_iff, Hlt));
          reflexivity.
      * replace (n ?= 0) with Gt by (symmetry; apply Z.compare_gt_iff; lia).
        destruct (Z.compare_spec n 50000); [reflexivity|lia|reflexivity].
    + unfold py_or, py_lt, float_below.
      cbn [as_number num_compare mbind outcome_bind].
      destruct (PyFloat.compare_Z x 0) as [[]|];
        destruct (PyFloat.compare_Z x 50000) as [[]|]; reflexivity.
  - intros e E. rewrite Hh in E.
    destruct v as [ |b|n|x|s|r|d|d]; cbn [fst] in E;
      repeat match type of E with
        | context [if ?b then _ else _] => destruct b
        end; cbn [fst] in E; try discriminate E;
      injection E as <-; discriminate.
Qed.

(** ** Instances stay usable *)

Ltac literal_slots :=
  repeat match goal with
    | H : context [slot ?f] |- _ =>
        let a := eval vm_compute in (slot f) in change (slot f) with a in H
    end.

Section Lifetime.
Context `{Interpreter}.

(** No call removes an attribute of an instance or changes its class. *)
Lemma exec_keeps_attribute (c : call) (w w' : world) (r : outcome (option addr))
    (a : addr) (k : string) (v : value) :
  exec c w = (r, w') → read a k w = Some v →
  (∃ v', read a k w' = Some v')
  ∧ ob_class <$> heap w' !! a = ob_class <$> heap w !! a.
Proof.
  intros E Hr.
  assert (Hlt : (a < length (heap w))%nat).
  { unfold read in Hr. destruct (heap w !! a) as [o|] eqn:Ho; [|discriminate].
    eapply lookup_lt_Some, Ho. }
  destruct c as [q|f self u]; cbn [exec] in E;
    unfold mbind, M_bind, mret, M_ret in E.
  - destruct (construct q w) as [r0 w1] eqn:Eq.
    assert (w' = w1) as -> by (destruct r0; congruence).
    destruct (construct_frame q w w1 r0 Eq) as (Hold & _).
    destruct (lookup_lt_is_Some_2 _ _ Hlt) as [o Ho].
    unfold read in *. rewrite (Hold _ _ Ho), Ho in *. eauto.
  - destruct (assign_cases f self u w) as [[e E']|(b & u' & _ & E')];
      rewrite E' in E; injection E as _ <-; [eauto|].
    split; [|apply class_store].
    destruct (decide (a = self ∧ k = b)) as [[-> ->]|Hne].
    + exists u'. apply read_store_eq, Hlt.
    + exists v. rewrite read_store_ne; [exact Hr|].
      destruct (decide (a = self)) as [->|]; [right|left; assumption].
      intros ->. apply Hne. split; reflexivity.
Qed.

Lemma run_keeps_attribute (cs : list call) (w : world) (a : addr) (k : string)
    (v : value) :
  read a k w = Some v →
  (∃ v', read a k (snd (run cs w)) = Some v')
  ∧ ob_class <$> heap (snd (run cs w)) !! a = ob_class <$> heap w !! a.
Proof.
  revert w v. induction cs as [|c cs IH]; intros w v Hr; [eauto|].
  rewrite run_cons. cbn [snd].
  destruct (exec c w) as [r w1] eqn:E. cbn [snd].
  destruct (exec_keeps_attribute c w w1 r a k v E Hr) as [[v1 H1] Hc].
  destruct (IH w1 v1 H1) as [Hv Hc']. split; [exact Hv|].
  rewrite Hc'. exact Hc.
Qed.

End Lifetime.

(** X12. An instance a constructor returned stays usable for the rest of
    the process: whatever calls follow, accepted or not, every getter of a
    property of its class returns a value, [calc_pay()] returns a number,
    and the short and the diagnostic forms are produced. *)
Theorem instance_stays_usable `{Interpreter} (before after : list call)
    (c : ctor) (self : addr) (w1 : world) :
  construct c (snd (run before initial_world)) = (Ok self, w1) →
  (∀ g, bool_decide (field_owner g ∈ mro (ctor_class c)) = true →
        is_ok (fst (getter g self (snd (run after w1)))) = true)
  ∧ (∃ pay, fst (calc_pay self (snd (run after w1))) = Ok pay
            ∧ isinstance pay t_int || isinstance pay t_float = true)
  ∧ is_ok (fst (str self (snd (run after w1)))) = true
  ∧ is_ok (fst (repr self (snd (run after w1)))) = true.
Proof.
  intros E. set (w0 := snd (run before initial_world)) in *.
  set (w2 := snd (run after w1)).
  assert (Hw2 : well_typed w2).
  { apply well_typed_run. eapply well_typed_construct; [|exact E].
    apply well_typed_run, well_typed_initial. }
  destruct (construct_ok c w0 w1 self E) as (_ & _ & _ & _ & _ & _ & _ & Hcls).
  assert (Hpresent : ∀ g, bool_decide (field_owner g ∈ mro (ctor_class c)) = true →
            ∃ v, read self (slot g) w2 = Some v ∧ field_valid g v = true).
  { intros g Hg.
    assert (∃ v1, read self (slot g) w1 = Some v1) as [v1 H1].
    { rewrite (construct_reads c w0 w1 self g E).
      destruct c, g; try discriminate Hg; cbn; eauto. }
    destruct (run_keeps_attribute after w1 self _ v1 H1) as [[v Hv] _].
    fold w2 in Hv. exists v. split; [exact Hv|].
    destruct Hw2 as [_ Hw2]. unfold read in Hv.
    destruct (heap w2 !! self) as [o|] eqn:Ho; [|discriminate Hv].
    eapply Hw2; [exact Ho|exact Hv]. }
  assert (Hcls2 : ob_class <$> heap w2 !! self = Some (ctor_class c)).
  { destruct (Hpresent f_name) as (v & Hv & _); [destruct c; reflexivity|].
    destruct (run_keeps_attribute after w1 self "_name" (ctor_name c)) as [_ Hc].
    - destruct (construct_ok c w0 w1 self E) as (_ & _ & _ & _ & Hn & _).
      exact Hn.
    - fold w2 in Hc. rewrite Hc. exact Hcls. }
  split; [|split; [|split]].
  - intros g Hg. destruct (Hpresent g Hg) as (v & Hv & _).
    rewrite getter_read, Hv. reflexivity.
  - unfold calc_pay.
    destruct (rooted_cases c) as [(Hs & _ & Hres)|(_ & Hh & Hres)];
      rewrite (dispatch_class _ _ _ _ _ Hcls2 Hres).
    + destruct (Hpresent f_yearly) as (v & Hv & Hval).
      { destruct c; first [reflexivity|discriminate Hs]. }
      destruct v as [ | | |x| | | | ]; try discriminate Hval.
      rewrite (Salaried_calc_pay_float _ _ _ Hv). eexists. split; reflexivity.
    + destruct (Hpresent f_hourly) as (v & Hv & Hval).
      { destruct c; first [reflexivity|discriminate Hh]. }
      rewrite (Hourly_calc_pay_value _ _ _ Hv).
      destruct v as [ | |n|x| | | | ]; try discriminate Hval;
        eexists; split; reflexivity.
  - destruct (Hpresent f_name) as (n & Hn & Hnv); [destruct c; reflexivity|].
    destruct (Hpresent f_id) as (i & Hi & _); [destruct c; reflexivity|].
    assert (Hres : resolve own_str (ctor_class c) = Some Employee.__str__)
      by (destruct c; reflexivity).
    unfold str. rewrite (dispatch_class _ _ _ _ _ Hcls2 Hres).
    unfold Employee.__str__, Employee.name, mbind, M_bind.
    literal_slots. rewrite !getattr_read, Hi, Hn.
    destruct n; try discriminate Hnv. reflexivity.
  - destruct (Hpresent f_name) as (n & Hn & _); [destruct c; reflexivity|].
    destruct (Hpresent f_email) as (e & He & _); [destruct c; reflexivity|].
    destruct (Hpresent f_image) as (i & Hi & _); [destruct c; reflexivity|].
    assert (Hsome : ∀ g, bool_decide (field_owner g ∈ mro (ctor_class c)) = true →
              ∃ v, read self (slot g) w2 = Some v).
    { intros g Hg. destruct (Hpresent g Hg) as (v & Hv & _). eauto. }
    clear Hpresent. literal_slots.
    unfold repr, mbind at 1, M_bind at 1.
    destruct c; cbn [ctor_class] in Hcls2, Hsome;
      (erewrite dispatch_class; [|exact Hcls2|reflexivity]);
      unfold Executive.__repr__, Permanent.__repr__, Temporary.__repr__,
        Salaried.__repr__, Hourly.__repr__, Employee.__repr__,
        Employee.name, Employee.email, Employee.image, Salaried.yearly,
        Hourly.hourly, Executive.role, Permanent.hired_date, Temporary.last_day,
        mbind, M_bind, mret, M_ret;
      repeat match goal with
        | |- context [getattr self ?a w2] =>
            let Hx := fresh "Hx" in
            let x := fresh "x" in
            assert (∃ x, read self a w2 = Some x) as [x Hx]
              by (first
                [ eexists; eassumption
                | exact (Hsome f_yearly eq_refl)
                | exact (Hsome f_hourly eq_refl)
                | exact (Hsome f_role eq_refl)
                | exact (Hsome f_hired_date eq_refl)
                | exact (Hsome f_last_day eq_refl) ]);
            rewrite (getattr_read self a w2), Hx
        end; reflexivity.
Qed.

Lemma instance_stays_usable_witness :
  ∃ w1,
    @construct cpython312 alice (snd (@run cpython312 [Construct bob] initial_world))
    = (Ok 1%nat, w1)
    ∧ is_ok (fst (repr 1%nat
        (snd (@run cpython312
           [Assign f_yearly 1%nat (VStr "60000"); Construct underpaid;
            Assign f_name 1%nat (VStr "")] w1)))) = true.
Proof.
  exists (snd (@construct cpython312 alice
                 (snd (@run cpython312 [Construct bob] initial_world)))).
  split; [vm_compute; reflexivity|].
  apply (@instance_stays_usable cpython312 [Construct bob]
           [Assign f_yearly 1%nat (VStr "60000"); Construct underpaid;
            Assign f_name 1%nat (VStr "")] alice 1%nat).
  vm_compute. reflexivity.
Defined.

(** ** Round trip through a property *)

(** X13. An assignment to a property of the instance's class that goes
    through is what the getter returns afterwards, and what it returns is a
    value the setter lets through.  For every property but the dates the
    getter returns the value assigned; for the two dates it returns the
    parsed datetime, which is never the value assigned. *)
Theorem accepted_assignment_reads_back `{Interpreter} (f : field) (self : addr)
    (v : value) (w w' : world) (o : object) :
  heap w !! self = Some o →
  bool_decide (field_owner f ∈ mro (ob_class o)) = true →
  assign f self v w = (Ok tt, w') →
  fst (getter f self w') = Ok (normalise f v)
  ∧ field_valid f (normalise f v) = true
  ∧ (f ≠ f_hired_date → f ≠ f_last_day → normalise f v = v)
  ∧ (f = f_hired_date ∨ f = f_last_day →
     ∃ d, Strptime.strptime (py_str v) = Ok d
          ∧ normalise f v = VDatetime d ∧ normalise f v ≠ v).
Proof.
  intros Ho Hown E. rewrite assign_eq, Ho, Hown, setter_eq in E.
  destruct (validate f v) as [[]|e] eqn:Ev; [|discriminate E].
  injection E as <-. split; [|split; [|split]].
  - rewrite getter_read. cbn [fst].
    rewrite read_store_eq by (eapply lookup_lt_Some; exact Ho). reflexivity.
  - apply validate_valid, Ev.
  - intros H1 H2. destruct f; first [reflexivity|contradiction].
  - assert (Hparse : Strptime.strptime (py_str v) ≠ Raise value_error →
              ∃ d, Strptime.strptime (py_str v) = Ok d
                   ∧ VDatetime d ≠ v).
    { intros Hne. destruct (Strptime.strptime (py_str v)) as [d|e] eqn:Es.
      - exists d. split; [reflexivity|]. intros <-.
        cbn [py_str] in Es.
        rewrite (strptime_long _ (datetime_str_long d)) in Es. discriminate Es.
      - apply strptime_raises_ValueError in Es as ->.
        contradiction. }
    intros [-> | ->]; unfold validate in Ev; cbn [setter] in Ev.
    + rewrite set_hired_date_eq in Ev. cbn [normalise].
      destruct Hparse as (d & Es & Hd).
      { intros Es. rewrite Es in Ev. discriminate Ev. }
      exists d. rewrite Es. auto.
    + rewrite set_last_day_eq in Ev. cbn [normalise].
      destruct Hparse as (d & Es & Hd).
      { intros Es. rewrite Es in Ev. discriminate Ev. }
      exists d. rewrite Es. auto.
Qed.

Lemma accepted_assignment_reads_back_witness :
  @assign cpython312 f_hourly 0%nat (VInt 30) office
  = (Ok tt, snd (@assign cpython312 f_hourly 0%nat (VInt 30) office))
  ∧ fst (getter f_hourly 0
           (snd (@assign cpython312 f_hourly 0%nat (VInt 30) office)))
    = Ok (VInt 30).
Proof.
  split; [vm_compute; reflexivity|].
  let r := eval vm_compute in (heap office !! 0%nat) in
  match r with
  | Some ?o =>
      apply (@accepted_assignment_reads_back cpython312 f_hourly 0%nat (VInt 30)
               office _ o)
  end; vm_compute; reflexivity.
Defined.

(** ** Attributes that are no property *)

Lemma dispatch_same_instance {T} (own : cls → option (addr → M T))
    (a : addr) (w w' : world) :
  same_instance a w w' →
  (∀ k method, resolve own k = Some method →
     fst (method a w') = fst (method a w)) →
  fst (dispatch own a w') = fst (dispatch own a w).
Proof.
  intros [Hc _] Hm.
  unfold dispatch, mbind, M_bind, class_of.
  destruct (heap w' !! a) as [o'|], (heap w !! a) as [o|];
    cbn in Hc; try discriminate Hc; [|reflexivity].
  injection Hc as ->.
  destruct (resolve own (ob_class o)) as [method|] eqn:Er; [|reflexivity].
  apply (Hm _ _ Er).
Qed.

(** Going through a method that only reads properties, in two worlds where
    the properties read the same. *)
Ltac same_reads Hr :=
  pose proof (Hr f_name); pose proof (Hr f_email);
  pose proof (Hr f_image); pose proof (Hr f_id);
  pose proof (Hr f_yearly); pose proof (Hr f_hourly);
  pose proof (Hr f_role); pose proof (Hr f_hired_date);
  pose proof (Hr f_last_day);
  literal_slots;
  unfold Executive.__repr__, Permanent.__repr__, Temporary.__repr__,
    Salaried.__repr__, Hourly.__repr__, Employee.__repr__, Employee.__str__,
    Salaried.calc_pay, Hourly.calc_pay, Employee.calc_pay,
    Employee.name, Employee.email, Employee.image, Salaried.yearly,
    Hourly.hourly, Executive.role, Permanent.hired_date, Temporary.last_day,
    mbind, M_bind, mret, M_ret, lift, builtin_error;
  repeat first
    [ progress cbv beta iota
    | rewrite getattr_read
    | match goal with
      | Hk : read ?a ?k ?w' = read ?a ?k ?w |- context [read ?a ?k ?w'] =>
          rewrite Hk; destruct (read a k w)
      end ];
  try reflexivity.

(** The three methods of an instance return the same in two worlds where
    its properties read the same. *)
Lemma methods_same_instance (a : addr) (w w' : world) :
  same_instance a w w' →
  fst (calc_pay a w') = fst (calc_pay a w)
  ∧ fst (str a w') = fst (str a w)
  ∧ fst (repr a w') = fst (repr a w).
Proof.
  intros Hs. pose proof Hs as [_ Hr]. split; [|split].
  - apply dispatch_same_instance; [exact Hs|].
    intros k method Er.
    destruct k; cbn in Er; injection Er as <-; same_reads Hr.
  - apply dispatch_same_instance; [exact Hs|].
    intros k method Er.
    destruct k; cbn in Er; injection Er as <-; same_reads Hr.
  - assert (Hd : fst (dispatch own_repr a w') = fst (dispatch own_repr a w)).
    { apply dispatch_same_instance; [exact Hs|].
      intros k method Er.
      destruct k; cbn in Er; injection Er as <-; same_reads Hr. }
    unfold repr, mbind, M_bind.
    destruct (dispatch own_repr a w') as [r1 w1], (dispatch own_repr a w) as [r2 w2].
    cbn [fst] in Hd. subst r2. destruct r1 as [[s|t]|e]; reflexivity.
Qed.

(** X14. Assigning, on an instance, a property that only another variant
    has (as [hourly] on a Salaried) is never checked: whatever the value,
    the assignment goes through as a plain attribute.  It moves no counter
    and changes nothing the class of the instance defines: every property
    the instance has, and its [calc_pay], [str] and [repr], return as
    before, as do those of every other instance. *)
Theorem foreign_property_assignment_unchecked `{Interpreter} (f : field)
    (self : addr) (v : value) (w w' : world) (o : object) (r : outcome unit) :
  heap w !! self = Some o →
  bool_decide (field_owner f ∈ mro (ob_class o)) = false →
  assign f self v w = (r, w') →
  r = Ok tt
  ∧ CURRENT_ID w' = CURRENT_ID w
  ∧ (∀ g other o', heap w !! other = Some o' →
       bool_decide (field_owner g ∈ mro (ob_class o')) = true →
       fst (getter g other w') = fst (getter g other w))
  ∧ (∀ other, fst (calc_pay other w') = fst (calc_pay other w)
              ∧ fst (str other w') = fst (str other w)
              ∧ fst (repr other w') = fst (repr other w)).
Proof.
  intros Ho Hown E. rewrite assign_eq, Ho, Hown in E. injection E as <- <-.
  assert (Hr : ∀ other g,
    read other (slot g) (store self (field_name f) v w) = read other (slot g) w).
  { intros other g. apply read_store_ne. right. apply slot_not_plain. }
  split; [reflexivity|]. split; [reflexivity|]. split.
  - intros g other o' _ _. rewrite !getter_read. cbn [fst]. rewrite Hr. reflexivity.
  - intros other. apply methods_same_instance. split; [apply class_store|].
    intros g. apply Hr.
Qed.

Lemma foreign_property_assignment_unchecked_witness :
  fst (@assign cpython312 f_hourly 0%nat (VStr "nothing") dave_world) = Ok tt
  ∧ fst (calc_pay 0%nat
           (snd (@assign cpython312 f_hourly 0%nat (VStr "nothing") dave_world)))
    = fst (calc_pay 0%nat dave_world).
Proof.
  let r := eval vm_compute in (heap dave_world !! 0%nat) in
  match r with
  | Some ?o =>
      destruct (@foreign_property_assignment_unchecked cpython312 f_hourly
                  0%nat (VStr "nothing") dave_world
                  (snd (@assign cpython312 f_hourly 0%nat (VStr "nothing")
                          dave_world))
                  o
                  (fst (@assign cpython312 f_hourly 0%nat (VStr "nothing")
                          dave_world)))
        as (Hr & _ & _ & Hm)
  end; [vm_compute; reflexivity|vm_compute; reflexivity|vm_compute; reflexivity|].
  split; [exact Hr|apply Hm].
Defined.

(** ** Instances do not share state *)

Lemma same_instance_trans (a : addr) (w1 w2 w3 : world) :
  same_instance a w1 w2 → same_instance a w2 w3 → same_instance a w1 w3.
Proof.
  intros [Hc1 Hr1] [Hc2 Hr2]. split; [congruence|].
  intros g. rewrite Hr2. apply Hr1.
Qed.

Lemma exec_same_instance `{Interpreter} (c : call) (w w' : world)
    (r : outcome (option addr)) (a : addr) :
  exec c w = (r, w') → (a < length (heap w))%nat → assigns_to a c = false →
  same_instance a w w'.
Proof.
  intros step Hlt Hc.
  destruct c as [k|f self v]; cbn [exec] in step;
  unfold mbind, M_bind, mret, M_ret in step.
  - destruct (construct k w) as [r0 w1] eqn:E.
    destruct (construct_frame k w w1 r0 E) as (Hold & _).
    assert (w' = w1) as -> by (destruct r0; congruence).
    destruct (lookup_lt_is_Some_2 _ _ Hlt) as [o Ho].
    unfold same_instance, read. rewrite (Hold _ _ Ho), Ho. split; reflexivity.
  - cbn [assigns_to] in Hc. apply bool_decide_eq_false in Hc.
    destruct (assign_cases f self v w) as [[e E]|(b & v' & _ & E)];
      rewrite E in step; injection step as <- <-.
    + split; reflexivity.
    + split; [apply class_store|]. intros g. apply read_store_ne.
      left. congruence.
Qed.

Lemma run_same_instance `{Interpreter} (cs : list call) (w : world) (a : addr) :
  (a < length (heap w))%nat → forallb (λ c, negb (assigns_to a c)) cs = true →
  same_instance a w (snd (run cs w)).
Proof.
  revert w. induction cs as [|c cs IH]; intros w Hlt Hcs; [split; reflexivity|].
  cbn [forallb] in Hcs. apply andb_true_iff in Hcs as [Hc Hcs].
  apply negb_true_iff in Hc.
  rewrite run_cons. cbn [snd].
  destruct (exec c w) as [r w1] eqn:E. cbn [snd].
  eapply same_instance_trans.
  - eapply exec_same_instance; [exact E|exact Hlt|exact Hc].
  - apply IH; [|exact Hcs].
    pose proof (exec_length _ _ _ _ E). lia.
Qed.

(** X15. Instances share no state but the identity counter.  Whatever a
    client does that is no assignment to a given instance (constructions of
    any variant, failed or not, and assignments, accepted or not, to
    other instances), every getter of that instance and its [calc_pay],
    [str] and [repr] return what they returned before. *)
Theorem instances_are_isolated `{Interpreter} (cs : list call) (w : world)
    (a : addr) :
  (a < length (heap w))%nat →
  forallb (λ c, negb (assigns_to a c)) cs = true →
  (∀ g, fst (getter g a (snd (run cs w))) = fst (getter g a w))
  ∧ fst (calc_pay a (snd (run cs w))) = fst (calc_pay a w)
  ∧ fst (str a (snd (run cs w))) = fst (str a w)
  ∧ fst (repr a (snd (run cs w))) = fst (repr a w).
Proof.
  intros Hlt Hcs. pose proof (run_same_instance cs w a Hlt Hcs) as Hs.
  split; [|apply methods_same_instance, Hs].
  intros g. rewrite !getter_read. cbn [fst].
  destruct Hs as [_ Hr]. rewrite Hr. reflexivity.
Qed.

Lemma instances_are_isolated_witness :
  fst (repr 0%nat
         (snd (@run cpython312
                 [Construct alice; Assign f_name 1%nat (VStr "Alicia");
                  Construct underpaid; Assign f_email 1%nat (VStr "")]
                 office)))
  = fst (repr 0%nat office).
Proof.
  apply (@instances_are_isolated cpython312
           [Construct alice; Assign f_name 1%nat (VStr "Alicia");
            Construct underpaid; Assign f_email 1%nat (VStr "")] office 0%nat).
  - vm_compute. lia.
  - vm_compute. reflexivity.
Defined.

(** ** The short form identifies the instance *)

Lemma pretty_N_go_colon_free (x : N) (s : string) :
  colon_free s = true → colon_free (pretty_N_go x s) = true.
Proof.
  revert s. induction (N.lt_wf_0 x) as [x _ IH]; intros s Hs.
  assert (x = 0 ∨ 0 < x)%N as [->|Hx] by lia.
  - rewrite pretty_N_go_0. exact Hs.
  - rewrite pretty_N_go_step by exact Hx. apply IH.
    { apply N.div_lt; [exact Hx|reflexivity]. }
    cbn [colon_free]. rewrite Hs, andb_true_r.
    unfold pretty_N_char. repeat case_match; reflexivity.
Qed.

Lemma pretty_Z_colon_free (i : Z) : colon_free (pretty i) = true.
Proof.
  assert (HN : ∀ n : N, colon_free (pretty n) = true).
  { intros n. unfold pretty, pretty_N. destruct (decide (n = 0%N)); [reflexivity|].
    apply pretty_N_go_colon_free. reflexivity. }
  destruct i as [|p|p]; [reflexivity|apply (HN (Npos p))|].
  change (pretty (Z.neg p)) with ("-" +:+ pretty (Npos p)).
  cbn [append colon_free]. apply (HN (Npos p)).
Qed.

(** Two texts that agree up to their first colon. *)
Lemma colon_free_prefix (d1 d2 r1 r2 : string) :
  colon_free d1 = true → colon_free d2 = true →
  (d1 +:+ ":") +:+ r1 = (d2 +:+ ":") +:+ r2 → d1 = d2.
Proof.
  revert d2. induction d1 as [|c1 d1 IH]; intros [|c2 d2] H1 H2 E;
    cbn [append colon_free] in *.
  - reflexivity.
  - injection E as <- _. discriminate H2.
  - injection E as -> _. discriminate H1.
  - injection E as -> E.
    apply andb_true_iff in H1 as [_ H1]. apply andb_true_iff in H2 as [_ H2].
    f_equal. exact (IH d2 H1 H2 E).
Qed.

Lemma read_beyond (a : addr) (k : string) (w : world) :
  (length (heap w) ≤ a)%nat → read a k w = None.
Proof. intros Hge. unfold read. rewrite lookup_ge_None_2 by exact Hge. reflexivity. Qed.

(** The identity of the instance a constructor call allocates, whether the
    call returns or raises. *)
Lemma construct_new_id `{Interpreter} (c : ctor) (w w' : world) (r : outcome addr) :
  construct c w = (r, w') →
  read (length (heap w)) "id_number" w'
  = if employee_ok c then Some (VInt (CURRENT_ID w)) else None.
Proof.
  intros E. unfold employee_ok.
  destruct (name_ok (ctor_name c)) eqn:Hn;
    [destruct (email_ok (ctor_email c)) eqn:He|]; cbn [andb].
  - rewrite construct_fields in E by (unfold employee_ok; rewrite Hn, He; reflexivity).
    destruct (own_fields c _ _) as [r0 w1] eqn:E1.
    apply own_fields_stores in E1.
    assert (w' = w1) as -> by (destruct r0; injection E as <- <-; reflexivity).
    rewrite (stores_id _ _ _ _ _ E1).
    refine (employee_initialised_id _ _ _ (allocated (ctor_class c) w) _).
    rewrite allocated_length. lia.
  - destruct (construct_bad_email c w Hn He) as [msg E'].
    rewrite E' in E. injection E as <- <-.
    rewrite read_store_ne by (right; discriminate). apply read_allocated.
  - destruct (construct_bad_name c w Hn) as [msg E'].
    rewrite E' in E. injection E as <- <-. apply read_allocated.
Qed.

Section IdsOrdered.
Context `{Interpreter}.

Lemma ids_ordered_initial : ids_ordered initial_world.
Proof. split; intros; discriminate. Qed.

Lemma ids_ordered_exec (c : call) (w w' : world) (r : outcome (option addr)) :
  exec c w = (r, w') → ids_ordered w → ids_ordered w'.
Proof.
  intros step [Hlow Hord].
  destruct c as [k|f self v]; cbn [exec] in step;
  unfold mbind, M_bind, mret, M_ret in step.
  - destruct (construct k w) as [r0 w1] eqn:E.
    destruct (construct_frame k w w1 r0 E) as (Hold & Hlen & Hc & _).
    pose proof (construct_new_id k w w1 r0 E) as Hnew.
    assert (w' = w1) as -> by (destruct r0; congruence).
    assert (Hkeep : ∀ a, (a < length (heap w))%nat →
              read a "id_number" w1 = read a "id_number" w).
    { intros a Ha. destruct (lookup_lt_is_Some_2 _ _ Ha) as [o Ho].
      unfold read. rewrite (Hold _ _ Ho), Ho. reflexivity. }
    assert (Hnone : ∀ a, (length (heap w) < a)%nat → read a "id_number" w1 = None).
    { intros a Ha. apply read_beyond. lia. }
    assert (Hup : CURRENT_ID w ≤ CURRENT_ID w1)
      by (rewrite Hc; destruct (employee_ok k); lia).
    assert (Hself : ∀ i, read (length (heap w)) "id_number" w1 = Some (VInt i) →
              i = CURRENT_ID w ∧ CURRENT_ID w1 = CURRENT_ID w + 1).
    { intros i Hi. rewrite Hnew in Hi. rewrite Hc.
      destruct (employee_ok k); [|discriminate Hi].
      injection Hi as <-. split; reflexivity. }
    split.
    + intros a i Hi.
      destruct (lt_eq_lt_dec a (length (heap w))) as [[Ha| ->]|Ha].
      * rewrite Hkeep in Hi by exact Ha. specialize (Hlow _ _ Hi). lia.
      * destruct (Hself _ Hi). lia.
      * rewrite Hnone in Hi by exact Ha. discriminate Hi.
    + intros a b i j Hab Hi Hj.
      destruct (lt_eq_lt_dec b (length (heap w))) as [[Hb| ->]|Hb].
      * rewrite Hkeep in Hi, Hj by lia. exact (Hord _ _ _ _ Hab Hi Hj).
      * rewrite Hkeep in Hi by exact Hab. specialize (Hlow _ _ Hi).
        destruct (Hself _ Hj). lia.
      * rewrite Hnone in Hj by exact Hb. discriminate Hj.
  - destruct (assign_cases f self v w) as [[e E]|(b & v' & Hb & E)];
      rewrite E in step; injection step as <- <-.
    + split; assumption.
    + split.
      * intros a i Hi. rewrite read_old_id in Hi by exact Hb.
        rewrite store_CURRENT_ID. exact (Hlow _ _ Hi).
      * intros a a' i j Hlt Hi Hj. rewrite read_old_id in Hi, Hj by exact Hb.
        exact (Hord _ _ _ _ Hlt Hi Hj).
Qed.

Lemma ids_ordered_run (cs : list call) (w : world) :
  ids_ordered w → ids_ordered (snd (run cs w)).
Proof.
  revert w. induction cs as [|c cs IH]; intros w Hw; [exact Hw|].
  rewrite run_cons. cbn [snd].
  destruct (exec c w) as [r w1] eqn:E. cbn [snd].
  eapply IH, ids_ordered_exec; [exact E|exact Hw].
Qed.

End IdsOrdered.

(** What [str] read when it returned. *)
Lemma str_returns (a : addr) (w : world) (s : string) :
  fst (str a w) = Ok s →
  ∃ v n, read a "id_number" w = Some v ∧ read a "_name" w = Some (VStr n)
         ∧ s = (py_str v +:+ ":") +:+ n.
Proof.
  unfold str, dispatch, class_of, mbind, M_bind.
  destruct (heap w !! a) as [o|] eqn:Ho; [|discriminate].
  assert (resolve own_str (ob_class o) = Some Employee.__str__) as ->
    by (destruct (ob_class o); reflexivity).
  unfold Employee.__str__, Employee.name, mbind, M_bind, lift.
  rewrite !getattr_read.
  destruct (read a "id_number" w) as [v|]; [|discriminate].
  destruct (read a "_name" w) as [n|]; [|discriminate].
  destruct n; try discriminate. cbn [py_add_str fst].
  intros E. injection E as <-. eauto.
Qed.

(** X16. In every world a client can reach by constructions and property
    assignments, the short form [str] of an instance is its identity, a
    colon and its name, and it tells instances apart: two distinct
    instances never have the same short form, whatever their names are
    (the same name, or names with colons in them). *)
Theorem str_identifies_instance `{Interpreter} (cs : list call) (a b : addr)
    (sa sb : string) :
  fst (str a (snd (run cs initial_world))) = Ok sa →
  fst (str b (snd (run cs initial_world))) = Ok sb →
  (∃ i n, fst (getter f_id a (snd (run cs initial_world))) = Ok (VInt i)
          ∧ fst (getter f_name a (snd (run cs initial_world))) = Ok (VStr n)
          ∧ 1 ≤ i ∧ sa = (pretty i +:+ ":") +:+ n)
  ∧ (a ≠ b → sa ≠ sb).
Proof.
  set (w := snd (run cs initial_world)).
  intros Ea Eb.
  assert (Hform : ∀ x s, fst (str x w) = Ok s →
    ∃ i n, read x "id_number" w = Some (VInt i)
           ∧ read x "_name" w = Some (VStr n)
           ∧ 1 ≤ i ∧ s = (pretty i +:+ ":") +:+ n).
  { intros x s E. apply str_returns in E as (v & n & Hv & Hn & ->).
    destruct (well_typed_run cs initial_world well_typed_initial) as [_ Hw].
    fold w in Hw. pose proof Hv as Hv'. unfold read in Hv'.
    destruct (heap w !! x) as [o|] eqn:Ho; [|discriminate Hv'].
    specialize (Hw x o f_id v Ho Hv'). cbn [field_valid] in Hw.
    destruct v as [ | |i| | | | | ]; try discriminate Hw.
    exists i, n. repeat split; try assumption. apply Z.leb_le, Hw. }
  destruct (Hform a sa Ea) as (i & n & Hi & Hn & Hpos & ->).
  split.
  - exists i, n. rewrite !getter_read. cbn [fst].
    change (slot f_id) with "id_number". change (slot f_name) with "_name".
    rewrite Hi, Hn. auto.
  - intros Hab E. destruct (Hform b sb Eb) as (j & m & Hj & _ & _ & ->).
    apply colon_free_prefix in E; try apply pretty_Z_colon_free.
    apply (inj pretty) in E. subst j.
    destruct (ids_ordered_run cs initial_world ids_ordered_initial) as [_ Hord].
    fold w in Hord.
    destruct (lt_eq_lt_dec a b) as [[Hlt|Heq]|Hlt]; [|contradiction|].
    + specialize (Hord _ _ _ _ Hlt Hi Hj). lia.
    + specialize (Hord _ _ _ _ Hlt Hj Hi). lia.
Qed.

Lemma str_identifies_instance_witness :
  fst (str 0%nat (snd (@run cpython312 session initial_world))) = Ok "1:Robert"
  ∧ fst (str 2%nat (snd (@run cpython312 session initial_world))) = Ok "3:Alice"
  ∧ "1:Robert" ≠ "3:Alice".
Proof.
  split; [vm_compute; reflexivity|]. split; [vm_compute; reflexivity|].
  apply (@str_identifies_instance cpython312 session 0%nat 2%nat).
  - vm_compute. reflexivity.
  - vm_compute. reflexivity.
  - lia.
Defined.
